(** * Report generator: change-list parsing, workspace views, report assembly

    A shallow embedding of [generate_report.py].  Python strings are
    sequences of Unicode code points; the pure text functions are Rocq
    functions over them, the in-place updated change dictionaries live in
    an explicit store addressed by references, and the calls that leave the
    program (child processes, the HTTP exchange, the clock) are answered by
    an explicit environment and recorded in a trace. *)

From Stdlib Require Import ZArith NArith Lia Bool String Ascii DecimalString.
From Stdlib Require Import QArith Qround Qpower Lqa SpecFloat.
From stdpp Require Import base list.

Local Open Scope N_scope.

(** ** Python strings *)

Module PyStr.

(** A character is its code point, a [str] is the list of its characters. *)
Definition char := N.
Definition pystr := list N.

(** A string literal (code points below 256). *)
Definition str (s : string) : pystr := List.map N_of_ascii (list_ascii_of_string s).

(** [bool(s)] of a string, and of a list. *)
Definition truthy {A} (s : list A) : bool :=
  match s with [] => false | _ :: _ => true end.

(** [c.isspace()]: the code points CPython treats as whitespace in [str.split()]
    and [str.strip()]. *)
Definition isspace (c : char) : bool :=
  ((9 <=? c) && (c <=? 13)) || ((28 <=? c) && (c <=? 32))
  || (c =? 133) || (c =? 160) || (c =? 5760)
  || ((8192 <=? c) && (c <=? 8202))
  || (c =? 8232) || (c =? 8233) || (c =? 8239) || (c =? 8287) || (c =? 12288).

(** [s.startswith(prefix)] *)
Fixpoint startswith (prefix s : pystr) : bool :=
  match prefix, s with
  | [], _ => true
  | _ :: _, [] => false
  | p :: prefix', c :: s' => (p =? c) && startswith prefix' s'
  end.

(** [s.split(sep)] for a one-character separator: every occurrence splits,
    empty pieces are kept, the result is never empty. *)
Fixpoint split_on (sep : char) (s : pystr) : list pystr :=
  match s with
  | [] => [[]]
  | c :: s' =>
      if c =? sep then [] :: split_on sep s'
      else match split_on sep s' with
           | w :: ws => (c :: w) :: ws
           | [] => [[c]]
           end
  end.

(** [s.split()]: pieces between runs of whitespace, no empty piece. *)
Fixpoint split (s : pystr) : list pystr :=
  match s with
  | [] => []
  | c :: s' =>
      if isspace c then split s'
      else match s' with
           | [] => [[c]]
           | c' :: _ =>
               if isspace c' then [c] :: split s'
               else match split s' with
                    | w :: ws => (c :: w) :: ws
                    | [] => [[c]]
                    end
           end
  end.

(** [s.lstrip()], [s.rstrip()], [s.strip()] *)
Fixpoint lstrip (s : pystr) : pystr :=
  match s with
  | [] => []
  | c :: s' => if isspace c then lstrip s' else s
  end.

Definition rstrip (s : pystr) : pystr := rev (lstrip (rev s)).

Definition strip (s : pystr) : pystr := rstrip (lstrip s).

(** [s.replace(a, b)] for one-character [a] and [b]. *)
Definition replace (a b : char) (s : pystr) : pystr :=
  List.map (fun c => if c =? a then b else c) s.

(** [a <= b] on strings: lexicographic on code points, a proper prefix is
    smaller. *)
Fixpoint str_le (a b : pystr) : bool :=
  match a, b with
  | [], _ => true
  | _ :: _, [] => false
  | x :: a', y :: b' =>
      if x <? y then true else if y <? x then false else str_le a' b'
  end.

(** [s * n] *)
Definition repeat_str (s : pystr) (n : nat) : pystr := concat (replicate n s).

(** The decimal digits of a number, as [str(n)] prints a non-negative int. *)
Definition str_of_nat (n : nat) : pystr :=
  str (NilEmpty.string_of_uint (Nat.to_uint n)).

Definition LF : char := 10.
Definition TAB : char := 9.

End PyStr.
Import PyStr.

(** ** Change-list parser *)

(** The dictionary built for one change: keys [number], [date], [header]
    and [description]. *)
Record change := mk_change {
  number : pystr;
  date : pystr;
  header : pystr;
  description : list pystr
}.

#[global] Instance change_inhabited : Inhabited change :=
  populate (mk_change [] [] [] []).

(** The variables of [parse_pending_changes].  The dictionaries are objects:
    [changes] and [current_change] hold references into [store], so a
    dictionary appended to [changes] and still bound to [current_change] is
    one object seen twice. *)
Record parse_state := mk_parse_state {
  store : list change;
  changes : list nat;
  current_change : option nat
}.

Definition initial_parse_state : parse_state := mk_parse_state [] [] None.

Section Parser.
Variable start_date_str : pystr.
Variable end_date_str : option pystr.

(** Lines 75-77 and 97-99: the inclusion test on a change's date. *)
Definition in_range (change_date : pystr) : bool :=
  let in_range := str_le start_date_str change_date in
  match end_date_str with
  | Some e => if truthy e then in_range && str_le change_date e else in_range
  | None => in_range
  end.

(** Lines 73-79 and 95-101: append the change in progress when its date is
    in the range.  [current_change] stays bound. *)
Definition save_current (st : parse_state) : parse_state :=
  match current_change st with
  | Some r =>
      match store st !! r with
      | Some c =>
          if in_range (date c)
          then mk_parse_state (store st) (changes st ++ [r]) (current_change st)
          else st
      | None => st
      end
  | None => st
  end.

Definition append_description (line : pystr) (c : change) : change :=
  mk_change (number c) (date c) (header c) (description c ++ [line]).

(** Lines 69-92: the body of the loop over the lines. *)
Definition parse_line (st : parse_state) (line : pystr) : parse_state :=
  if startswith (str "Change ") line then
    let st := save_current st in
    let parts := split line in
    if (4 <=? length parts)%nat then
      let c := mk_change (nth 1 parts []) (nth 3 parts []) line [] in
      mk_parse_state (store st ++ [c]) (changes st) (Some (length (store st)))
    else st
  else
    match current_change st with
    | Some r =>
        if startswith [TAB] line
        then mk_parse_state (alter (append_description line) r (store st))
               (changes st) (current_change st)
        else st
    | None => st
    end.

(** The loop, then lines 95-101. *)
Definition parse_lines (lines : list pystr) (st : parse_state) : parse_state :=
  save_current (fold_left parse_line lines st).

(** The list the function returns, read through the store. *)
Definition returned (st : parse_state) : list change :=
  (fun r => store st !!! r) <$> changes st.
End Parser.

(** [start_date.replace('-', '/')] and the same for a given end date. *)
Definition normalize_date (d : pystr) : pystr := replace 45 47 d.

Definition normalize_end (end_date : option pystr) : option pystr :=
  match end_date with
  | Some e => if truthy e then Some (normalize_date e) else None
  | None => None
  end.

(** [parse_pending_changes(output, start_date, end_date)]; [end_date] is
    [None] or a string. *)
Definition parse_pending_changes (output start_date : pystr)
    (end_date : option pystr) : list change :=
  let lines := split_on LF output in
  let start_date_str := normalize_date start_date in
  let end_date_str := normalize_end end_date in
  returned (parse_lines start_date_str end_date_str lines initial_parse_state).

(** ** Workspace path resolver *)

(** Lines 33-57 of [get_workspace_depot_paths]: the loop over the lines of the
    workspace definition.  [in_view_section] and [depot_paths] are the loop's
    variables; returning [depot_paths] without looking at the remaining lines
    is the [break]. *)
Fixpoint scan_view (lines : list pystr) (in_view_section : bool)
    (depot_paths : list pystr) : list pystr :=
  match lines with
  | [] => depot_paths
  | line :: rest =>
      if startswith (str "View:") line then scan_view rest true depot_paths
      else if in_view_section then
        let line := strip line in
        if negb (truthy line) then scan_view rest in_view_section depot_paths
        else if startswith (str "//") line then
          let parts := split line in
          match parts with
          | depot_path :: _ =>
              if negb (startswith (str "-") depot_path)
              then scan_view rest in_view_section (depot_paths ++ [depot_path])
              else scan_view rest in_view_section depot_paths
          | [] => scan_view rest in_view_section depot_paths
          end
        else depot_paths
      else scan_view rest in_view_section depot_paths
  end.

Definition depot_paths_of_output (output : pystr) : list pystr :=
  scan_view (split_on LF output) false [].

(** ** Floating-point arithmetic of the context-size estimate *)

(** [len(prompt) / 3] is Python's true division of two ints and [* 2] a float
    multiplication: each gives the binary64 value nearest to the exact result,
    ties to even.  The values met here are non-negative and far from the
    ends of the exponent range (a length is below [2 ^ 63]), so a value is a
    mantissa and an exponent, and neither subnormals nor overflow appear. *)
Module Binary64.
Local Open Scope Z_scope.

(** The value [mant * 2 ^ expo]; zero has mantissa [0]. *)
Record float := mk_float { mant : Z; expo : Z }.

Definition prec : Z := 53.

(** Numerator and denominator of [(p / q) / 2 ^ e]. *)
Definition scale (p q e : Z) : Z * Z :=
  if 0 <=? e then (p, q * 2 ^ e) else (p * 2 ^ (- e), q).

(** The [e] with [2 ^ e <= p / q < 2 ^ (e + 1)], for positive [p] and [q]. *)
Definition floor_log2 (p q : Z) : Z :=
  let d := Z.log2 p - Z.log2 q in
  let '(p', q') := scale p q d in
  if q' <=? p' then d else d - 1.

(** The integer nearest to [p / q], ties to even. *)
Definition round_half_even (p q : Z) : Z :=
  let k := p / q in
  let r := p mod q in
  if 2 * r <? q then k
  else if q <? 2 * r then k + 1
  else if Z.even k then k else k + 1.

(** The binary64 value nearest to [p / q], for [0 <= p] and [0 < q]: a
    53-bit mantissa at the exponent of the quotient's binade. *)
Definition round (p q : Z) : float :=
  if p =? 0 then mk_float 0 0
  else
    let e := floor_log2 p q - (prec - 1) in
    let '(p', q') := scale p q e in
    mk_float (round_half_even p' q') e.

(** [float(n)] *)
Definition of_int (n : Z) : float := round n 1.

(** [a / b] on ints *)
Definition true_divide (a b : Z) : float := round a b.

(** [x * y] on floats *)
Definition mul (x y : float) : float :=
  let '(p, q) := scale (mant x * mant y) 1 (- (expo x + expo y)) in
  round p q.

(** [int(x)]: truncation. *)
Definition to_int (x : float) : Z :=
  if 0 <=? expo x then mant x * 2 ^ expo x else mant x / 2 ^ (- expo x).
End Binary64.

(** [n.bit_length()]: the bits of [abs(n)]. *)
Definition bit_length (n : Z) : Z :=
  if (n =? 0)%Z then 0%Z else (Z.log2 (Z.abs n) + 1)%Z.

(** Line 197: [int((len(prompt) / 3) * 2)] as a function of the length. *)
Definition token_estimate (len : Z) : Z :=
  Binary64.to_int (Binary64.mul (Binary64.true_divide len 3) (Binary64.of_int 2)).

(** Line 198: [1 << (num_ctx - 1).bit_length()] *)
Definition next_power_of_two (num_ctx : Z) : Z :=
  Z.shiftl 1 (bit_length (num_ctx - 1)).

(** Lines 192, 197-198: the prompt and its context size. *)
Definition make_prompt (custom_prompt report_text : pystr) : pystr :=
  custom_prompt ++ [LF; LF] ++ report_text.

Definition context_size (prompt : pystr) : Z :=
  let num_ctx := token_estimate (Z.of_nat (length prompt)) in
  next_power_of_two num_ctx.

(** ** The environment: child processes, HTTP, clock *)

(** Exception classes the program meets; the first five are
    [requests.exceptions.RequestException] and its subclasses. *)
Inductive exn_class :=
  | RequestException | ConnectionError | Timeout | HTTPError | InvalidJSONError
  | CalledProcessError | AttributeError | OtherException.

Definition is_RequestException (c : exn_class) : bool :=
  match c with
  | RequestException | ConnectionError | Timeout | HTTPError | InvalidJSONError => true
  | CalledProcessError | AttributeError | OtherException => false
  end.

(** An exception object: its class and [str(e)]. *)
Record exn := mk_exn { exn_class_of : exn_class; exn_str : pystr }.

(** What [subprocess.run(..., capture_output=True, text=True)] collects. *)
Record completed_process := mk_completed_process {
  returncode : Z;
  stdout : pystr;
  stderr : pystr
}.

(** Python values the summary requester hands back: [None], a string, or
    some other JSON value the program never looks into. *)
Inductive pyval := VNone | VStr (s : pystr) | VOther (repr : pystr).

(** The value [response.json()] decodes: a dictionary, or another value. *)
Inductive decoded := DDict (items : list (pystr * pyval)) | DOther (v : pyval).

(** [d.get(key, default)] on the decoded dictionary. *)
Fixpoint dict_get (items : list (pystr * pyval)) (key : pystr) (default : pyval) : pyval :=
  match items with
  | [] => default
  | (k, v) :: items' => if decide (k = key) then v else dict_get items' key default
  end.

(** The HTTP response as the program uses it: the status code, the message
    [raise_for_status] would put in its [HTTPError], and what [json()] gives. *)
Record response := mk_response {
  status_code : Z;
  http_error_msg : pystr;
  json_result : decoded + exn
}.

(** The JSON body of the request to [/api/generate]; [stream] is [False] and
    [temperature] is [0.1]. *)
Record generate_request := mk_generate_request {
  req_model : pystr;
  req_prompt : pystr;
  req_num_ctx : Z
}.

(** What the program does to the outside, in order. *)
Inductive event :=
  | Run (cmd : list pystr)                        (* subprocess.run(cmd, ...) *)
  | Stderr (text : pystr)                         (* print(text, file=sys.stderr) *)
  | Post (url : pystr) (body : generate_request). (* requests.post(url, json=body) *)

(** The outside answers as a function of what happened so far. *)
Record world := mk_world {
  subprocess_run : list event -> list pystr -> completed_process + exn;
  called_process_error_str : list pystr -> Z -> pystr;
  requests_post : list event -> pystr -> generate_request -> response + exn;
  datetime_now : list event -> pystr;      (* now().strftime('%Y-%m-%d %H:%M:%S') *)
  perf_elapsed : list event -> pystr       (* f"{elapsed:.3f}" *)
}.

(** How a call ends: it returns, [sys.exit(code)] unwinds the program, or an
    exception propagates. *)
Inductive outcome (A : Type) :=
  | Return (a : A)
  | Exit (code : Z)
  | Raise (e : exn).
Arguments Return {A} a.
Arguments Exit {A} code.
Arguments Raise {A} e.

(** A computation reads and extends the trace of events. *)
Definition M (A : Type) : Type := list event -> outcome A * list event.

Definition ret {A} (a : A) : M A := fun t => (Return a, t).

Definition bind {A B} (m : M A) (k : A -> M B) : M B :=
  fun t =>
    match m t with
    | (Return a, t') => k a t'
    | (Exit code, t') => (Exit code, t')
    | (Raise e, t') => (Raise e, t')
    end.

Notation "x <- m ;; k" := (bind m (fun x => k))
  (at level 100, m at next level, right associativity, only parsing).
Notation "m ;;; k" := (bind m (fun _ => k))
  (at level 100, right associativity, only parsing).

Definition sys_exit {A} (code : Z) : M A := fun t => (Exit code, t).
Definition raise {A} (e : exn) : M A := fun t => (Raise e, t).
Definition print_stderr (text : pystr) : M unit := fun t => (Return tt, t ++ [Stderr text]).
Definition get_trace : M (list event) := fun t => (Return t, t).

(** [try: m except cls as e: handler e], for the classes [catches] accepts. *)
Definition try_except {A} (m : M A) (catches : exn_class -> bool) (handler : exn -> M A) : M A :=
  fun t =>
    match m t with
    | (Raise e, t') => if catches (exn_class_of e) then handler e t' else (Raise e, t')
    | r => r
    end.

Section Program.
Variable w : world.

(** [subprocess.run(cmd, capture_output=True, text=True, check=True)]:
    with [check=True] a non-zero return code raises [CalledProcessError],
    which carries the command, the return code and the captured streams. *)
Definition run_checked (cmd : list pystr) : M (completed_process + completed_process) :=
  fun t =>
    match subprocess_run w t cmd with
    | inl p => (Return (if (returncode p =? 0)%Z then inl p else inr p), t ++ [Run cmd])
    | inr e => (Raise e, t ++ [Run cmd])
    end.

(** Lines 18-27. *)
Definition run_p4_command (p4_user p4_workspace p4_server : pystr)
    (command : list pystr) : M pystr :=
  let cmd := [str "p4"; str "-u"; p4_user; str "-c"; p4_workspace; str "-p"; p4_server]
             ++ command in
  r <- run_checked cmd ;;
  match r with
  | inl result => ret (stdout result)
  | inr e =>
      print_stderr (str "Error running p4 command: "
                    ++ called_process_error_str w cmd (returncode e)) ;;;
      print_stderr (str "Output: " ++ stderr e) ;;;
      sys_exit 1%Z
  end.

(** Lines 29-57. *)
Definition get_workspace_depot_paths (p4_user p4_workspace p4_server : pystr)
    : M (list pystr) :=
  output <- run_p4_command p4_user p4_workspace p4_server
              [str "client"; str "-o"; p4_workspace] ;;
  ret (depot_paths_of_output output).

(** The [timed] decorator of [utilities/decorators.py]: after the function
    has returned, one line with its name and the elapsed time. *)
Definition timed {A} (fn_name : pystr) (fn : M A) : M A :=
  result <- fn ;;
  t <- get_trace ;;
  print_stderr (fn_name ++ str " took " ++ perf_elapsed w t ++ str "s") ;;;
  ret result.

(** Lines 116-146: the command lines of the three change queries. *)
Definition date_suffix (p4_start_date p4_end_date : pystr) : pystr :=
  str "@" ++ p4_start_date ++ str ",@" ++ p4_end_date.

Definition submitted_args (path_filter : list pystr)
    (p4_start_date p4_end_date : pystr) : list pystr :=
  if truthy path_filter
  then (fun path => path ++ date_suffix p4_start_date p4_end_date) <$> path_filter
  else [date_suffix p4_start_date p4_end_date].

(** Lines 152-158: the metadata block. *)
Definition report_metadata (p4_user p4_workspace p4_server start_date : pystr)
    (end_date : option pystr) (report_date : pystr)
    (n_pending submitted_count : nat) : pystr :=
  repeat_str (str "=") 60 ++ [LF]
  ++ str "P4 CHANGES REPORT" ++ [LF]
  ++ str "Date: " ++ start_date ++ str " to "
     ++ (match end_date with
         | Some e => if truthy e then e else report_date
         | None => report_date
         end) ++ [LF]
  ++ str "User: " ++ p4_user ++ str " | Workspace: " ++ p4_workspace
     ++ str " | Server: " ++ p4_server ++ [LF]
  ++ str "Generated: " ++ report_date ++ [LF]
  ++ str "Pending: " ++ str_of_nat n_pending ++ str " | Submitted: "
     ++ str_of_nat submitted_count ++ [LF]
  ++ repeat_str (str "=") 60 ++ [LF; LF].

(** Lines 161-167: what is written for the pending changes. *)
Definition write_change (c : change) : pystr :=
  [LF] ++ header c ++ [LF]
  ++ concat ((fun desc_line => desc_line ++ [LF]) <$> description c).

Definition pending_section (pending_changes : list change) : pystr :=
  if truthy pending_changes
  then concat (write_change <$> pending_changes)
  else str "No pending changes found for this period." ++ [LF].

(** Lines 181-184: what is written for the submitted changes. *)
Definition submitted_section (submitted_output_full : pystr) : pystr :=
  if truthy (strip submitted_output_full)
  then submitted_output_full ++ [LF]
  else str "No submitted changes found for this period." ++ [LF].

(** Lines 106-186, without the decorator. *)
Definition generate_raw_report_body (p4_user p4_workspace p4_server start_date : pystr)
    (end_date : option pystr) (depot_paths : option (list pystr)) : M pystr :=
  depot_paths <-
    (if truthy (default [] depot_paths) then ret depot_paths
     else
       depot_paths <- get_workspace_depot_paths p4_user p4_workspace p4_server ;;
       if truthy depot_paths then ret (Some depot_paths)
       else
         print_stderr (str "Warning: Could not determine depot paths from workspace, using all depots") ;;;
         ret None) ;;
  let path_filter := default [] depot_paths in
  let p4_start_date := replace 45 47 start_date in
  let p4_end_date :=
    match end_date with
    | Some e => if truthy e then replace 45 47 e else str "now"
    | None => str "now"
    end in
  let pending_cmd :=
    [str "changes"; str "-l"; str "-u"; p4_user; str "-s"; str "pending"] ++ path_filter in
  pending_output <- run_p4_command p4_user p4_workspace p4_server pending_cmd ;;
  let pending_changes := parse_pending_changes pending_output start_date end_date in
  let submitted_cmd :=
    [str "changes"; str "-u"; p4_user; str "-s"; str "submitted"]
    ++ submitted_args path_filter p4_start_date p4_end_date in
  submitted_output <- run_p4_command p4_user p4_workspace p4_server submitted_cmd ;;
  let submitted_count :=
    length (List.filter (startswith (str "Change ")) (split_on LF submitted_output)) in
  t <- get_trace ;;
  let report_date := datetime_now w t in
  let report :=
    report_metadata p4_user p4_workspace p4_server start_date end_date report_date
      (length pending_changes) submitted_count in
  let report := report ++ pending_section pending_changes in
  let submitted_cmd_full :=
    [str "changes"; str "-l"; str "-u"; p4_user; str "-s"; str "submitted"]
    ++ submitted_args path_filter p4_start_date p4_end_date in
  submitted_output_full <- run_p4_command p4_user p4_workspace p4_server submitted_cmd_full ;;
  ret (report ++ submitted_section submitted_output_full).

Definition generate_raw_report (p4_user p4_workspace p4_server start_date : pystr)
    (end_date : option pystr) (depot_paths : option (list pystr)) : M pystr :=
  timed (str "generate_raw_report")
    (generate_raw_report_body p4_user p4_workspace p4_server start_date end_date depot_paths).

(** [requests.post(url, json=body)]: a response, or an exception of the
    library (connection refused, timeout, ...). *)
Definition post (url : pystr) (body : generate_request) : M response :=
  fun t =>
    match requests_post w t url body with
    | inl r => (Return r, t ++ [Post url body])
    | inr e => (Raise e, t ++ [Post url body])
    end.

(** [response.raise_for_status()]: [HTTPError] for a status code from 400
    to 599, nothing otherwise. *)
Definition raise_for_status (r : response) : M unit :=
  if ((400 <=? status_code r) && (status_code r <? 600))%Z
  then raise (mk_exn HTTPError (http_error_msg r))
  else ret tt.

(** [response.json()] *)
Definition response_json (r : response) : M decoded :=
  match json_result r with
  | inl d => ret d
  | inr e => raise e
  end.

(** [result.get('response', 'No AI report generated')]; only a dictionary
    has the method. *)
Definition result_get (result : decoded) : M pyval :=
  match result with
  | DDict items => ret (dict_get items (str "response") (VStr (str "No AI report generated")))
  | DOther _ => raise (mk_exn AttributeError (str "object has no attribute 'get'"))
  end.

(** Lines 189-218, without the decorator. *)
Definition generate_ai_report_body (report_text ollama_url model custom_prompt : pystr)
    : M pyval :=
  let prompt := make_prompt custom_prompt report_text in
  try_except
    (let num_ctx := context_size prompt in
     response <- post (ollama_url ++ str "/api/generate")
                   (mk_generate_request model prompt num_ctx) ;;
     raise_for_status response ;;;
     result <- response_json response ;;
     result_get result)
    is_RequestException
    (fun e =>
       print_stderr (str "Error connecting to Ollama: " ++ exn_str e) ;;;
       print_stderr (str "Make sure Ollama is running at " ++ ollama_url) ;;;
       ret VNone).

Definition generate_ai_report (report_text ollama_url model custom_prompt : pystr)
    : M pyval :=
  timed (str "generate_ai_report")
    (generate_ai_report_body report_text ollama_url model custom_prompt).
End Program.

(** ** Vocabulary of the specification *)

(** A header line starts with the token [Change ]; it is well formed when it
    splits into at least four tokens. *)
Definition is_header (line : pystr) : bool := startswith (str "Change ") line.

Definition well_formed_header (line : pystr) : bool :=
  is_header line && (4 <=? length (split line))%nat.

(** The description of a record, from the lines after its header: the lines
    starting with a tab, unchanged and in order, up to the next well-formed
    header. *)
Fixpoint description_lines (lines : list pystr) : list pystr :=
  match lines with
  | [] => []
  | line :: rest =>
      if well_formed_header line then []
      else if startswith [TAB] line then line :: description_lines rest
      else description_lines rest
  end.

(** The records of a listing, as section 4.3 of the specification words them:
    one per well-formed header, in input order; number and date are the second
    and the fourth token, the header is the line itself. *)
Fixpoint spec_records (lines : list pystr) : list change :=
  match lines with
  | [] => []
  | line :: rest =>
      if well_formed_header line
      then mk_change (nth 1 (split line) []) (nth 3 (split line) []) line
             (description_lines rest) :: spec_records rest
      else spec_records rest
  end.

(** The range from [start_date] to [end_date] covers the date [d]: string
    comparison on the normalized forms, both bounds included, no upper bound
    when no end date is given. *)
Definition covers (start_date : pystr) (end_date : option pystr) (d : pystr) : Prop :=
  str_le (normalize_date start_date) d = true /\
  match normalize_end end_date with
  | Some e => str_le d e = true
  | None => True
  end.

(** A blank line: nothing is left after stripping. *)
Definition blank (line : pystr) : Prop := strip line = [].

(** Calendar dates and their fixed-width text. *)
Module Calendar.
Record ymd := mk_ymd { year : N; month : N; day : N }.

Definition is_leap (y : N) : bool :=
  (y mod 4 =? 0) && (negb (y mod 100 =? 0) || (y mod 400 =? 0)).

Definition days_in_month (y m : N) : N :=
  if m =? 2 then (if is_leap y then 29 else 28)
  else if (m =? 4) || (m =? 6) || (m =? 9) || (m =? 11) then 30
  else 31.

Definition valid (d : ymd) : Prop :=
  1 <= year d <= 9999 /\ 1 <= month d <= 12 /\
  1 <= day d <= days_in_month (year d) (month d).

(** The day after. *)
Definition next_day (d : ymd) : ymd :=
  if day d <? days_in_month (year d) (month d)
  then mk_ymd (year d) (month d) (day d + 1)
  else if month d <? 12 then mk_ymd (year d) (month d + 1) 1
  else mk_ymd (year d + 1) 1 1.

(** Chronological order. *)
Definition le (a b : ymd) : Prop :=
  year a < year b \/
  (year a = year b /\ (month a < month b \/ (month a = month b /\ day a <= day b))).

Definition digit (n : N) : char := 48 + n mod 10.

(** [YYYY<sep>MM<sep>DD], zero-padded. *)
Definition text (sep : char) (d : ymd) : pystr :=
  [digit (year d / 1000); digit (year d / 100); digit (year d / 10); digit (year d)]
  ++ [sep] ++ [digit (month d / 10); digit (month d)]
  ++ [sep] ++ [digit (day d / 10); digit (day d)].

(** The command line's [YYYY-MM-DD] and the listing's [YYYY/MM/DD]. *)
Definition dashed : ymd -> pystr := text 45.
Definition slashed : ymd -> pystr := text 47.
End Calendar.

(** [n] is a power of two. *)
Definition is_power_of_two (n : Z) : Prop := exists k : Z, (0 <= k)%Z /\ n = (2 ^ k)%Z.

(** The least power of two that is at least [n]. *)
Definition least_power_of_two_above (n p : Z) : Prop :=
  is_power_of_two p /\ (n <= p)%Z /\
  forall q, is_power_of_two q -> (n <= q)%Z -> (p <= q)%Z.

(** ** Invariants of the parser's state *)

(** The change in progress, if any, is the dictionary created last. *)
Definition current_is_last (st : parse_state) : Prop :=
  current_change st =
  match store st with [] => None | _ :: _ => Some (length (store st) - 1)%nat end.

Definition append_descriptions (ds : list pystr) (c : change) : change :=
  mk_change (number c) (date c) (header c) (description c ++ ds).

(** The store after further description lines went to the dictionary created
    last. *)
Definition extend_last (ds : list pystr) (s : list change) : list change :=
  alter (append_descriptions ds) (length s - 1)%nat s.

Definition date_at (s : list change) (r : nat) : pystr := date (s !!! r).

Section Invariants.
Variable start_date_str : pystr.
Variable end_date_str : option pystr.

(** The dictionary behind reference [r] has its date in the range. *)
Definition selected (s : list change) (r : nat) : bool :=
  in_range start_date_str end_date_str (date_at s r).

(** Every reference in [changes] is to a selected dictionary of the store. *)
Definition changes_sound (st : parse_state) : Prop :=
  forall r, r ∈ changes st -> (r < length (store st))%nat /\ selected (store st) r = true.

(** Every selected dictionary older than the one in progress is in [changes]. *)
Definition changes_complete (st : parse_state) : Prop :=
  forall r, (S r < length (store st))%nat -> selected (store st) r = true -> r ∈ changes st.

(** [changes] holds exactly the selected dictionaries older than the one in
    progress, each once, in the order of creation. *)
Definition changes_exact (st : parse_state) : Prop :=
  changes st = List.filter (selected (store st)) (seq 0 (length (store st) - 1)).
End Invariants.

(** ** Sample inputs *)

Definition nl : string := String (ascii_of_nat 10) EmptyString.
Definition tab : string := String (ascii_of_nat 9) EmptyString.

(** The listing of section 8 of the specification. *)
Definition sample_listing : pystr :=
  str ("Change 101 on 2024/01/05 by alice@ws" ++ nl ++ tab ++ "fix bug" ++ nl ++
       "Change 102 on 2024/01/20 by alice@ws" ++ nl ++ tab ++ "add feature")%string.

Definition change_101 : change :=
  mk_change (str "101") (str "2024/01/05") (str "Change 101 on 2024/01/05 by alice@ws")
    [str (tab ++ "fix bug")%string].

Definition change_102 : change :=
  mk_change (str "102") (str "2024/01/20") (str "Change 102 on 2024/01/20 by alice@ws")
    [str (tab ++ "add feature")%string].

(** The same listing with a header of two tokens between the two changes. *)
Definition listing_with_malformed_header : pystr :=
  str ("Change 101 on 2024/01/05 by alice@ws" ++ nl ++ tab ++ "fix bug" ++ nl ++
       "Change oops" ++ nl ++
       "Change 102 on 2024/01/20 by alice@ws" ++ nl ++ tab ++ "add feature")%string.

(** Two workspace definitions whose view holds one mapping and one exclusion
    mapping, in either order. *)
Definition workspace_exclusion_last : pystr :=
  str ("Client: ws" ++ nl ++ nl ++ "View:" ++ nl ++
       tab ++ "//depot/main/... //ws/..." ++ nl ++
       tab ++ "-//depot/main/secret/... //ws/secret/..." ++ nl)%string.

Definition workspace_exclusion_first : pystr :=
  str ("Client: ws" ++ nl ++ nl ++ "View:" ++ nl ++
       tab ++ "-//depot/main/secret/... //ws/secret/..." ++ nl ++
       tab ++ "//depot/main/... //ws/..." ++ nl)%string.

(** The text of a list of lines, each ended by a line feed. *)
Definition lines_text (lines : list pystr) : pystr :=
  concat ((fun line => line ++ [LF]) <$> lines).

(** The child process started after trace [t] with command line [cmd] exits
    with status zero and has printed [out]. *)
Definition prints (w : world) (t : list event) (cmd : list pystr) (out : pystr) : Prop :=
  exists p, subprocess_run w t cmd = inl p /\ returncode p = 0%Z /\ stdout p = out.

(** The full command line of a [p4] call. *)
Definition p4 (p4_user p4_workspace p4_server : pystr) (command : list pystr) : list pystr :=
  [str "p4"; str "-u"; p4_user; str "-c"; p4_workspace; str "-p"; p4_server] ++ command.

(** A world whose child processes exit with status 2 and a message on
    standard error, and one whose child processes print the sample listing. *)
Definition failing_world : world :=
  mk_world
    (fun _ _ => inl (mk_completed_process 2 [] (str "Perforce password (P4PASSWD) invalid or unset.")))
    (fun _ _ => str "Command returned non-zero exit status 2.")
    (fun _ _ _ => inr (mk_exn ConnectionError (str "Connection refused")))
    (fun _ => str "2024-02-01 09:00:00")
    (fun _ => str "0.001").

Definition listing_world : world :=
  mk_world
    (fun _ _ => inl (mk_completed_process 0 sample_listing []))
    (fun _ _ => [])
    (fun _ _ _ => inr (mk_exn ConnectionError (str "Connection refused")))
    (fun _ => str "2024-02-01 09:00:00")
    (fun _ => str "0.001").

(** A world whose endpoint answers with status 300 and a JSON object holding
    a generated text. *)
Definition redirect_world : world :=
  mk_world
    (fun _ _ => inl (mk_completed_process 0 [] []))
    (fun _ _ => [])
    (fun _ _ _ => inl (mk_response 300 (str "300 Multiple Choices")
                         (inl (DDict [(str "response", VStr (str "summary"))]))))
    (fun _ => str "2024-02-01 09:00:00")
    (fun _ => str "0.001").

(** ** Meaning of the floating-point values *)

(** The rational a float stands for. *)
Definition value (x : Binary64.float) : Q :=
  (inject_Z (Binary64.mant x) * 2 ^ Binary64.expo x)%Q.

(** The same computation with the operations of the Standard Library's
    specification of IEEE 754 binary64. *)
Definition spec_of_int (n : Z) : spec_float := binary_normalize 53 1024 n 0 false.

Definition spec_estimate (len : Z) : spec_float :=
  SFmul 53 1024 (SFdiv 53 1024 (spec_of_int len) (spec_of_int 3)) (spec_of_int 2).

Definition to_spec_float (x : Binary64.float) : spec_float :=
  match Binary64.mant x with
  | Zpos m => S754_finite false m (Binary64.expo x)
  | _ => S754_zero false
  end.

(** A world whose endpoint answers with status 200 and an empty JSON object. *)
Definition empty_json_world : world :=
  mk_world
    (fun _ _ => inl (mk_completed_process 0 [] []))
    (fun _ _ => [])
    (fun _ _ _ => inl (mk_response 200 [] (inl (DDict []))))
    (fun _ => str "2024-02-01 09:00:00")
    (fun _ => str "0.001").

(** ** Proof automation *)

(** Goals over the lines of a literal text, line by line. *)
Ltac each_line tac :=
  refine (proj1 (Forall_forall _ _) _);
  match goal with
  | |- Forall _ ?l => let l' := eval vm_compute in l in change l with l'
  end;
  repeat (apply List.Forall_cons; [tac|]); try apply List.Forall_nil.

(** ** Counting headers *)

(** The lines that start with "Change ", well formed or not. *)
Definition header_count (lines : list pystr) : nat :=
  length (List.filter is_header lines).

(** One for a change in progress. *)
Definition in_progress (st : parse_state) : nat :=
  match current_change st with Some _ => 1%nat | None => 0%nat end.

(** ** Events of a trace *)

Definition is_run (ev : event) : bool :=
  match ev with Run _ => true | _ => false end.

Definition is_post (ev : event) : bool :=
  match ev with Post _ _ => true | _ => false end.

(** ** What a computation adds to the trace *)

(** [m] only appends to the trace: events that satisfy [P], at most [n] of
    them child processes. *)
Definition appends {A} (P : event -> Prop) (n : nat) (m : M A) : Prop :=
  forall t, exists new,
    snd (m t) = t ++ new /\ Forall P new /\ (length (List.filter is_run new) <= n)%nat.

(** The events of the report generator: [p4] with the given user, workspace
    and server, and lines on standard error. *)
Definition report_event (p4_user p4_workspace p4_server : pystr) (ev : event) : Prop :=
  match ev with
  | Run cmd => exists command, cmd = p4 p4_user p4_workspace p4_server command
  | Stderr _ => True
  | Post _ _ => False
  end.

(** The two lines [run_p4_command] prints for a child process that failed. *)
Definition failure_lines (w : world) (cmd : list pystr) (p : completed_process) : list event :=
  [Stderr (str "Error running p4 command: " ++ called_process_error_str w cmd (returncode p));
   Stderr (str "Output: " ++ stderr p)].

(** [m] only appends to the trace, and leaves the program only with status
    1, right after the failure lines of a child process that returned a
    non-zero code. *)
Definition exits_after_failed_command {A} (w : world) (m : M A) : Prop :=
  forall t, exists new,
    snd (m t) = t ++ new /\
    forall code, fst (m t) = Exit code ->
      code = 1%Z /\
      exists done cmd p,
        new = done ++ Run cmd :: failure_lines w cmd p
        /\ subprocess_run w (t ++ done) cmd = inl p /\ returncode p <> 0%Z.

(** ** The entry point *)

(** What [parser.parse_args()] returns: the four required options are
    strings, an option that was not given is [None], [--depot] collects its
    values in a list, and the two Ollama options have defaults. *)
Record args := mk_args {
  user : pystr;
  workspace : pystr;
  server : pystr;
  start_date : pystr;
  end_date : option pystr;
  depot : option (list pystr);
  raw_output : option pystr;
  ai_output : option pystr;
  ollama_url : pystr;
  ollama_model : pystr;
  prompt_file : option pystr;
  raw_reuse : bool
}.

(** [bool(x)] of an option that is [None] or a string. *)
Definition given (x : option pystr) : bool := truthy (default [] x).

(** The files as the program sees them: [os.path.isfile(path)], and what
    [with open(path, 'r', encoding='utf-8') as f: f.read()] gives, the text
    or the exception raised on the way. *)
Record file_system := mk_file_system {
  isfile : pystr -> bool;
  read_text : pystr -> pystr + exn
}.

(** The environment of [main]: the world of the report functions; whether
    [datetime.strptime(s, '%Y-%m-%d')] returns (it raises [ValueError]
    otherwise); and what [with open(path, 'w', encoding='utf-8') as f:
    f.write(text)] leaves behind, with the exception if one was raised. *)
Record main_world := mk_main_world {
  report_world : world;
  strptime_ok : pystr -> bool;
  write_text : file_system -> pystr -> pystr -> file_system * option exn
}.

(** [main] works on the trace and on the files. *)
Record io_state := mk_io_state {
  trace : list event;
  files : file_system
}.

Definition IO (A : Type) : Type := io_state -> outcome A * io_state.

Definition io_ret {A} (a : A) : IO A := fun s => (Return a, s).

Definition io_bind {A B} (m : IO A) (k : A -> IO B) : IO B :=
  fun s =>
    match m s with
    | (Return a, s') => k a s'
    | (Exit code, s') => (Exit code, s')
    | (Raise e, s') => (Raise e, s')
    end.

Declare Scope io_scope.
Delimit Scope io_scope with io.
Notation "x <- m ;; k" := (io_bind m (fun x => k))
  (at level 100, m at next level, right associativity, only parsing) : io_scope.
Notation "m ;;; k" := (io_bind m (fun _ => k))
  (at level 100, right associativity, only parsing) : io_scope.

(** A computation on the trace alone leaves the files as they are. *)
Definition lift {A} (m : M A) : IO A :=
  fun s => let '(r, t) := m (trace s) in (r, mk_io_state t (files s)).

Definition io_exit {A} (code : Z) : IO A := fun s => (Exit code, s).
Definition io_raise {A} (e : exn) : IO A := fun s => (Raise e, s).
Definition get_files : IO file_system := fun s => (Return (files s), s).

(** [bool(v)] of a value of the decoded JSON, read off its [repr]: [None],
    the empty string, [False], zero, the empty list and the empty dictionary
    are false. *)
Definition pyval_truthy (v : pyval) : bool :=
  match v with
  | VNone => false
  | VStr s => truthy s
  | VOther repr =>
      negb (bool_decide
              (repr ∈ [str "False"; str "0"; str "0.0"; str "-0.0"; str "[]"; str "{}"]))
  end.

Section Main.
Variable mw : main_world.
Local Open Scope io_scope.

(** [with open(path, 'w', encoding='utf-8') as f: f.write(text)] *)
Definition write_file (path text : pystr) : IO unit :=
  fun s =>
    let '(fs, err) := write_text mw (files s) path text in
    match err with
    | None => (Return tt, mk_io_state (trace s) fs)
    | Some e => (Raise e, mk_io_state (trace s) fs)
    end.

(** The same with a value that need not be a string: [f.write] raises
    [TypeError] for anything else, after [open] has emptied the file, which
    is what writing the empty string leaves. *)
Definition write_value (path : pystr) (v : pyval) : IO unit :=
  match v with
  | VStr s => write_file path s
  | VNone | VOther _ =>
      write_file path [] ;;;
      io_raise (mk_exn OtherException (str "write() argument must be str"))
  end.

(** Lines 241-247: both dates must parse, the end date when it is given. *)
Definition sanitize_inputs (a : args) : IO unit :=
  if strptime_ok mw (start_date a)
     && (if given (end_date a) then strptime_ok mw (default [] (end_date a)) else true)
  then io_ret tt
  else
    lift (print_stderr (str "Error: Invalid date format. Use YYYY-MM-DD (e.g., 2000-12-31)")) ;;;
    io_exit 1%Z.

(** Lines 252-259: load the raw report. *)
Definition load_raw_report (path : pystr) : IO pystr :=
  fs <- get_files ;;
  match read_text fs path with
  | inl raw_report =>
      lift (print_stderr (str "Reusing raw report file: " ++ path)) ;;;
      io_ret raw_report
  | inr e =>
      lift (print_stderr (str "Error reading raw report file: " ++ exn_str e)) ;;;
      io_exit 1%Z
  end.

(** Lines 260-272: generate the raw report and save it. *)
Definition generate_and_save (a : args) : IO pystr :=
  lift (print_stderr (str "Generating raw P4 report...")) ;;;
  raw_report <- lift (generate_raw_report (report_world mw) (user a) (workspace a)
                        (server a) (start_date a) (end_date a) (depot a)) ;;
  (if given (raw_output a)
   then
     write_file (default [] (raw_output a)) raw_report ;;;
     lift (print_stderr (str "Raw report saved to: " ++ default [] (raw_output a)))
   else io_ret tt) ;;;
  io_ret raw_report.

(** Lines 249-272. *)
Definition raw_report_stage (a : args) : IO pystr :=
  fs <- get_files ;;
  if given (raw_output a) && raw_reuse a && isfile fs (default [] (raw_output a))
  then load_raw_report (default [] (raw_output a))
  else generate_and_save a.

(** Lines 274-301: the AI report, when a prompt file and an output are set. *)
Definition ai_report_stage (a : args) (raw_report : pystr) : IO unit :=
  if given (prompt_file a) && given (ai_output a)
  then
    fs <- get_files ;;
    custom_prompt <-
      match read_text fs (default [] (prompt_file a)) with
      | inl custom_prompt => io_ret custom_prompt
      | inr e =>
          lift (print_stderr (str "Error reading custom prompt file: " ++ exn_str e)) ;;;
          io_exit 1%Z
      end ;;
    if truthy custom_prompt
    then
      lift (print_stderr (str "Generating AI report using " ++ ollama_model a ++ str "...")) ;;;
      summary <- lift (generate_ai_report (report_world mw) raw_report (ollama_url a)
                         (ollama_model a) custom_prompt) ;;
      (if negb (pyval_truthy summary)
       then
         lift (print_stderr (str "Warning: Could not generate AI report")) ;;;
         io_exit 1%Z
       else io_ret tt) ;;;
      write_value (default [] (ai_output a)) summary ;;;
      lift (print_stderr (str "AI report saved to: " ++ default [] (ai_output a)))
    else io_ret tt
  else io_ret tt.

(** Lines 240-301: [main] once [parser.parse_args()] (line 238) has returned
    the arguments.  The ways out of [argparse] itself, [sys.exit(2)] on a
    usage error and [sys.exit(0)] on [--help], come before and are not part of
    this definition. *)
Definition main (a : args) : IO unit :=
  sanitize_inputs a ;;;
  raw_report <- raw_report_stage a ;;
  ai_report_stage a raw_report.
End Main.

(** The events of [main]: [p4] with the user, workspace and server of the
    command line, requests to the generate endpoint of the given Ollama URL
    for the given model, and lines on standard error. *)
Definition main_event (a : args) (ev : event) : Prop :=
  match ev with
  | Run cmd => exists command, cmd = p4 (user a) (workspace a) (server a) command
  | Stderr _ => True
  | Post url body =>
      url = ollama_url a ++ str "/api/generate" /\ req_model body = ollama_model a
  end.

(** From state [s], [m] only appends to the trace: events that satisfy [P],
    at most [runs] child processes and at most [posts] requests. *)
Definition io_appends {A} (P : event -> Prop) (runs posts : nat) (m : IO A)
    (s : io_state) : Prop :=
  exists new,
    trace (snd (m s)) = trace s ++ new /\ Forall P new
    /\ (length (List.filter is_run new) <= runs)%nat
    /\ (length (List.filter is_post new) <= posts)%nat.

(** [m] leaves the program with no other status than 1. *)
Definition exits_with_one {A} (m : M A) : Prop :=
  forall t code, fst (m t) = Exit code -> code = 1%Z.

Definition io_exits_with_one {A} (m : IO A) : Prop :=
  forall s code, fst (m s) = Exit code -> code = 1%Z.

(** The file system stores [text]: a successful write of it makes the path
    a regular file that reads back as [text].  This is asked of the
    environment, not shown of it: reading decodes UTF-8 and turns every
    carriage return into a line feed, so it holds for the texts UTF-8 encodes
    that hold no carriage return. *)
Definition stores_text (mw : main_world) (text : pystr) : Prop :=
  forall fs path fs',
    write_text mw fs path text = (fs', None) ->
    isfile fs' path = true /\ read_text fs' path = inl text.

Definition stores (mw : main_world) : Prop := forall text, stores_text mw text.

(** The files after a sequence of writes, each a path and a text. *)
Definition apply_writes (mw : main_world) (writes : list (pystr * pystr))
    (fs : file_system) : file_system :=
  fold_left (fun fs write => fst (write_text mw fs (fst write) (snd write))) writes fs.

(** From state [s], all that [m] does to the files is write, to paths taken
    from [paths] in their order. *)
Definition io_writes {A} (mw : main_world) (paths : list pystr) (m : IO A)
    (s : io_state) : Prop :=
  exists writes,
    files (snd (m s)) = apply_writes mw writes (files s)
    /\ sublist (fst <$> writes) paths.

(** ** Sample runs *)

(** Files in memory, addressed by the text of their path. *)
Definition no_files : file_system :=
  mk_file_system (fun _ => false)
    (fun _ => inr (mk_exn OtherException (str "[Errno 2] No such file or directory"))).

Definition memory_write (fs : file_system) (path text : pystr) : file_system * option exn :=
  (mk_file_system
     (fun p => if decide (p = path) then true else isfile fs p)
     (fun p => if decide (p = path) then inl text else read_text fs p),
   None).

(** Worlds for [main]: dates are accepted when they have ten characters. *)
Definition ten_characters (s : pystr) : bool := (length s =? 10)%nat.

Definition listing_main_world : main_world :=
  mk_main_world listing_world ten_characters memory_write.

(** A world whose endpoint answers with status 200 and a JSON list. *)
Definition json_list_world : world :=
  mk_world
    (fun _ _ => inl (mk_completed_process 0 [] []))
    (fun _ _ => [])
    (fun _ _ _ => inl (mk_response 200 [] (inl (DOther (VOther (str "[]"))))))
    (fun _ => str "2024-02-01 09:00:00")
    (fun _ => str "0.001").

Definition json_list_main_world : main_world :=
  mk_main_world json_list_world ten_characters memory_write.

Definition failing_main_world : main_world :=
  mk_main_world failing_world ten_characters memory_write.


Definition sample_args : args :=
  mk_args (str "alice") (str "ws") (str "perforce:1666") (str "2024-01-01")
    (Some (str "2024-01-31")) (Some [str "//depot/main/..."])
    (Some (str "raw.txt")) None (str "http://localhost:11434") (str "qwen2.5:14b")
    None false.

(** The same command line with [--raw-reuse], with a start date that is not
    accepted, and with a prompt file and an AI output. *)
Definition reuse_args : args :=
  mk_args (str "alice") (str "ws") (str "perforce:1666") (str "2024-01-01")
    (Some (str "2024-01-31")) (Some [str "//depot/main/..."])
    (Some (str "raw.txt")) None (str "http://localhost:11434") (str "qwen2.5:14b")
    None true.

Definition bad_date_args : args :=
  mk_args (str "alice") (str "ws") (str "perforce:1666") (str "January 1st")
    None None (Some (str "raw.txt")) None (str "http://localhost:11434")
    (str "qwen2.5:14b") None false.

Definition summary_args : args :=
  mk_args (str "alice") (str "ws") (str "perforce:1666") (str "2024-01-01")
    (Some (str "2024-01-31")) (Some [str "//depot/main/..."])
    (Some (str "raw.txt")) (Some (str "ai.txt")) (str "http://localhost:11434")
    (str "qwen2.5:14b") (Some (str "prompt.txt")) false.

(** The start of a run, with no file, with an old raw report, and with a
    prompt file. *)
Definition empty_start : io_state := mk_io_state [] no_files.

Definition start_with_raw_report : io_state :=
  mk_io_state [] (fst (memory_write no_files (str "raw.txt") (str "old report"))).

Definition start_with_prompt : io_state :=
  mk_io_state [] (fst (memory_write no_files (str "prompt.txt") (str "Summarize."))).

(** * Properties *)

(** ** Strings *)

Example split_header :
  split (str "Change 101 on 2024/01/05 by alice@ws")
  = [str "Change"; str "101"; str "on"; str "2024/01/05"; str "by"; str "alice@ws"].
Proof. reflexivity. Qed.

Example test_dashed : Calendar.dashed (Calendar.mk_ymd 2024 1 5) = str "2024-01-05".
Proof. reflexivity. Qed.

Example str_of_nat_samples :
  str_of_nat 0 = str "0" /\ str_of_nat 7 = str "7" /\ str_of_nat 120 = str "120".
Proof. repeat split. Qed.

Example strip_sample : strip (str "  //depot/a/... //ws/a/...  ") = str "//depot/a/... //ws/a/...".
Proof. reflexivity. Qed.

Example split_on_sample :
  split_on LF (str ("a" ++ nl ++ nl ++ "b" ++ nl)%string) = [str "a"; []; str "b"; []].
Proof. reflexivity. Qed.

Example str_le_samples :
  str_le (str "2024/01/05") (str "2024/01/20") = true
  /\ str_le (str "2024/01/20") (str "2024/01/05") = false
  /\ str_le (str "2024/01") (str "2024/01/05") = true.
Proof. repeat split. Qed.

Lemma split_on_nonempty sep s : split_on sep s <> [].
Proof.
  destruct s as [|c s]; simpl; [easy|].
  destruct (c =? sep); [easy|]. now destruct (split_on sep s).
Qed.

(** Splitting at a separator splits the text before it and the text after it. *)
Lemma split_on_app sep a b :
  split_on sep (a ++ sep :: b) = split_on sep a ++ split_on sep b.
Proof.
  induction a as [|c a IH]; simpl.
  - now rewrite N.eqb_refl.
  - destruct (c =? sep); [now rewrite IH|].
    rewrite IH. destruct (split_on sep a) eqn:E; [|reflexivity].
    now apply split_on_nonempty in E.
Qed.

Lemma split_on_single sep s : sep ∉ s -> split_on sep s = [s].
Proof.
  induction s as [|c s IH]; intros H; simpl; [reflexivity|].
  destruct (N.eqb_spec c sep) as [->|Hne].
  - exfalso. apply H. left.
  - rewrite IH; [reflexivity|]. intros Hin. apply H. now right.
Qed.

Lemma header_not_tab line : is_header line = true -> startswith [TAB] line = false.
Proof.
  destruct line as [|c line]; [reflexivity|].
  destruct (N.eq_dec c TAB) as [->|Hne]; [discriminate|].
  intros _. cbn [startswith]. apply andb_false_intro1. apply N.eqb_neq. congruence.
Qed.

Lemma well_formed_is_header line : well_formed_header line = true -> is_header line = true.
Proof. unfold well_formed_header. now intros [H _]%andb_true_iff. Qed.

(** ** Change-list parser *)

Section ParserFacts.
Variable start_date_str : pystr.
Variable end_date_str : option pystr.

#[local] Abbreviation inrange := (in_range start_date_str end_date_str).
#[local] Abbreviation save := (save_current start_date_str end_date_str).
#[local] Abbreviation step := (parse_line start_date_str end_date_str).
#[local] Abbreviation run := (parse_lines start_date_str end_date_str).

Lemma save_current_store st : store (save st) = store st.
Proof.
  unfold save_current. destruct (current_change st); [|reflexivity].
  destruct (store st !! n); [|reflexivity]. now destruct (in_range _ _ _).
Qed.

Lemma save_current_current st : current_change (save st) = current_change st.
Proof.
  unfold save_current. destruct (current_change st) eqn:E; [|now rewrite E].
  destruct (store st !! n); [|now rewrite E]. now destruct (in_range _ _ _).
Qed.

Lemma save_current_is_last st : current_is_last st -> current_is_last (save st).
Proof. unfold current_is_last. now rewrite save_current_store, save_current_current. Qed.

(** What a line does, case by case. *)
Lemma parse_line_well_formed st line :
  well_formed_header line = true ->
  step st line =
  mk_parse_state
    (store st ++ [mk_change (nth 1 (split line) []) (nth 3 (split line) []) line []])
    (changes (save st)) (Some (length (store st))).
Proof.
  unfold well_formed_header, is_header, parse_line.
  intros [-> ->]%andb_true_iff. now rewrite save_current_store.
Qed.

Lemma parse_line_malformed st line :
  is_header line = true -> well_formed_header line = false ->
  step st line = save st.
Proof.
  unfold well_formed_header, is_header, parse_line. intros ->. simpl. now intros ->.
Qed.

Lemma parse_line_description st line r :
  startswith [TAB] line = true -> current_change st = Some r ->
  step st line =
  mk_parse_state (alter (append_description line) r (store st)) (changes st) (Some r).
Proof.
  intros Htab Hcur. unfold parse_line.
  destruct (startswith (str "Change ") line) eqn:Hh.
  - apply header_not_tab in Hh. congruence.
  - now rewrite Hcur, Htab.
Qed.

Lemma parse_line_ignored st line :
  is_header line = false ->
  (startswith [TAB] line = false \/ current_change st = None) ->
  step st line = st.
Proof.
  unfold is_header, parse_line. intros ->. intros [H|H].
  - rewrite H. now destruct (current_change st).
  - now rewrite H.
Qed.
End ParserFacts.

Lemma append_descriptions_nil c : append_descriptions [] c = c.
Proof. destruct c. unfold append_descriptions. simpl. now rewrite app_nil_r. Qed.

Lemma extend_last_nil_r s : extend_last [] s = s.
Proof. apply list_alter_id, append_descriptions_nil. Qed.

Lemma extend_last_snoc ds s c :
  extend_last ds (s ++ [c]) = s ++ [append_descriptions ds c].
Proof.
  unfold extend_last. rewrite length_app. simpl.
  replace (length s + 1 - 1)%nat with (length s + 0)%nat by lia.
  now rewrite alter_app_r.
Qed.

Lemma extend_last_alter line ds s :
  extend_last ds (alter (append_description line) (length s - 1)%nat s)
  = extend_last (line :: ds) s.
Proof.
  unfold extend_last. rewrite length_alter, list_alter_alter_eq.
  apply list_alter_ext; [|reflexivity]. intros c _.
  unfold append_descriptions, append_description. simpl. now rewrite <- app_assoc.
Qed.

Lemma date_at_app_l s c r : (r < length s)%nat -> date_at (s ++ [c]) r = date_at s r.
Proof. intros H. unfold date_at. now rewrite lookup_total_app_l. Qed.

Lemma date_at_alter line i s r : date_at (alter (append_description line) i s) r = date_at s r.
Proof.
  unfold date_at. rewrite list_lookup_total_alter.
  case_decide as H; [|reflexivity]. now destruct H as [-> _].
Qed.

Section ParserRun.
Variable start_date_str : pystr.
Variable end_date_str : option pystr.

#[local] Abbreviation step := (parse_line start_date_str end_date_str).
#[local] Abbreviation save := (save_current start_date_str end_date_str).

Lemma current_is_last_cases st :
  current_is_last st ->
  (store st = [] /\ current_change st = None) \/
  (store st <> [] /\ current_change st = Some (length (store st) - 1)%nat).
Proof.
  unfold current_is_last. destruct (store st) eqn:E; intros ->; [now left|right].
  split; [easy|reflexivity].
Qed.

(** The store after the loop: the records of the specification, the
    dictionary in progress at the start having received the description lines
    that precede the first new header. *)
Lemma store_fold_left lines : forall st,
  current_is_last st ->
  store (fold_left step lines st)
  = extend_last (description_lines lines) (store st) ++ spec_records lines
  /\ current_is_last (fold_left step lines st).
Proof.
  induction lines as [|line lines IH]; intros st Hlast;
    cbn [fold_left description_lines spec_records].
  - now rewrite extend_last_nil_r, app_nil_r.
  - destruct (well_formed_header line) eqn:Hwf.
    + rewrite (parse_line_well_formed _ _ _ _ Hwf).
      destruct (IH (mk_parse_state
        (store st ++ [mk_change (nth 1 (split line) []) (nth 3 (split line) []) line []])
        (changes (save st)) (Some (length (store st))))) as [-> IH2].
      { unfold current_is_last. simpl. destruct (store st); simpl; [reflexivity|].
        rewrite length_app. simpl. f_equal. lia. }
      split; [|exact IH2]. simpl.
      rewrite extend_last_snoc, extend_last_nil_r, <- app_assoc. reflexivity.
    + destruct (is_header line) eqn:Hh.
      * rewrite (parse_line_malformed _ _ _ _ Hh Hwf).
        destruct (IH (save st)) as [-> IH2]; [now apply save_current_is_last|].
        split; [|exact IH2]. rewrite save_current_store.
        now rewrite (header_not_tab _ Hh).
      * destruct (startswith [TAB] line) eqn:Htab.
        -- destruct (current_is_last_cases _ Hlast) as [[Hs Hc]|[Hs Hc]].
           ++ rewrite parse_line_ignored by auto.
              destruct (IH st Hlast) as [-> IH2]. split; [|exact IH2].
              rewrite Hs. reflexivity.
           ++ rewrite (parse_line_description _ _ _ _ _ Htab Hc).
              destruct (IH (mk_parse_state
                (alter (append_description line) (length (store st) - 1)%nat (store st))
                (changes st) (Some (length (store st) - 1)%nat))) as [-> IH2].
              { unfold current_is_last. simpl. rewrite length_alter.
                destruct (store st) as [|c s] eqn:E; [easy|].
                destruct (alter _ _ (c :: s)) eqn:E2; [|reflexivity].
                apply (f_equal length) in E2. rewrite length_alter in E2. discriminate. }
              split; [|exact IH2]. simpl. now rewrite extend_last_alter.
        -- rewrite parse_line_ignored by auto.
           destruct (IH st Hlast) as [-> IH2]. split; [|exact IH2]. reflexivity.
Qed.

Lemma step_is_last st line : current_is_last st -> current_is_last (step st line).
Proof. intros H. exact (proj2 (store_fold_left [line] st H)). Qed.

Lemma save_current_last st c :
  current_is_last st -> store st <> [] ->
  store st !! (length (store st) - 1)%nat = Some c ->
  save st =
  if selected start_date_str end_date_str (store st) (length (store st) - 1)
  then mk_parse_state (store st) (changes st ++ [(length (store st) - 1)%nat])
         (current_change st)
  else st.
Proof.
  intros Hlast Hne Hc. destruct (current_is_last_cases _ Hlast) as [[Hs _]|[_ Hcur]]; [easy|].
  unfold save_current, selected, date_at. rewrite Hcur, Hc.
  now rewrite (list_lookup_total_correct _ _ _ Hc).
Qed.

Lemma save_current_empty st : current_is_last st -> store st = [] -> save st = st.
Proof.
  intros Hlast Hs. destruct (current_is_last_cases _ Hlast) as [[_ Hc]|[Hne _]]; [|easy].
  unfold save_current. now rewrite Hc.
Qed.

Lemma last_lookup_is_Some (s : list change) :
  s <> [] -> exists c, s !! (length s - 1)%nat = Some c.
Proof.
  intros Hne. apply lookup_lt_is_Some_2. destruct s; [easy|simpl; lia].
Qed.

(** Closing the change in progress makes [changes] exact for the whole store. *)
Lemma save_current_exact st :
  current_is_last st -> changes_exact start_date_str end_date_str st ->
  changes (save st)
  = List.filter (selected start_date_str end_date_str (store st)) (seq 0 (length (store st))).
Proof.
  intros Hlast Hex. unfold changes_exact in Hex.
  destruct (store st) as [|c0 s0] eqn:Hs.
  - rewrite save_current_empty by assumption. rewrite Hex. reflexivity.
  - destruct (last_lookup_is_Some (store st)) as [c Hc]; [now rewrite Hs|].
    rewrite (save_current_last st c Hlast); [|now rewrite Hs|exact Hc].
    rewrite Hs in *. cbn [length] in *.
    replace (S (length s0) - 1)%nat with (length s0) in * by lia.
    rewrite seq_S, List.filter_app. cbn [List.filter Nat.add].
    destruct (selected _ _ _ _); simpl; rewrite Hex; [reflexivity|now rewrite app_nil_r].
Qed.

Lemma step_exact st line :
  (is_header line = true -> well_formed_header line = true) ->
  current_is_last st -> changes_exact start_date_str end_date_str st ->
  changes_exact start_date_str end_date_str (step st line).
Proof.
  intros Hline Hlast Hex. destruct (is_header line) eqn:Hh.
  - rewrite (parse_line_well_formed _ _ _ _ (Hline eq_refl)).
    unfold changes_exact. cbn [changes store]. rewrite save_current_exact by assumption.
    rewrite length_app. cbn [length].
    replace (length (store st) + 1 - 1)%nat with (length (store st)) by lia.
    apply List.filter_ext_in. intros r [_ Hr]%in_seq. unfold selected.
    now rewrite date_at_app_l by (simpl in Hr; lia).
  - destruct (startswith [TAB] line) eqn:Htab.
    + destruct (current_is_last_cases _ Hlast) as [[_ Hc]|[_ Hc]].
      * now rewrite parse_line_ignored by auto.
      * rewrite (parse_line_description _ _ _ _ _ Htab Hc).
        unfold changes_exact. cbn [changes store]. rewrite length_alter, Hex.
        apply List.filter_ext. intros r. unfold selected. now rewrite date_at_alter.
    + now rewrite parse_line_ignored by auto.
Qed.

Lemma fold_left_exact lines : forall st,
  Forall (fun line => is_header line = true -> well_formed_header line = true) lines ->
  current_is_last st -> changes_exact start_date_str end_date_str st ->
  changes_exact start_date_str end_date_str (fold_left step lines st).
Proof.
  induction lines as [|line lines IH]; intros st Hall Hlast Hex; [exact Hex|].
  inversion Hall as [|? ? Hline Hrest]; subst. cbn [fold_left].
  apply IH; [exact Hrest|now apply step_is_last|now apply step_exact].
Qed.
End ParserRun.

(** Reading the selected references of a list gives its selected elements. *)
Lemma lookup_filter_seq (Q : change -> bool) (s : list change) :
  (fun r => s !!! r) <$> List.filter (fun r => Q (s !!! r)) (seq 0 (length s))
  = List.filter Q s.
Proof.
  induction s as [|x s IH] using rev_ind; [reflexivity|].
  rewrite length_app. cbn [length]. rewrite Nat.add_1_r, seq_S, !List.filter_app, fmap_app.
  cbn [Nat.add List.filter]. f_equal.
  - rewrite <- IH.
    rewrite (List.filter_ext_in (fun r => Q ((s ++ [x]) !!! r)) (fun r => Q (s !!! r))).
    + apply list_fmap_ext. intros i r Hr.
      apply list_elem_of_lookup_2, list_elem_of_In, List.filter_In in Hr.
      destruct Hr as [[_ Hr]%in_seq _]. apply lookup_total_app_l. simpl in Hr. lia.
    + intros r [_ Hr]%in_seq. rewrite lookup_total_app_l; [reflexivity|simpl in Hr; lia].
  - rewrite (list_lookup_total_middle s [] x (length s) eq_refl).
    destruct (Q x); [|reflexivity]. cbn [fmap list_fmap].
    now rewrite (list_lookup_total_middle s [] x (length s) eq_refl).
Qed.

Lemma spec_records_headers lines :
  header <$> spec_records lines = List.filter well_formed_header lines.
Proof.
  induction lines as [|line lines IH]; [reflexivity|]. cbn [spec_records List.filter].
  destruct (well_formed_header line); [|exact IH]. cbn. now rewrite IH.
Qed.

(** Where a record of the specification comes from. *)
Lemma spec_records_elem c lines :
  c ∈ spec_records lines ->
  exists pre rest,
    lines = pre ++ header c :: rest /\ well_formed_header (header c) = true /\
    number c = nth 1 (split (header c)) [] /\ date c = nth 3 (split (header c)) [] /\
    description c = description_lines rest.
Proof.
  induction lines as [|line lines IH]; cbn [spec_records]; [now intros ?%elem_of_nil|].
  destruct (well_formed_header line) eqn:Hwf.
  - intros [->|Hin]%elem_of_cons.
    + exists [], lines. now cbn.
    + destruct (IH Hin) as (pre & rest & -> & H). exists (line :: pre), rest. now cbn.
  - intros Hin. destruct (IH Hin) as (pre & rest & -> & H).
    exists (line :: pre), rest. now cbn.
Qed.

Lemma spec_records_header_elem line lines :
  line ∈ lines -> well_formed_header line = true ->
  exists c, c ∈ spec_records lines /\ header c = line /\
            number c = nth 1 (split line) [] /\ date c = nth 3 (split line) [].
Proof.
  induction lines as [|l lines IH]; [now intros ?%elem_of_nil|].
  intros [->|Hin]%elem_of_cons Hwf; cbn [spec_records].
  - rewrite Hwf. eexists. split; [left|]. now cbn.
  - destruct (IH Hin Hwf) as (c & Hc & H). exists c. split; [|exact H].
    destruct (well_formed_header l); [now right|exact Hc].
Qed.

Lemma normalize_end_truthy end_date e : normalize_end end_date = Some e -> truthy e = true.
Proof.
  destruct end_date as [e0|]; [|discriminate]. cbn.
  destruct e0; cbn; [discriminate|]. now intros [= <-].
Qed.

(** The loop's inclusion test is the specification's [covers]. *)
Lemma in_range_covers start_date end_date d :
  in_range (normalize_date start_date) (normalize_end end_date) d = true
  <-> covers start_date end_date d.
Proof.
  unfold in_range, covers. destruct (normalize_end end_date) as [e|] eqn:E.
  - rewrite (normalize_end_truthy _ _ E). apply andb_true_iff.
  - split; [now split|now intros [H _]].
Qed.

(** On a listing without malformed header, the parser returns the records of
    the specification whose date is in the range, in input order. *)
Lemma parse_lines_well_formed start_date_str end_date_str lines :
  Forall (fun line => is_header line = true -> well_formed_header line = true) lines ->
  returned (parse_lines start_date_str end_date_str lines initial_parse_state)
  = List.filter (fun c => in_range start_date_str end_date_str (date c)) (spec_records lines).
Proof.
  intros Hall. unfold parse_lines, returned.
  destruct (store_fold_left start_date_str end_date_str lines initial_parse_state eq_refl)
    as [Hstore Hlast].
  rewrite save_current_store, save_current_exact;
    [|exact Hlast|now apply fold_left_exact].
  rewrite Hstore. change (store initial_parse_state) with (@nil change).
  change (extend_last (description_lines lines) []) with (@nil change).
  rewrite app_nil_l.
  exact (lookup_filter_seq (fun c => in_range start_date_str end_date_str (date c)) _).
Qed.

Lemma filter_all_true {A} (f : A -> bool) (l : list A) :
  (forall x, x ∈ l -> f x = true) -> List.filter f l = l.
Proof.
  induction l as [|x l IH]; intros H; [reflexivity|]. cbn.
  rewrite (H x) by left. f_equal. apply IH. intros y Hy. apply H. now right.
Qed.

(** What the parser does guarantee about the count: on a listing whose
    "Change" lines are all well formed, with a range that covers the date of
    each, it returns one record per header, in input order, each as the
    specification describes it. *)
Theorem parse_returns_all_in_order output start_date end_date :
  let lines := split_on LF output in
  (forall line, line ∈ lines -> is_header line = true -> well_formed_header line = true) ->
  (forall line, line ∈ lines -> well_formed_header line = true ->
     covers start_date end_date (nth 3 (split line) [])) ->
  let records := parse_pending_changes output start_date end_date in
  length records = length (List.filter well_formed_header lines) /\
  header <$> records = List.filter well_formed_header lines /\
  records = spec_records lines.
Proof.
  intros lines Hwf Hcov records.
  assert (Hrec : records = spec_records lines).
  { unfold records, parse_pending_changes. fold lines.
    rewrite parse_lines_well_formed by (apply Forall_forall; exact Hwf).
    apply filter_all_true. intros c Hc. apply in_range_covers.
    destruct (spec_records_elem _ _ Hc) as (pre & rest & Hl & Hw & _ & -> & _).
    apply Hcov; [|exact Hw]. rewrite Hl. apply elem_of_app. right. left. }
  rewrite Hrec, <- spec_records_headers. now rewrite length_fmap.
Qed.

Section ParserMembership.
Variable start_date_str : pystr.
Variable end_date_str : option pystr.

#[local] Abbreviation step := (parse_line start_date_str end_date_str).
#[local] Abbreviation save := (save_current start_date_str end_date_str).
#[local] Abbreviation sel := (selected start_date_str end_date_str).
#[local] Abbreviation sound := (changes_sound start_date_str end_date_str).
#[local] Abbreviation complete := (changes_complete start_date_str end_date_str).

(** The four things a line can do to the state. *)
Lemma parse_line_cases st line :
  current_is_last st ->
  (well_formed_header line = true /\
   step st line = mk_parse_state
     (store st ++ [mk_change (nth 1 (split line) []) (nth 3 (split line) []) line []])
     (changes (save st)) (Some (length (store st)))) \/
  (is_header line = true /\ well_formed_header line = false /\ step st line = save st) \/
  (startswith [TAB] line = true /\ store st <> [] /\
   step st line = mk_parse_state
     (alter (append_description line) (length (store st) - 1)%nat (store st))
     (changes st) (Some (length (store st) - 1)%nat)) \/
  step st line = st.
Proof.
  intros Hlast. destruct (well_formed_header line) eqn:Hwf.
  { left. split; [reflexivity|]. now apply parse_line_well_formed. }
  destruct (is_header line) eqn:Hh.
  { right. left. repeat split. now apply parse_line_malformed. }
  destruct (startswith [TAB] line) eqn:Htab.
  - destruct (current_is_last_cases _ Hlast) as [[_ Hc]|[Hs Hc]].
    + do 3 right. apply parse_line_ignored; auto.
    + right. right. left. repeat split; [exact Hs|]. now apply parse_line_description.
  - do 3 right. apply parse_line_ignored; auto.
Qed.

Lemma save_current_changes st :
  current_is_last st ->
  changes (save st) = changes st \/
  (store st <> [] /\ sel (store st) (length (store st) - 1) = true /\
   changes (save st) = changes st ++ [(length (store st) - 1)%nat]).
Proof.
  intros Hlast. destruct (store st) as [|c0 s0] eqn:Hs.
  - left. now rewrite save_current_empty.
  - destruct (last_lookup_is_Some (store st)) as [c Hc]; [now rewrite Hs|].
    rewrite (save_current_last _ _ st c Hlast); [|now rewrite Hs|exact Hc].
    rewrite <- Hs. destruct (sel (store st) _) eqn:E; [right|now left].
    split; [now rewrite Hs|]. split; reflexivity.
Qed.

Lemma save_current_sound st : current_is_last st -> sound st -> sound (save st).
Proof.
  intros Hlast Hso r. rewrite save_current_store.
  destruct (save_current_changes st Hlast) as [->|(Hne & Hsel & ->)]; [apply Hso|].
  intros [Hr| ->%list_elem_of_singleton]%elem_of_app; [now apply Hso|].
  split; [|exact Hsel]. destruct (store st); [easy|simpl; lia].
Qed.

Lemma save_current_mono st r : current_is_last st -> r ∈ changes st -> r ∈ changes (save st).
Proof.
  intros Hlast Hr. destruct (save_current_changes st Hlast) as [->|(_ & _ & ->)];
    [exact Hr|]. apply elem_of_app. now left.
Qed.

(** After closing the change in progress every selected dictionary is in
    [changes]. *)
Lemma save_current_complete st r :
  current_is_last st -> complete st ->
  (r < length (store st))%nat -> sel (store st) r = true -> r ∈ changes (save st).
Proof.
  intros Hlast Hco Hr Hsel.
  destruct (decide (S r < length (store st))%nat) as [Hlt|Hge].
  - apply save_current_mono; [exact Hlast|]. now apply Hco.
  - assert (r = (length (store st) - 1)%nat) as -> by lia.
    destruct (save_current_changes st Hlast) as [Hch|(_ & _ & ->)].
    + exfalso. destruct (store st) as [|c0 s0] eqn:Hs; [simpl in Hr; lia|].
      destruct (last_lookup_is_Some (store st)) as [c Hc]; [now rewrite Hs|].
      revert Hch. rewrite (save_current_last _ _ st c Hlast); [|now rewrite Hs|exact Hc].
      rewrite Hs, Hsel. cbn [changes]. intros Hch.
      apply (f_equal length) in Hch. rewrite length_app in Hch. simpl in Hch. lia.
    + apply elem_of_app. right. left.
Qed.

Lemma step_sound st line : current_is_last st -> sound st -> sound (step st line).
Proof.
  intros Hlast Hso.
  destruct (parse_line_cases st line Hlast) as
    [[_ ->]|[(_ & _ & ->)|[(_ & _ & ->)| ->]]]; [| |
    |exact Hso].
  - intros r Hr. cbn [changes store] in *.
    destruct (save_current_sound st Hlast Hso r Hr) as [Hlt Hsel].
    rewrite save_current_store in Hlt, Hsel. rewrite length_app. split; [lia|].
    unfold selected. now rewrite date_at_app_l.
  - now apply save_current_sound.
  - intros r Hr. cbn [changes store] in *. rewrite length_alter.
    unfold selected. rewrite date_at_alter. now apply Hso.
Qed.

Lemma step_complete st line : current_is_last st -> complete st -> complete (step st line).
Proof.
  intros Hlast Hco.
  destruct (parse_line_cases st line Hlast) as
    [[_ ->]|[(_ & _ & ->)|[(_ & _ & ->)| ->]]]; [| | |exact Hco].
  - intros r. cbn [changes store]. rewrite length_app. cbn [length]. intros Hr.
    unfold selected. rewrite date_at_app_l by lia.
    apply save_current_complete; [exact Hlast|exact Hco|lia].
  - intros r. rewrite save_current_store. intros Hr Hsel.
    apply save_current_mono; [exact Hlast|]. now apply Hco.
  - intros r. cbn [changes store]. rewrite length_alter.
    unfold selected. rewrite date_at_alter. apply Hco.
Qed.

Lemma fold_left_sound_complete lines : forall st,
  current_is_last st -> sound st -> complete st ->
  sound (fold_left step lines st) /\ complete (fold_left step lines st).
Proof.
  induction lines as [|line lines IH]; intros st Hlast Hso Hco; [now split|].
  cbn [fold_left].
  apply IH; [now apply step_is_last|now apply step_sound|now apply step_complete].
Qed.

(** On any listing, malformed headers included: the parser returns the
    records of the specification whose date is in the range, and no other. *)
Lemma parse_lines_elem lines c :
  c ∈ returned (parse_lines start_date_str end_date_str lines initial_parse_state)
  <-> c ∈ spec_records lines /\ in_range start_date_str end_date_str (date c) = true.
Proof.
  unfold parse_lines, returned.
  destruct (store_fold_left start_date_str end_date_str lines initial_parse_state eq_refl)
    as [Hstore Hlast].
  change (extend_last (description_lines lines) (store initial_parse_state)) with (@nil change)
    in Hstore. rewrite app_nil_l in Hstore.
  destruct (fold_left_sound_complete lines initial_parse_state eq_refl) as [Hso Hco].
  { now intros r ?%elem_of_nil. }
  { intros r Hr. simpl in Hr. lia. }
  set (st := fold_left step lines initial_parse_state) in *.
  rewrite save_current_store. split.
  - intros (r & -> & Hr)%list_elem_of_fmap.
    destruct (save_current_sound st Hlast Hso r Hr) as [Hlt Hsel].
    rewrite save_current_store in Hlt, Hsel. rewrite <- Hstore. split; [|exact Hsel].
    apply list_elem_of_lookup. exists r.
    apply list_lookup_lookup_total, lookup_lt_is_Some_2, Hlt.
  - rewrite <- Hstore. intros [(r & Hr)%list_elem_of_lookup Hin].
    apply list_elem_of_fmap. exists r.
    pose proof (list_lookup_total_correct _ _ _ Hr) as Hr'. split; [now rewrite Hr'|].
    apply save_current_complete; [exact Hlast|exact Hco|now apply lookup_lt_Some in Hr|].
    unfold selected, date_at. now rewrite Hr'.
Qed.
End ParserMembership.

Example sample_listing_january :
  parse_pending_changes sample_listing (str "2024-01-01") (Some (str "2024-01-31"))
  = [change_101; change_102].
Proof. vm_compute. reflexivity. Qed.

Example sample_listing_first_ten_days :
  parse_pending_changes sample_listing (str "2024-01-01") (Some (str "2024-01-10"))
  = [change_101].
Proof. vm_compute. reflexivity. Qed.

(** A malformed header closes the change in progress and leaves it in
    progress: it is closed again at the next header or at the end. *)
Lemma malformed_header_saves_again start_date_str end_date_str st line :
  current_is_last st -> store st <> [] ->
  selected start_date_str end_date_str (store st) (length (store st) - 1) = true ->
  is_header line = true -> well_formed_header line = false ->
  changes (parse_lines start_date_str end_date_str [line] st)
  = changes st ++ [(length (store st) - 1)%nat; (length (store st) - 1)%nat].
Proof.
  intros Hlast Hne Hsel Hh Hwf. unfold parse_lines. cbn [fold_left].
  rewrite (parse_line_malformed _ _ _ _ Hh Hwf).
  destruct (last_lookup_is_Some _ Hne) as [c Hc].
  rewrite (save_current_last start_date_str end_date_str st c Hlast Hne Hc), Hsel.
  set (st1 := mk_parse_state _ _ _).
  rewrite (save_current_last start_date_str end_date_str st1 c); try assumption.
  subst st1. cbn [store current_change changes]. rewrite Hsel. cbn [changes].
  now rewrite <- app_assoc.
Qed.

(** C1, on the code: the listing of the specification with a two-token
    "Change" line between its two changes.  Without that line the parser
    returns changes 101 and 102; with it, change 101 comes twice. *)
Theorem malformed_header_repeats_previous_record :
  parse_pending_changes listing_with_malformed_header (str "2024-01-01")
    (Some (str "2024-01-31"))
  = [change_101; change_101; change_102]
  /\ parse_pending_changes sample_listing (str "2024-01-01") (Some (str "2024-01-31"))
     = [change_101; change_102].
Proof. split; vm_compute; reflexivity. Qed.




(** ** Dates as text *)

Lemma str_le_cons x a y b :
  str_le (x :: a) (y :: b) = true <-> x < y \/ (x = y /\ str_le a b = true).
Proof.
  cbn [str_le]. destruct (N.ltb_spec x y) as [Hxy|Hxy].
  - split; [now left|reflexivity].
  - destruct (N.ltb_spec y x) as [Hyx|Hyx].
    + split; [discriminate|]. intros [H|[H _]]; lia.
    + split; [intros H; right; split; [lia|exact H]|]. intros [H|[_ H]]; [lia|exact H].
Qed.

Lemma four_digits y : y < 10000 ->
  y = 1000 * ((y / 1000) mod 10) + 100 * ((y / 100) mod 10) + 10 * ((y / 10) mod 10) + y mod 10.
Proof.
  intros Hy.
  assert (H1 : y / 100 = y / 10 / 10) by (now rewrite N.Div0.div_div).
  assert (H2 : y / 1000 = y / 100 / 10) by (now rewrite N.Div0.div_div).
  pose proof (N.div_mod y 10) as E0.
  pose proof (N.div_mod (y / 10) 10) as E1.
  pose proof (N.div_mod (y / 100) 10) as E2.
  pose proof (N.div_mod (y / 1000) 10) as E3.
  rewrite <- H1 in E1. rewrite <- H2 in E2.
  assert (y / 1000 / 10 = 0) by (rewrite N.Div0.div_div; now apply N.div_small).
  lia.
Qed.

Lemma two_digits m : m < 100 -> m = 10 * ((m / 10) mod 10) + m mod 10.
Proof.
  intros Hm. pose proof (N.div_mod m 10). pose proof (N.div_mod (m / 10) 10).
  assert (m / 10 / 10 = 0) by (rewrite N.Div0.div_div; now apply N.div_small).
  lia.
Qed.

Lemma days_in_month_bound y m : Calendar.days_in_month y m <= 31.
Proof.
  unfold Calendar.days_in_month.
  destruct (m =? 2); [destruct (Calendar.is_leap y); lia|].
  destruct (_ || _); lia.
Qed.

Lemma valid_bounds d :
  Calendar.valid d ->
  Calendar.year d < 10000 /\ Calendar.month d < 100 /\ Calendar.day d < 100.
Proof.
  intros (Hy & Hm & Hd). pose proof (days_in_month_bound (Calendar.year d) (Calendar.month d)).
  lia.
Qed.

(** On valid dates the order of the texts is the order of the days, which is
    why the parser may compare strings. *)
Lemma str_le_slashed a b :
  Calendar.valid a -> Calendar.valid b ->
  str_le (Calendar.slashed a) (Calendar.slashed b) = true <-> Calendar.le a b.
Proof.
  intros Ha Hb.
  destruct (valid_bounds a Ha) as (Hya & Hma & Hda).
  destruct (valid_bounds b Hb) as (Hyb & Hmb & Hdb).
  pose proof (four_digits _ Hya) as Eya. pose proof (four_digits _ Hyb) as Eyb.
  pose proof (two_digits _ Hma) as Ema. pose proof (two_digits _ Hmb) as Emb.
  pose proof (two_digits _ Hda) as Eda. pose proof (two_digits _ Hdb) as Edb.
  unfold Calendar.slashed, Calendar.text, Calendar.le, Calendar.digit. cbn [app].
  rewrite !str_le_cons. cbn [str_le].
  destruct a as [ya ma da], b as [yb mb db]. cbn [Calendar.year Calendar.month Calendar.day] in *.
  repeat match goal with
         | |- context [?n mod 10] =>
             let v := fresh "v" in
             pose proof (N.mod_upper_bound n 10 ltac:(easy));
             set (v := n mod 10) in *; clearbody v
         end.
  lia.
Qed.

Lemma digit_not_dash n : (Calendar.digit n =? 45) = false.
Proof. apply N.eqb_neq. unfold Calendar.digit. generalize (n mod 10). lia. Qed.

Lemma normalize_dashed d : normalize_date (Calendar.dashed d) = Calendar.slashed d.
Proof.
  unfold normalize_date, replace, Calendar.dashed, Calendar.slashed, Calendar.text.
  cbn [app List.map]. now rewrite !digit_not_dash.
Qed.

Lemma next_day_later d : ~ Calendar.le (Calendar.next_day d) d.
Proof.
  unfold Calendar.next_day, Calendar.le.
  destruct (_ <? _); [|destruct (_ <? _)]; cbn; lia.
Qed.

Lemma calendar_le_refl d : Calendar.le d d.
Proof. unfold Calendar.le. lia. Qed.

Lemma normalize_end_dashed end_day :
  normalize_end (Calendar.dashed <$> end_day) = Calendar.slashed <$> end_day.
Proof.
  destruct end_day as [e|]; [|reflexivity].
  change (normalize_end (Calendar.dashed <$> Some e))
    with (Some (normalize_date (Calendar.dashed e))).
  now rewrite normalize_dashed.
Qed.

(** The range given by two calendar days covers exactly the days between
    them, both included. *)
Lemma covers_calendar start_day end_day d :
  Calendar.valid start_day -> Calendar.valid d ->
  (forall e, end_day = Some e -> Calendar.valid e) ->
  covers (Calendar.dashed start_day) (Calendar.dashed <$> end_day) (Calendar.slashed d)
  <-> Calendar.le start_day d /\
      match end_day with Some e => Calendar.le d e | None => True end.
Proof.
  intros Hs Hd He. unfold covers. rewrite normalize_dashed, normalize_end_dashed.
  rewrite (str_le_slashed _ _ Hs Hd). destruct end_day as [e|]; [|reflexivity].
  cbn. now rewrite (str_le_slashed _ _ Hd (He e eq_refl)).
Qed.

(** C4: a listing with a well-formed header dated [d], and a range from
    [start_day] to [end_day] (or open-ended), all valid calendar days.  When
    [d] is the first or the last day of the range the record of that header is
    returned; when [d] is the day before the first or the day after the last,
    no returned record has that date. *)
Theorem date_filter_includes_boundaries output start_day end_day d line :
  Calendar.valid start_day -> Calendar.valid d ->
  (forall e, end_day = Some e -> Calendar.valid e /\ Calendar.le start_day e) ->
  line ∈ split_on LF output -> well_formed_header line = true ->
  nth 3 (split line) [] = Calendar.slashed d ->
  let records :=
    parse_pending_changes output (Calendar.dashed start_day) (Calendar.dashed <$> end_day) in
  ((d = start_day \/ end_day = Some d) ->
     exists c, c ∈ records /\ header c = line /\ date c = Calendar.slashed d)
  /\ ((Calendar.next_day d = start_day \/
       exists e, end_day = Some e /\ d = Calendar.next_day e) ->
      forall c, c ∈ records -> date c <> Calendar.slashed d).
Proof.
  intros Hs Hd He Hline Hwf Hdate records.
  assert (Hcov : forall x, Calendar.valid x ->
            in_range (normalize_date (Calendar.dashed start_day))
              (normalize_end (Calendar.dashed <$> end_day)) (Calendar.slashed x) = true
            <-> Calendar.le start_day x /\
                match end_day with Some e => Calendar.le x e | None => True end).
  { intros x Hx. rewrite in_range_covers. apply covers_calendar; [exact Hs|exact Hx|].
    intros e Hee. now apply He. }
  split.
  - intros Hbound.
    destruct (spec_records_header_elem _ _ Hline Hwf) as (c & Hc & Hh & _ & Hcd).
    exists c. rewrite Hcd, Hdate. split; [|now split].
    apply parse_lines_elem. split; [exact Hc|]. rewrite Hcd, Hdate.
    apply (Hcov d Hd). destruct Hbound as [Hb | Hb]; subst.
    + split; [apply calendar_le_refl|]. destruct end_day as [e|]; [|exact I].
      now apply He.
    + split; [now apply He|apply calendar_le_refl].
  - intros Hout c Hc Hcd. apply parse_lines_elem in Hc as [_ Hc].
    rewrite Hcd in Hc. apply (Hcov d Hd) in Hc as [H1 H2].
    destruct Hout as [Hout|(e & Hout & Hde)].
    + rewrite <- Hout in H1. now apply next_day_later in H1.
    + rewrite Hout, Hde in H2. now apply next_day_later in H2.
Qed.

(** The listing of the specification, from 5 to 20 January 2024: the change of
    the first day is returned. *)
Lemma date_filter_includes_boundaries_witness :
  exists c,
    c ∈ parse_pending_changes sample_listing
          (Calendar.dashed (Calendar.mk_ymd 2024 1 5))
          (Calendar.dashed <$> Some (Calendar.mk_ymd 2024 1 20))
    /\ header c = str "Change 101 on 2024/01/05 by alice@ws"
    /\ date c = Calendar.slashed (Calendar.mk_ymd 2024 1 5).
Proof.
  refine (proj1 (date_filter_includes_boundaries sample_listing
            (Calendar.mk_ymd 2024 1 5) (Some (Calendar.mk_ymd 2024 1 20))
            (Calendar.mk_ymd 2024 1 5) (str "Change 101 on 2024/01/05 by alice@ws")
            _ _ _ _ _ _) _).
  - unfold Calendar.valid. vm_compute. repeat split; discriminate.
  - unfold Calendar.valid. vm_compute. repeat split; discriminate.
  - intros e [= <-]. split.
    + unfold Calendar.valid. vm_compute. repeat split; discriminate.
    + unfold Calendar.le. cbn. lia.
  - vm_compute. left.
  - reflexivity.
  - reflexivity.
  - now left.
Defined.

(** The listing of the specification over January 2024: two headers, two
    records. *)
Lemma parse_returns_all_in_order_witness :
  length (parse_pending_changes sample_listing (str "2024-01-01") (Some (str "2024-01-31")))
  = length (List.filter well_formed_header (split_on LF sample_listing)).
Proof.
  refine (proj1 (parse_returns_all_in_order sample_listing (str "2024-01-01")
                   (Some (str "2024-01-31")) _ _)).
  - each_line ltac:(vm_compute; intros H; first [reflexivity|discriminate H]).
  - each_line ltac:(intros H; first [vm_compute; split; reflexivity
                                    |vm_compute in H; discriminate H]).
Defined.

(** C3: the claim fails on the code.  The listing with the two-token header
    between the two changes has two well-formed headers, the range covers the
    date of both, and the parser returns three records, the first one twice.
    It is the defect of C1 seen through the count. *)
Theorem malformed_header_breaks_record_count :
  let lines := split_on LF listing_with_malformed_header in
  let records :=
    parse_pending_changes listing_with_malformed_header (str "2024-01-01")
      (Some (str "2024-01-31")) in
  List.filter well_formed_header lines
  = [str "Change 101 on 2024/01/05 by alice@ws"; str "Change 102 on 2024/01/20 by alice@ws"]
  /\ Forall (fun line => covers (str "2024-01-01") (Some (str "2024-01-31"))
                           (nth 3 (split line) []))
       (List.filter well_formed_header lines)
  /\ length records = 3%nat
  /\ header <$> records
     = [str "Change 101 on 2024/01/05 by alice@ws"; str "Change 101 on 2024/01/05 by alice@ws";
        str "Change 102 on 2024/01/20 by alice@ws"].
Proof.
  cbv zeta. split; [reflexivity|]. split.
  - change (List.filter well_formed_header (split_on LF listing_with_malformed_header))
      with [str "Change 101 on 2024/01/05 by alice@ws";
            str "Change 102 on 2024/01/20 by alice@ws"].
    repeat constructor.
  - split; reflexivity.
Qed.

(** ** Workspace path resolver *)

Lemma lstrip_nil s : lstrip s = [] -> forall c, c ∈ s -> isspace c = true.
Proof.
  induction s as [|x s IH]; cbn [lstrip]; [now intros _ c ?%elem_of_nil|].
  destruct (isspace x) eqn:Hx; [|discriminate].
  intros H c [->|Hc]%elem_of_cons; [exact Hx|now apply IH].
Qed.

Lemma lstrip_head s : lstrip s = [] \/ exists c s', lstrip s = c :: s' /\ isspace c = false.
Proof.
  induction s as [|x s IH]; cbn [lstrip]; [now left|].
  destruct (isspace x) eqn:Hx; [exact IH|]. right. now exists x, s.
Qed.

(** A blank line holds nothing but whitespace. *)
Lemma blank_all_space line : blank line -> forall c, c ∈ line -> isspace c = true.
Proof.
  unfold blank, strip, rstrip. intros H.
  assert (Hl : lstrip (rev (lstrip line)) = []).
  { apply (f_equal (@rev _)) in H. now rewrite rev_involutive in H. }
  pose proof (lstrip_nil _ Hl) as Hsp.
  destruct (lstrip_head line) as [Hnil|(c & s' & Hc & Hns)].
  - now apply lstrip_nil.
  - rewrite Hc in Hsp. rewrite (Hsp c) in Hns; [discriminate|].
    apply list_elem_of_In, in_rev. rewrite rev_involutive. apply list_elem_of_In. left.
Qed.

Lemma blank_not_view line : blank line -> startswith (str "View:") line = false.
Proof.
  intros Hb. destruct line as [|c line]; [reflexivity|].
  pose proof (blank_all_space _ Hb c ltac:(left)) as Hc.
  cbn [startswith str List.map list_ascii_of_string]. apply andb_false_intro1.
  apply N.eqb_neq. intros <-. discriminate Hc.
Qed.

(** A blank line changes nothing, in the view or before it. *)
Lemma scan_view_blank line before : forall after in_view_section depot_paths,
  blank line ->
  scan_view (before ++ line :: after) in_view_section depot_paths
  = scan_view (before ++ after) in_view_section depot_paths.
Proof.
  induction before as [|l before IH]; intros after v acc Hb.
  - cbn [app scan_view]. rewrite (blank_not_view _ Hb). unfold blank in Hb. rewrite Hb.
    now destruct v.
  - cbn [app scan_view].
    destruct (startswith (str "View:") l); [now apply IH|].
    destruct v; [|now apply IH].
    destruct (negb (truthy (strip l))); [now apply IH|].
    destruct (startswith (str "//") (strip l)); [|reflexivity].
    destruct (split (strip l)) as [|depot_path parts]; [now apply IH|].
    destruct (negb _); now apply IH.
Qed.

(** C10: a blank line anywhere in the workspace definition, the view
    included, does not change the depot paths the resolver collects: the
    mappings after it are read as if the line were not there. *)
Theorem blank_line_in_view_is_skipped before line after :
  blank line -> LF ∉ line ->
  depot_paths_of_output (before ++ LF :: line ++ LF :: after)
  = depot_paths_of_output (before ++ LF :: after).
Proof.
  intros Hb Hlf. unfold depot_paths_of_output.
  rewrite !split_on_app, (split_on_single _ _ Hlf). cbn [app].
  now apply scan_view_blank.
Qed.

(** A view with a line of two spaces between its two mappings: both depot
    paths are returned. *)
Lemma blank_line_in_view_is_skipped_witness :
  depot_paths_of_output
    (str ("View:" ++ nl ++ tab ++ "//depot/a/... //ws/a/...")%string
     ++ LF :: str "  " ++ LF :: str (tab ++ "//depot/b/... //ws/b/...")%string)
  = [str "//depot/a/..."; str "//depot/b/..."].
Proof.
  rewrite blank_line_in_view_is_skipped.
  - vm_compute. reflexivity.
  - reflexivity.
  - vm_compute. intros H. repeat (apply elem_of_cons in H as [H|H]; [discriminate H|]).
    now apply elem_of_nil in H.
Defined.

(** In the view, a line whose text starts with [-] ends the scan: the test of
    line 46 sends it to the [break] of line 55, and the exclusion test of
    line 52 is never reached with such a token. *)
Lemma exclusion_line_ends_view line rest depot_paths :
  startswith (str "View:") line = false ->
  startswith (str "-") (strip line) = true ->
  scan_view (line :: rest) true depot_paths = depot_paths.
Proof.
  intros Hv Hx. cbn [scan_view]. rewrite Hv.
  destruct (strip line) as [|c s]; [discriminate|]. cbn [truthy negb].
  cbn in Hx. apply andb_true_iff in Hx as [Hc _]. apply N.eqb_eq in Hc. subst c.
  reflexivity.
Qed.

(** C2, on the code: a view with one mapping and one exclusion mapping.  With
    the exclusion last the resolver returns the mapping's depot path; with the
    exclusion first it stops there and returns nothing. *)
Theorem exclusion_mapping_stops_view :
  depot_paths_of_output workspace_exclusion_last = [str "//depot/main/..."]
  /\ depot_paths_of_output workspace_exclusion_first = [].
Proof. split; vm_compute; reflexivity. Qed.

(** ** Command runner *)

Lemma run_p4_command_zero w p4_user p4_workspace p4_server command t p :
  subprocess_run w t (p4 p4_user p4_workspace p4_server command) = inl p ->
  returncode p = 0%Z ->
  run_p4_command w p4_user p4_workspace p4_server command t
  = (Return (stdout p), t ++ [Run (p4 p4_user p4_workspace p4_server command)]).
Proof.
  intros Hrun Hrc. unfold run_p4_command, bind, run_checked. fold (p4 p4_user p4_workspace p4_server command).
  rewrite Hrun, Hrc. reflexivity.
Qed.

Lemma run_p4_command_nonzero w p4_user p4_workspace p4_server command t p :
  subprocess_run w t (p4 p4_user p4_workspace p4_server command) = inl p ->
  returncode p <> 0%Z ->
  run_p4_command w p4_user p4_workspace p4_server command t
  = (Exit 1,
     t ++ [Run (p4 p4_user p4_workspace p4_server command);
           Stderr (str "Error running p4 command: "
                   ++ called_process_error_str w (p4 p4_user p4_workspace p4_server command)
                        (returncode p));
           Stderr (str "Output: " ++ stderr p)]).
Proof.
  intros Hrun Hrc. unfold run_p4_command, bind, run_checked. fold (p4 p4_user p4_workspace p4_server command).
  rewrite Hrun. apply Z.eqb_neq in Hrc. rewrite Hrc.
  unfold print_stderr, sys_exit. now rewrite <- !app_assoc.
Qed.

(** C7: the child process of a [p4] call has run to completion with result
    [p].  With return code zero the call returns the captured standard output;
    with any other return code it prints two lines on standard error, the
    second with the child's standard error, and exits the program with status
    1.  Either way the command is run once. *)
Theorem run_p4_command_returns_or_exits w p4_user p4_workspace p4_server command t p :
  let cmd := p4 p4_user p4_workspace p4_server command in
  let result := run_p4_command w p4_user p4_workspace p4_server command t in
  subprocess_run w t cmd = inl p ->
  (returncode p = 0%Z -> result = (Return (stdout p), t ++ [Run cmd]))
  /\ (returncode p <> 0%Z ->
      result = (Exit 1,
                t ++ [Run cmd;
                      Stderr (str "Error running p4 command: "
                              ++ called_process_error_str w cmd (returncode p));
                      Stderr (str "Output: " ++ stderr p)]))
  /\ (forall out, fst result = Return out <-> returncode p = 0%Z /\ out = stdout p).
Proof.
  intros cmd result Hrun. split; [|split].
  - intros Hrc. now apply run_p4_command_zero.
  - intros Hrc. now apply run_p4_command_nonzero.
  - intros out. destruct (Z.eq_dec (returncode p) 0%Z) as [Hrc|Hrc].
    + unfold result. rewrite (run_p4_command_zero _ _ _ _ _ _ _ Hrun Hrc). cbn.
      split; [intros [= ->]; now split|intros [_ ->]; reflexivity].
    + unfold result. rewrite (run_p4_command_nonzero _ _ _ _ _ _ _ Hrun Hrc). cbn.
      split; [discriminate|now intros [? _]].
Qed.

(** A child that exits with status 2: the program exits with status 1 after
    the two diagnostics. *)
Lemma run_p4_command_returns_or_exits_witness :
  run_p4_command failing_world (str "alice") (str "ws") (str "perforce:1666")
    [str "changes"] []
  = (Exit 1,
     [Run (p4 (str "alice") (str "ws") (str "perforce:1666") [str "changes"]);
      Stderr (str "Error running p4 command: Command returned non-zero exit status 2.");
      Stderr (str "Output: Perforce password (P4PASSWD) invalid or unset.")]).
Proof.
  refine (proj1 (proj2 (run_p4_command_returns_or_exits failing_world (str "alice")
            (str "ws") (str "perforce:1666") [str "changes"] [] _ eq_refl)) _).
  discriminate.
Defined.

(** ** Report assembler *)

Lemma pending_section_cases pending_changes :
  pending_section pending_changes =
  match pending_changes with
  | [] => str "No pending changes found for this period." ++ [LF]
  | _ :: _ =>
      concat ((fun c => [LF] ++ lines_text (header c :: description c)) <$> pending_changes)
  end.
Proof.
  unfold pending_section. destruct pending_changes as [|c cs]; [reflexivity|].
  cbn [truthy]. f_equal. apply list_fmap_ext. intros _ x _.
  unfold write_change, lines_text. cbn [fmap list_fmap concat]. now rewrite <- !app_assoc.
Qed.

Lemma submitted_section_cases submitted_output_full :
  submitted_section submitted_output_full =
  match strip submitted_output_full with
  | [] => str "No submitted changes found for this period." ++ [LF]
  | _ :: _ => submitted_output_full ++ [LF]
  end.
Proof. unfold submitted_section. now destruct (strip submitted_output_full). Qed.

(** When every child process exits with status zero, the three change
    queries run and the report is the metadata block, then the pending
    section, then the submitted section. *)
Lemma generate_raw_report_body_returns w p4_user p4_workspace p4_server start_date
    end_date depot_paths t :
  (forall t' cmd, exists p, subprocess_run w t' cmd = inl p /\ returncode p = 0%Z) ->
  exists path_filter t1 t2 pending_output submitted_output_full report_date submitted_count t',
    prints w t1
      (p4 p4_user p4_workspace p4_server
         ([str "changes"; str "-l"; str "-u"; p4_user; str "-s"; str "pending"]
          ++ path_filter)) pending_output
    /\ prints w t2
         (p4 p4_user p4_workspace p4_server
            ([str "changes"; str "-l"; str "-u"; p4_user; str "-s"; str "submitted"]
             ++ submitted_args path_filter (normalize_date start_date)
                  (match normalize_end end_date with Some e => e | None => str "now" end)))
         submitted_output_full
    /\ generate_raw_report_body w p4_user p4_workspace p4_server start_date end_date
         depot_paths t
       = (Return (report_metadata p4_user p4_workspace p4_server start_date end_date
                    report_date
                    (length (parse_pending_changes pending_output start_date end_date))
                    submitted_count
                  ++ pending_section (parse_pending_changes pending_output start_date end_date)
                  ++ submitted_section submitted_output_full), t').
Proof.
  intros Hok.
  assert (Hrun : forall command t0, exists out,
            prints w t0 (p4 p4_user p4_workspace p4_server command) out /\
            run_p4_command w p4_user p4_workspace p4_server command t0
            = (Return out, t0 ++ [Run (p4 p4_user p4_workspace p4_server command)])).
  { intros command t0. destruct (Hok t0 (p4 p4_user p4_workspace p4_server command))
      as (p & Hp & Hrc).
    exists (stdout p). split; [now exists p|]. now apply run_p4_command_zero. }
  assert (Hend : match end_date with
                 | Some e => if truthy e then replace 45 47 e else str "now"
                 | None => str "now"
                 end
                 = match normalize_end end_date with Some e => e | None => str "now" end).
  { destruct end_date as [e|]; [|reflexivity]. cbn. now destruct (truthy e). }
  assert (Hfilter : exists dp t0,
            (if truthy (default [] depot_paths) then ret depot_paths
             else
               depot_paths <- get_workspace_depot_paths w p4_user p4_workspace p4_server ;;
               if truthy depot_paths then ret (Some depot_paths)
               else
                 print_stderr (str "Warning: Could not determine depot paths from workspace, using all depots") ;;;
                 ret None) t = (Return dp, t0)).
  { destruct (truthy (default [] depot_paths)) eqn:Hd.
    - now exists depot_paths, t.
    - unfold get_workspace_depot_paths, bind.
      destruct (Hrun [str "client"; str "-o"; p4_workspace] t) as (out & _ & ->).
      unfold ret. destruct (truthy (depot_paths_of_output out)); eexists _, _; reflexivity. }
  destruct Hfilter as (dp & t0 & Hfilter).
  destruct (Hrun ([str "changes"; str "-l"; str "-u"; p4_user; str "-s"; str "pending"]
                  ++ default [] dp) t0) as (pending_output & Hp1 & Hr1).
  set (t1 := t0 ++ [Run _]) in Hr1.
  destruct (Hrun ([str "changes"; str "-u"; p4_user; str "-s"; str "submitted"]
                  ++ submitted_args (default [] dp) (normalize_date start_date)
                       (match normalize_end end_date with Some e => e | None => str "now" end))
              t1) as (submitted_output & _ & Hr2).
  set (t2 := t1 ++ [Run _]) in Hr2.
  destruct (Hrun ([str "changes"; str "-l"; str "-u"; p4_user; str "-s"; str "submitted"]
                  ++ submitted_args (default [] dp) (normalize_date start_date)
                       (match normalize_end end_date with Some e => e | None => str "now" end))
              t2) as (submitted_output_full & Hp3 & Hr3).
  exists (default [] dp), t0, t2, pending_output, submitted_output_full.
  eexists _, _, _. split; [exact Hp1|]. split; [exact Hp3|].
  unfold generate_raw_report_body. rewrite Hend.
  unfold bind at 1. rewrite Hfilter.
  fold (normalize_date start_date). unfold bind at 1. rewrite Hr1. fold t1.
  unfold bind at 1. rewrite Hr2. fold t2.
  unfold bind at 1. unfold get_trace. unfold bind. rewrite Hr3.
  unfold ret. rewrite <- app_assoc. reflexivity.
Qed.

(** C9: every child process exits with status zero.  Then the report is
    returned, and after its metadata block it holds the pending section, which
    is the notice when the parser returned no record and otherwise, for each
    returned record, an empty line, the header line and the description lines;
    then the submitted section, which is the notice when the output of the
    long-format query is blank and otherwise that output followed by a line
    feed. *)
Theorem report_sections_follow_queries w p4_user p4_workspace p4_server start_date
    end_date depot_paths t :
  (forall t' cmd, exists p, subprocess_run w t' cmd = inl p /\ returncode p = 0%Z) ->
  exists path_filter t1 t2 pending_output submitted_output_full report_date submitted_count t',
    prints w t1
      (p4 p4_user p4_workspace p4_server
         ([str "changes"; str "-l"; str "-u"; p4_user; str "-s"; str "pending"]
          ++ path_filter)) pending_output
    /\ prints w t2
         (p4 p4_user p4_workspace p4_server
            ([str "changes"; str "-l"; str "-u"; p4_user; str "-s"; str "submitted"]
             ++ submitted_args path_filter (normalize_date start_date)
                  (match normalize_end end_date with Some e => e | None => str "now" end)))
         submitted_output_full
    /\ let pending_changes := parse_pending_changes pending_output start_date end_date in
       generate_raw_report w p4_user p4_workspace p4_server start_date end_date depot_paths t
       = (Return
            (report_metadata p4_user p4_workspace p4_server start_date end_date report_date
               (length pending_changes) submitted_count
             ++ match pending_changes with
                | [] => str "No pending changes found for this period." ++ [LF]
                | _ :: _ =>
                    concat ((fun c => [LF] ++ lines_text (header c :: description c))
                              <$> pending_changes)
                end
             ++ match strip submitted_output_full with
                | [] => str "No submitted changes found for this period." ++ [LF]
                | _ :: _ => submitted_output_full ++ [LF]
                end), t').
Proof.
  intros Hok.
  destruct (generate_raw_report_body_returns w p4_user p4_workspace p4_server start_date
              end_date depot_paths t Hok)
    as (path_filter & t1 & t2 & pending_output & full & report_date & n & t' & H1 & H2 & H3).
  exists path_filter, t1, t2, pending_output, full, report_date, n.
  eexists. split; [exact H1|]. split; [exact H2|]. cbv zeta.
  unfold generate_raw_report, timed, bind. rewrite H3.
  rewrite pending_section_cases, submitted_section_cases. reflexivity.
Qed.

(** With the sample listing as the output of every query, the report holds
    both changes and the listing. *)
Lemma report_sections_follow_queries_witness :
  exists metadata t',
    generate_raw_report listing_world (str "alice") (str "ws") (str "perforce:1666")
      (str "2024-01-01") (Some (str "2024-01-31")) (Some [str "//depot/main/..."]) []
    = (Return (metadata
               ++ ([LF] ++ lines_text (header change_101 :: description change_101))
               ++ ([LF] ++ lines_text (header change_102 :: description change_102))
               ++ sample_listing ++ [LF]), t').
Proof.
  destruct (report_sections_follow_queries listing_world (str "alice") (str "ws")
              (str "perforce:1666") (str "2024-01-01") (Some (str "2024-01-31"))
              (Some [str "//depot/main/..."]) [])
    as (path_filter & t1 & t2 & pending_output & full & report_date & n & t' & H1 & H2 & H3).
  - intros t0 cmd. eexists. split; reflexivity.
  - destruct H1 as (p1 & [= <-] & _ & <-). destruct H2 as (p2 & [= <-] & _ & <-).
    cbn [stdout] in H3. cbv zeta in H3. rewrite H3. clear H3.
    rewrite sample_listing_january.
    eexists _, _.
    refine (f_equal2 pair (f_equal Return (f_equal (app _) _)) eq_refl).
    vm_compute. reflexivity.
Defined.

(** ** Summary requester *)

Section SummaryRequester.
Variable w : world.
Variables report_text ollama_url model custom_prompt : pystr.
Variable t : list event.

#[local] Abbreviation url := (ollama_url ++ str "/api/generate").
#[local] Abbreviation request :=
  (mk_generate_request model (make_prompt custom_prompt report_text)
     (context_size (make_prompt custom_prompt report_text))).
#[local] Abbreviation posted := (t ++ [Post url request]).
#[local] Abbreviation body :=
  (generate_ai_report_body w report_text ollama_url model custom_prompt).

(** The two lines of lines 216-217. *)
Lemma ai_report_handler e t0 :
  (print_stderr (str "Error connecting to Ollama: " ++ exn_str e) ;;;
   print_stderr (str "Make sure Ollama is running at " ++ ollama_url) ;;;
   ret VNone) t0
  = (Return VNone,
     t0 ++ [Stderr (str "Error connecting to Ollama: " ++ exn_str e);
            Stderr (str "Make sure Ollama is running at " ++ ollama_url)]).
Proof. unfold bind, print_stderr, ret. now rewrite <- app_assoc. Qed.

Lemma ai_report_post_fails e :
  requests_post w t url request = inr e ->
  body t =
  if is_RequestException (exn_class_of e)
  then (Return VNone,
        posted ++ [Stderr (str "Error connecting to Ollama: " ++ exn_str e);
                   Stderr (str "Make sure Ollama is running at " ++ ollama_url)])
  else (Raise e, posted).
Proof.
  intros Hpost. unfold generate_ai_report_body, try_except, bind at 1, post.
  rewrite Hpost. destruct (is_RequestException _); [apply ai_report_handler|reflexivity].
Qed.

Lemma ai_report_http_error r :
  requests_post w t url request = inl r ->
  (400 <= status_code r < 600)%Z ->
  body t =
  (Return VNone,
   posted ++ [Stderr (str "Error connecting to Ollama: " ++ http_error_msg r);
              Stderr (str "Make sure Ollama is running at " ++ ollama_url)]).
Proof.
  intros Hpost [Hlo Hhi]. unfold generate_ai_report_body, try_except, bind at 1, post.
  rewrite Hpost. unfold bind at 1, raise_for_status.
  apply Z.leb_le in Hlo. apply Z.ltb_lt in Hhi. rewrite Hlo, Hhi. cbn [andb raise].
  cbn [exn_class_of is_RequestException]. apply ai_report_handler.
Qed.

Lemma ai_report_decoded r result :
  requests_post w t url request = inl r ->
  ~ (400 <= status_code r < 600)%Z ->
  json_result r = inl result ->
  body t =
  match result with
  | DDict items =>
      (Return (dict_get items (str "response") (VStr (str "No AI report generated"))), posted)
  | DOther _ => (Raise (mk_exn AttributeError (str "object has no attribute 'get'")), posted)
  end.
Proof.
  intros Hpost Hst Hjson. unfold generate_ai_report_body, try_except, bind at 1, post.
  rewrite Hpost. unfold bind at 1, raise_for_status.
  destruct ((400 <=? status_code r)%Z && (status_code r <? 600)%Z) eqn:E.
  { exfalso. apply Hst. apply andb_true_iff in E as [?%Z.leb_le ?%Z.ltb_lt]. lia. }
  unfold ret at 1, bind, response_json. rewrite Hjson. unfold ret at 1.
  now destruct result.
Qed.

Lemma dict_get_absent items key default :
  (forall v, (key, v) ∉ items) -> dict_get items key default = default.
Proof.
  induction items as [|[k v] items IH]; intros H; [reflexivity|]. cbn [dict_get].
  destruct (decide (k = key)) as [->|_].
  - exfalso. apply (H v). left.
  - apply IH. intros v' Hv'. apply (H v'). now right.
Qed.

(** The requester never calls [sys.exit]. *)
Lemma ai_report_body_never_exits code : fst (body t) <> Exit code.
Proof.
  destruct (requests_post w t url request) as [r|e] eqn:Hpost.
  - destruct (decide (400 <= status_code r < 600)%Z) as [Hst|Hst].
    + now rewrite (ai_report_http_error r Hpost Hst).
    + destruct (json_result r) as [result|e] eqn:Hjson.
      * rewrite (ai_report_decoded r result Hpost Hst Hjson). now destruct result.
      * unfold generate_ai_report_body, try_except, bind at 1, post. rewrite Hpost.
        unfold bind at 1, raise_for_status.
        destruct ((400 <=? status_code r)%Z && (status_code r <? 600)%Z) eqn:E.
        { exfalso. apply Hst. apply andb_true_iff in E as [?%Z.leb_le ?%Z.ltb_lt]. lia. }
        unfold ret at 1, bind at 1, response_json. rewrite Hjson. unfold raise.
        destruct (is_RequestException _); [now rewrite ai_report_handler|easy].
  - rewrite (ai_report_post_fails e Hpost). now destruct (is_RequestException _).
Qed.
End SummaryRequester.

Lemma timed_fst {A} w name (fn : M A) t : fst (timed w name fn t) = fst (fn t).
Proof. unfold timed, bind, get_trace, print_stderr, ret. now destruct (fn t) as [[a| |] t']. Qed.

(** The decorator hands the result on and prints its line only when the
    function returns. *)
Lemma timed_cases {A} w name (fn : M A) t :
  timed w name fn t
  = match fn t with
    | (Return a, t') =>
        (Return a, t' ++ [Stderr (name ++ str " took " ++ perf_elapsed w t' ++ str "s")])
    | (Exit code, t') => (Exit code, t')
    | (Raise e, t') => (Raise e, t')
    end.
Proof. unfold timed, bind. now destruct (fn t) as [[a|code|e] t']. Qed.

(** C6 as amended: on a network or HTTP failure the requester does not
    terminate the process.  When the request raises an exception of the HTTP
    library (connection refused, timeout, ...) or the response has a status
    from 400 to 599, it prints its two lines on standard error and returns
    [None] to the caller.  When the response has another status and its JSON
    is an object without the key [response], it returns the text "No AI report
    generated", a success, and prints no diagnostic.  In each of these cases
    the decorated function returns, its timing line last; and on no path at
    all does it call [sys.exit]. *)
Theorem summary_requester_outcomes w report_text ollama_url model custom_prompt t :
  let url := ollama_url ++ str "/api/generate" in
  let request :=
    mk_generate_request model (make_prompt custom_prompt report_text)
      (context_size (make_prompt custom_prompt report_text)) in
  let body := generate_ai_report_body w report_text ollama_url model custom_prompt t in
  let result := generate_ai_report w report_text ollama_url model custom_prompt t in
  let diagnostics text :=
    [Stderr (str "Error connecting to Ollama: " ++ text);
     Stderr (str "Make sure Ollama is running at " ++ ollama_url)] in
  let timing t' :=
    [Stderr (str "generate_ai_report took " ++ perf_elapsed w t' ++ str "s")] in
  (forall code, fst result <> Exit code)
  /\ fst result = fst body
  /\ (forall e, requests_post w t url request = inr e ->
        is_RequestException (exn_class_of e) = true ->
        body = (Return VNone, t ++ [Post url request] ++ diagnostics (exn_str e))
        /\ result
           = (Return VNone,
              (t ++ [Post url request] ++ diagnostics (exn_str e))
              ++ timing (t ++ [Post url request] ++ diagnostics (exn_str e))))
  /\ (forall r, requests_post w t url request = inl r ->
        (400 <= status_code r < 600)%Z ->
        body = (Return VNone, t ++ [Post url request] ++ diagnostics (http_error_msg r))
        /\ result
           = (Return VNone,
              (t ++ [Post url request] ++ diagnostics (http_error_msg r))
              ++ timing (t ++ [Post url request] ++ diagnostics (http_error_msg r))))
  /\ (forall r items, requests_post w t url request = inl r ->
        ~ (400 <= status_code r < 600)%Z ->
        json_result r = inl (DDict items) ->
        (forall v, (str "response", v) ∉ items) ->
        body = (Return (VStr (str "No AI report generated")), t ++ [Post url request])
        /\ result
           = (Return (VStr (str "No AI report generated")),
              (t ++ [Post url request]) ++ timing (t ++ [Post url request]))).
Proof.
  intros url request body result diagnostics timing.
  assert (Hfst : fst result = fst body) by apply timed_fst.
  assert (Hret : forall v t', body = (Return v, t') -> result = (Return v, t' ++ timing t')).
  { intros v t' Hbody. unfold result, generate_ai_report. rewrite timed_cases.
    fold body. now rewrite Hbody. }
  split; [|split; [exact Hfst|split; [|split]]].
  - intros code. rewrite Hfst. apply ai_report_body_never_exits.
  - intros e Hpost Hreq.
    assert (Hbody : body = (Return VNone, t ++ [Post url request] ++ diagnostics (exn_str e))).
    { unfold body. rewrite (ai_report_post_fails _ _ _ _ _ _ e Hpost), Hreq.
      now rewrite <- app_assoc. }
    split; [exact Hbody|now apply Hret].
  - intros r Hpost Hst.
    assert (Hbody : body
                    = (Return VNone, t ++ [Post url request] ++ diagnostics (http_error_msg r))).
    { unfold body. rewrite (ai_report_http_error _ _ _ _ _ _ r Hpost Hst).
      now rewrite <- app_assoc. }
    split; [exact Hbody|now apply Hret].
  - intros r items Hpost Hst Hjson Habs.
    assert (Hbody : body
                    = (Return (VStr (str "No AI report generated")), t ++ [Post url request])).
    { unfold body. rewrite (ai_report_decoded _ _ _ _ _ _ r _ Hpost Hst Hjson).
      now rewrite dict_get_absent. }
    split; [exact Hbody|now apply Hret].
Qed.

Example refused_connection_returns_none :
  generate_ai_report failing_world (str "report") (str "http://localhost:11434")
    (str "qwen2.5:14b") (str "Summarize.") []
  = (Return VNone,
     [Post (str "http://localhost:11434/api/generate")
        (mk_generate_request (str "qwen2.5:14b")
           (str ("Summarize." ++ nl ++ nl ++ "report")%string) 16);
      Stderr (str "Error connecting to Ollama: Connection refused");
      Stderr (str "Make sure Ollama is running at http://localhost:11434");
      Stderr (str "generate_ai_report took 0.001s")]).
Proof. vm_compute. reflexivity. Qed.

Example missing_field_gives_placeholder :
  fst (generate_ai_report empty_json_world (str "report") (str "http://localhost:11434")
         (str "qwen2.5:14b") (str "Summarize.") [])
  = Return (VStr (str "No AI report generated")).
Proof. vm_compute. reflexivity. Qed.

(** C6 as stated fails, twice.  A response with status 300, which is not a
    2xx status, whose JSON holds a generated text is returned as a success.
    And a response with status 200 whose JSON is a list, which holds no
    generated-text field, is not answered with the placeholder: the call of
    [get] raises [AttributeError], which the handler of the HTTP library's
    exceptions does not catch and [main] does not catch either, so the
    process ends on it. *)
Lemma summary_requester_claim_fails :
  ~ (forall w report_text ollama_url model custom_prompt t r,
       requests_post w t (ollama_url ++ str "/api/generate")
         (mk_generate_request model (make_prompt custom_prompt report_text)
            (context_size (make_prompt custom_prompt report_text))) = inl r ->
       ~ (200 <= status_code r < 300)%Z ->
       fst (generate_ai_report w report_text ollama_url model custom_prompt t)
       = Return VNone)
  /\ ~ (forall w report_text ollama_url model custom_prompt t r decoded,
          requests_post w t (ollama_url ++ str "/api/generate")
            (mk_generate_request model (make_prompt custom_prompt report_text)
               (context_size (make_prompt custom_prompt report_text))) = inl r ->
          (200 <= status_code r < 300)%Z ->
          json_result r = inl decoded ->
          (forall items v, decoded = DDict items -> (str "response", v) ∉ items) ->
          fst (generate_ai_report w report_text ollama_url model custom_prompt t)
          = Return (VStr (str "No AI report generated")))
  /\ fst (main json_list_main_world summary_args start_with_prompt)
     = Raise (mk_exn AttributeError (str "object has no attribute 'get'")).
Proof.
  split; [|split].
  - intros H.
    specialize (H redirect_world [] (str "http://localhost:11434") (str "qwen2.5:14b")
                  (str "Summarize.") [] _ eq_refl).
    cbn [status_code] in H. specialize (H ltac:(lia)).
    vm_compute in H. discriminate H.
  - intros H.
    specialize (H json_list_world [] (str "http://localhost:11434") (str "qwen2.5:14b")
                  (str "Summarize.") []
                  (mk_response 200 [] (inl (DOther (VOther (str "[]")))))
                  (DOther (VOther (str "[]"))) eq_refl).
    cbn [status_code json_result] in H.
    specialize (H ltac:(lia) eq_refl ltac:(intros items v; discriminate)).
    vm_compute in H. discriminate H.
  - vm_compute. reflexivity.
Qed.

(** ** Context size *)

(** *** Rounding, on integers *)

Section RoundingIntegers.
Import Binary64.
Local Open Scope Z_scope.

(** Scaling keeps the denominator positive. *)
Lemma scale_pos p q e :
  (0 < q)%Z -> (0 < snd (scale p q e))%Z.
Proof.
  intros Hq. unfold scale. destruct (0 <=? e)%Z eqn:E; cbn; [|exact Hq].
  apply Z.mul_pos_pos; [exact Hq|]. apply Z.pow_pos_nonneg; lia.
Qed.

(** [round_half_even p d] is within one half of [p / d], and even when
    [p / d] lies halfway between two integers. *)
Lemma rhe_spec P D :
  0 < D ->
  let m := round_half_even P D in
  (2 * m - 1) * D <= 2 * P <= (2 * m + 1) * D /\
  (2 * P = (2 * m - 1) * D -> Z.even m = true) /\
  (2 * P = (2 * m + 1) * D -> Z.even m = true).
Proof.
  intros HD. unfold round_half_even.
  pose proof (Z.div_mod P D ltac:(lia)) as Hdm.
  pose proof (Z.mod_pos_bound P D HD) as Hr.
  set (k := P / D) in *. set (r := P mod D) in *. clearbody k r.
  destruct (Z.ltb_spec (2 * r) D) as [H1|H1]; [cbv zeta; nia|].
  destruct (Z.ltb_spec D (2 * r)) as [H2|H2]; [cbv zeta; nia|].
  destruct (Z.even k) eqn:Ek; cbv zeta.
  - repeat split; try (intros; first [assumption|nia]).
  - assert (Z.even (k + 1) = true).
    { rewrite Z.even_add, Ek. reflexivity. }
    repeat split; try (intros; first [assumption|nia]).
Qed.

Lemma even_not_consecutive m : Z.even m = true -> Z.even (m - 1) = true -> False.
Proof.
  intros H1 H2. rewrite Z.even_sub, H1 in H2. discriminate H2.
Qed.

(** Rounding to the nearest integer keeps the order of the fractions. *)
Lemma rhe_mono P D P' D' :
  0 < D -> 0 < D' -> P * D' <= P' * D ->
  round_half_even P D <= round_half_even P' D'.
Proof.
  intros HD HD' Hle.
  destruct (rhe_spec P D HD) as ([L1 U1] & T1 & _).
  destruct (rhe_spec P' D' HD') as ([L2 U2] & _ & T2).
  set (m := round_half_even P D) in *. set (m' := round_half_even P' D') in *.
  clearbody m m'.
  destruct (Z.le_gt_cases m m') as [H|H]; [exact H|exfalso].
  assert (Hdd : 0 < D * D') by nia.
  assert (E1 : (2 * m - 1) * (D * D') <= 2 * P * D') by nia.
  assert (E2 : 2 * P' * D <= (2 * m' + 1) * (D * D')) by nia.
  assert (E3 : (2 * m' + 1) * (D * D') <= (2 * m - 1) * (D * D')) by nia.
  assert (Hm : m' = m - 1) by nia.
  subst m'.
  apply (even_not_consecutive m); [apply T1|apply T2]; nia.
Qed.

Lemma rhe_bounds P D lo hi :
  0 < D -> lo * D <= P -> P <= hi * D ->
  lo <= round_half_even P D <= hi.
Proof.
  intros HD Hlo Hhi. destruct (rhe_spec P D HD) as ([L U] & _).
  set (m := round_half_even P D) in *. clearbody m. split; nia.
Qed.

(** An integer is its own rounding. *)
Lemma rhe_exact k D : 0 < D -> round_half_even (k * D) D = k.
Proof.
  intros HD. unfold round_half_even.
  rewrite Z.div_mul, Z.mod_mul by lia.
  destruct (Z.ltb_spec (2 * 0) D); [reflexivity|lia].
Qed.

(** Scaling by the same power of two keeps the order of the fractions. *)
Lemma scale_mono p q p' q' e :
  0 < q -> 0 < q' -> p * q' <= p' * q ->
  fst (scale p q e) * snd (scale p' q' e) <= fst (scale p' q' e) * snd (scale p q e).
Proof.
  intros Hq Hq' H. unfold scale. destruct (0 <=? e) eqn:E; cbn [fst snd].
  - assert (0 < 2 ^ e) by (apply Z.pow_pos_nonneg; lia). nia.
  - assert (0 < 2 ^ (- e)) by (apply Z.pow_pos_nonneg; lia). nia.
Qed.
End RoundingIntegers.

(** *** Rounding, on the values *)

Section RoundingValues.
Import Binary64.
Local Open Scope Q_scope.

Lemma two_pow_pos e : 0 < 2 ^ e.
Proof. apply Qpower_0_lt. reflexivity. Qed.

Lemma two_pow_nonzero e : ~ 2 ^ e == 0.
Proof. pose proof (two_pow_pos e). lra. Qed.

Lemma inject_two_pow n : (0 <= n)%Z -> inject_Z (2 ^ n) == 2 ^ n.
Proof. intros H. now rewrite Zpower_Qpower. Qed.

Lemma inject_pos z : (0 < z)%Z -> 0 < inject_Z z.
Proof. intros H. change 0 with (inject_Z 0). now rewrite <- Zlt_Qlt. Qed.

Lemma two_pow_succ e : 2 ^ (e + 1) == 2 * 2 ^ e.
Proof. rewrite Qpower_plus by easy. change (2 ^ 1) with 2. ring. Qed.

Lemma two_pow_add a b : 2 ^ (a + b) == 2 ^ a * 2 ^ b.
Proof. now rewrite Qpower_plus. Qed.

(** [scale p q e] is the fraction [(p / q) / 2 ^ e]. *)
Lemma scale_eq p q e :
  inject_Z (fst (scale p q e)) * (inject_Z q * 2 ^ e)
  == inject_Z p * inject_Z (snd (scale p q e)).
Proof.
  unfold scale. destruct (0 <=? e)%Z eqn:E; cbn [fst snd].
  - apply Z.leb_le in E. rewrite inject_Z_mult, (inject_two_pow _ E). ring.
  - apply Z.leb_gt in E. rewrite inject_Z_mult, inject_two_pow by lia.
    rewrite Qpower_opp. field. apply two_pow_nonzero.
Qed.

(** [Z.log2] brackets a positive integer between two powers of two. *)
Lemma log2_bounds p :
  (0 < p)%Z -> 2 ^ Z.log2 p <= inject_Z p /\ inject_Z p < 2 * 2 ^ Z.log2 p.
Proof.
  intros Hp. destruct (Z.log2_spec p Hp) as [H1 H2].
  pose proof (Z.log2_nonneg p) as Hn.
  rewrite <- (inject_two_pow _ Hn). split.
  - now rewrite <- Zle_Qle.
  - change 2 with (inject_Z 2) at 1. rewrite <- inject_Z_mult, <- Zlt_Qlt.
    rewrite Z.pow_succ_r in H2 by exact Hn. exact H2.
Qed.

(** The exponent of the binade of [p / q]. *)
Lemma floor_log2_spec p q :
  (0 < p)%Z -> (0 < q)%Z ->
  2 ^ floor_log2 p q * inject_Z q <= inject_Z p /\
  inject_Z p < 2 ^ (floor_log2 p q + 1) * inject_Z q.
Proof.
  intros Hp Hq. unfold floor_log2.
  destruct (log2_bounds p Hp) as [Lp Up]. destruct (log2_bounds q Hq) as [Lq Uq].
  set (d := (Z.log2 p - Z.log2 q)%Z).
  assert (Hd : 2 ^ Z.log2 p == 2 ^ d * 2 ^ Z.log2 q).
  { rewrite <- two_pow_add. unfold d. now replace (Z.log2 p - Z.log2 q + Z.log2 q)%Z
      with (Z.log2 p) by lia. }
  pose proof (scale_eq p q d) as Hs. pose proof (scale_pos p q d Hq) as HD.
  destruct (scale p q d) as [P D] eqn:Esc. cbn [fst snd] in *.
  pose proof (inject_pos _ Hq) as Hq'. pose proof (inject_pos _ HD) as HD'.
  pose proof (two_pow_pos d) as Hd0. pose proof (two_pow_pos (Z.log2 q)) as Hlq0.
  set (a := inject_Z p) in *. set (b := inject_Z q) in *.
  set (x := 2 ^ d) in *. set (y := 2 ^ Z.log2 q) in *. set (z := 2 ^ Z.log2 p) in *.
  assert (Hbx : 0 < b * x) by (apply Qmult_lt_0_compat; assumption).
  destruct (Z.leb_spec D P) as [H|H].
  - rewrite two_pow_succ. fold x. rewrite Zle_Qle in H.
    set (u := inject_Z P) in *. set (v := inject_Z D) in *. clearbody a b x y z u v.
    split.
    + apply (Qmult_le_r _ _ v HD').
      assert (v * (b * x) <= u * (b * x)) by (apply Qmult_le_compat_r; lra).
      lra.
    + assert (x * y <= x * b) by (apply Qmult_le_l; assumption). clear - H0 Up Hd. nra.
  - replace (d - 1 + 1)%Z with d by lia. fold x.
    assert (Hx : x == 2 * 2 ^ (d - 1)).
    { unfold x. rewrite <- two_pow_succ. now replace (d - 1 + 1)%Z with d by lia. }
    rewrite Zlt_Qlt in H.
    set (u := inject_Z P) in *. set (v := inject_Z D) in *.
    set (x' := 2 ^ (d - 1)) in *. clearbody a b x y z u v x'.
    split.
    + assert (x * b <= x * (2 * y)) by (apply Qmult_le_l; lra). nra.
    + apply (Qmult_lt_r _ _ v HD').
      assert (u * (b * x) < v * (b * x)) by (apply Qmult_lt_compat_r; assumption).
      lra.
Qed.

Lemma two_pow_le a b : (a <= b)%Z -> 2 ^ a <= 2 ^ b.
Proof. intros H. apply Qpower_le_compat_l; [exact H|]. discriminate. Qed.

Lemma two_pow_lt_inv a b : 2 ^ a < 2 ^ b -> (a < b)%Z.
Proof.
  intros H. destruct (Z.lt_ge_cases a b) as [Hab|Hab]; [exact Hab|].
  apply two_pow_le in Hab. lra.
Qed.

(** A quotient of positive numbers rounds to a 53-bit mantissa at the exponent
    of its binade. *)
Lemma round_spec p q :
  (0 < p)%Z -> (0 < q)%Z ->
  let e := (floor_log2 p q - 52)%Z in
  expo (round p q) = e /\
  mant (round p q) = round_half_even (fst (scale p q e)) (snd (scale p q e)) /\
  (2 ^ 52 <= mant (round p q) <= 2 ^ 53)%Z.
Proof.
  intros Hp Hq e. unfold round. destruct (Z.eqb_spec p 0) as [->|_]; [lia|].
  change (floor_log2 p q - (prec - 1))%Z with e.
  pose proof (scale_eq p q e) as Hs. pose proof (scale_pos p q e Hq) as HD.
  destruct (scale p q e) as [P D] eqn:Esc. cbn [fst snd mant expo] in *.
  split; [reflexivity|]. split; [reflexivity|].
  destruct (floor_log2_spec p q Hp Hq) as [L U].
  assert (HE : 2 ^ floor_log2 p q == 2 ^ 52 * 2 ^ e).
  { rewrite <- two_pow_add. unfold e. now replace (52 + (floor_log2 p q - 52))%Z
      with (floor_log2 p q) by lia. }
  rewrite two_pow_succ, HE in U. rewrite HE in L.
  pose proof (inject_pos _ Hq) as Hq'. pose proof (inject_pos _ HD) as HD'.
  pose proof (two_pow_pos e) as He.
  assert (Hqe : 0 < inject_Z q * 2 ^ e) by (apply Qmult_lt_0_compat; assumption).
  apply rhe_bounds; [exact HD| |].
  - rewrite Zle_Qle, inject_Z_mult, inject_two_pow by lia.
    apply (Qmult_le_r _ _ _ Hqe).
    assert (2 ^ 52 * 2 ^ e * inject_Z q * inject_Z D <= inject_Z p * inject_Z D)
      by (apply Qmult_le_compat_r; lra).
    set (c := 2 ^ 52) in *. set (a := inject_Z p) in *. set (b := inject_Z q) in *.
    set (x := 2 ^ e) in *. set (u := inject_Z P) in *. set (v := inject_Z D) in *.
    clearbody c a b x u v. clear - H Hs. nra.
  - rewrite Zle_Qle, inject_Z_mult, inject_two_pow by lia.
    apply (Qmult_le_r _ _ _ Hqe).
    assert (inject_Z p * inject_Z D <= 2 * (2 ^ 52 * 2 ^ e) * inject_Z q * inject_Z D)
      by (apply Qmult_le_compat_r; lra).
    assert (H53 : 2 ^ 53 == 2 * 2 ^ 52) by reflexivity.
    set (c := 2 ^ 52) in *. set (c' := 2 ^ 53) in *.
    set (a := inject_Z p) in *. set (b := inject_Z q) in *.
    set (x := 2 ^ e) in *. set (u := inject_Z P) in *. set (v := inject_Z D) in *.
    clearbody c c' a b x u v. clear - H Hs H53. nra.
Qed.

(** The rounded value stays in the closed binade of the quotient. *)
Lemma round_value_bounds p q :
  (0 < p)%Z -> (0 < q)%Z ->
  2 ^ floor_log2 p q <= value (round p q) <= 2 ^ (floor_log2 p q + 1).
Proof.
  intros Hp Hq. destruct (round_spec p q Hp Hq) as (He & _ & [Hlo Hhi]).
  unfold value. rewrite He.
  rewrite Zle_Qle, inject_two_pow in Hlo by lia. rewrite Zle_Qle, inject_two_pow in Hhi by lia.
  assert (HE : 2 ^ floor_log2 p q == 2 ^ 52 * 2 ^ (floor_log2 p q - 52)).
  { rewrite <- two_pow_add. now replace (52 + (floor_log2 p q - 52))%Z
      with (floor_log2 p q) by lia. }
  rewrite two_pow_succ, HE.
  pose proof (two_pow_pos (floor_log2 p q - 52)) as Hx.
  assert (H53 : 2 ^ 53 == 2 * 2 ^ 52) by reflexivity.
  set (m := inject_Z (mant (round p q))) in *. set (x := 2 ^ (floor_log2 p q - 52)) in *.
  set (c := 2 ^ 52) in *. set (c' := 2 ^ 53) in *. clearbody m x c c'.
  clear - Hlo Hhi Hx H53. split; nra.
Qed.

(** A larger quotient is in the same binade or a higher one. *)
Lemma floor_log2_mono p q p' q' :
  (0 < p)%Z -> (0 < q)%Z -> (0 < p')%Z -> (0 < q')%Z -> (p * q' <= p' * q)%Z ->
  (floor_log2 p q <= floor_log2 p' q')%Z.
Proof.
  intros Hp Hq Hp' Hq' Hle.
  destruct (floor_log2_spec p q Hp Hq) as [L _].
  destruct (floor_log2_spec p' q' Hp' Hq') as [_ U].
  assert (2 ^ floor_log2 p q < 2 ^ (floor_log2 p' q' + 1)) as H%two_pow_lt_inv; [|lia].
  rewrite Zle_Qle, !inject_Z_mult in Hle.
  pose proof (inject_pos _ Hq) as Hq0. pose proof (inject_pos _ Hq') as Hq0'.
  assert (Hqq : 0 < inject_Z q * inject_Z q') by (apply Qmult_lt_0_compat; assumption).
  apply (Qmult_lt_r _ _ _ Hqq).
  assert (2 ^ floor_log2 p q * inject_Z q * inject_Z q' <= inject_Z p * inject_Z q')
    by (apply Qmult_le_compat_r; lra).
  assert (inject_Z p' * inject_Z q < 2 ^ (floor_log2 p' q' + 1) * inject_Z q' * inject_Z q)
    by (apply Qmult_lt_compat_r; lra).
  set (a := inject_Z p) in *. set (b := inject_Z q) in *.
  set (a' := inject_Z p') in *. set (b' := inject_Z q') in *.
  set (x := 2 ^ floor_log2 p q) in *. set (y := 2 ^ (floor_log2 p' q' + 1)) in *.
  clearbody a b a' b' x y. clear - Hle H H0. nra.
Qed.

(** Rounding keeps the order of the quotients. *)
Lemma round_mono p q p' q' :
  (0 < p)%Z -> (0 < q)%Z -> (0 < p')%Z -> (0 < q')%Z -> (p * q' <= p' * q)%Z ->
  value (round p q) <= value (round p' q').
Proof.
  intros Hp Hq Hp' Hq' Hle.
  pose proof (floor_log2_mono p q p' q' Hp Hq Hp' Hq' Hle) as HE.
  destruct (Z.eq_dec (floor_log2 p q) (floor_log2 p' q')) as [Heq|Hne].
  - destruct (round_spec p q Hp Hq) as (He & Hm & _).
    destruct (round_spec p' q' Hp' Hq') as (He' & Hm' & _).
    unfold value. rewrite He, He', Hm, Hm', <- Heq.
    apply Qmult_le_compat_r; [|apply Qlt_le_weak, two_pow_pos].
    rewrite <- Zle_Qle. apply rhe_mono; try (apply scale_pos; assumption).
    now apply scale_mono.
  - destruct (round_value_bounds p q Hp Hq) as [_ U].
    destruct (round_value_bounds p' q' Hp' Hq') as [L _].
    assert (2 ^ (floor_log2 p q + 1) <= 2 ^ floor_log2 p' q') by (apply two_pow_le; lia).
    lra.
Qed.

(** [int(x)] is the floor of the value. *)
Lemma to_int_floor x : to_int x = Qfloor (value x).
Proof.
  unfold to_int, value. destruct (Z.leb_spec 0 (expo x)) as [He|He].
  - rewrite <- (inject_two_pow _ He), <- inject_Z_mult. now rewrite Qfloor_Z.
  - assert (Hpos : (0 < 2 ^ (- expo x))%Z) by (apply Z.pow_pos_nonneg; lia).
    assert (Hv : inject_Z (mant x) * 2 ^ expo x == mant x # Z.to_pos (2 ^ (- expo x))).
    { rewrite (Qmake_Qdiv (mant x) (Z.to_pos (2 ^ (- expo x)))).
      rewrite Z2Pos.id by exact Hpos.
      rewrite inject_two_pow by lia. rewrite Qpower_opp. unfold Qdiv.
      now rewrite Qinv_involutive. }
    rewrite Hv. cbn [Qfloor]. now rewrite Z2Pos.id.
Qed.

Lemma to_int_mono x y : value x <= value y -> (to_int x <= to_int y)%Z.
Proof. intros H. rewrite !to_int_floor. now apply Qfloor_resp_le. Qed.

Lemma value_pos x : (0 < mant x)%Z -> 0 < value x.
Proof.
  intros H. unfold value. apply Qmult_lt_0_compat; [now apply inject_pos|apply two_pow_pos].
Qed.

(** The fraction [mul] rounds is the product of the values. *)
Lemma mul_scale x y :
  let s := scale (mant x * mant y) 1 (- (expo x + expo y)) in
  inject_Z (fst s) == value x * value y * inject_Z (snd s).
Proof.
  intros s. pose proof (scale_eq (mant x * mant y) 1 (- (expo x + expo y))) as H.
  fold s in H. unfold value. rewrite inject_Z_mult in H.
  assert (He : 2 ^ expo x * 2 ^ expo y * 2 ^ (- (expo x + expo y)) == 1).
  { rewrite <- !two_pow_add. now replace (expo x + expo y + - (expo x + expo y))%Z with 0%Z by lia. }
  pose proof (two_pow_pos (- (expo x + expo y))) as Hp.
  apply (Qmult_inj_r _ _ (2 ^ (- (expo x + expo y)))); [lra|].
  set (a := inject_Z (fst s)) in *. set (b := inject_Z (snd s)) in *.
  set (m := inject_Z (mant x)) in *. set (m' := inject_Z (mant y)) in *.
  set (u := 2 ^ expo x) in *. set (v := 2 ^ expo y) in *.
  set (k := 2 ^ (- (expo x + expo y))) in *. clearbody a b m m' u v k.
  clear - H He.
  assert (E : m * u * (m' * v) * b * k == m * m' * b * (u * v * k)) by ring.
  rewrite E, He, <- H. change (inject_Z 1) with 1. ring.
Qed.

(** Multiplying by a fixed positive float keeps the order. *)
Lemma mul_mono x x' y :
  (0 < mant x)%Z -> (0 < mant x')%Z -> (0 < mant y)%Z ->
  value x <= value x' -> value (mul x y) <= value (mul x' y).
Proof.
  intros Hx Hx' Hy Hle. unfold mul.
  pose proof (mul_scale x y) as Hs. pose proof (mul_scale x' y) as Hs'.
  pose proof (scale_pos (mant x * mant y) 1 (- (expo x + expo y)) ltac:(lia)) as HD.
  pose proof (scale_pos (mant x' * mant y) 1 (- (expo x' + expo y)) ltac:(lia)) as HD'.
  destruct (scale (mant x * mant y) 1 _) as [P D].
  destruct (scale (mant x' * mant y) 1 _) as [P' D']. cbn [fst snd] in *.
  pose proof (value_pos x Hx) as Vx. pose proof (value_pos x' Hx') as Vx'.
  pose proof (value_pos y Hy) as Vy.
  pose proof (inject_pos _ HD) as HD0. pose proof (inject_pos _ HD') as HD0'.
  assert (HP : 0 < inject_Z P).
  { rewrite Hs. apply Qmult_lt_0_compat; [apply Qmult_lt_0_compat|]; assumption. }
  assert (HP' : 0 < inject_Z P').
  { rewrite Hs'. apply Qmult_lt_0_compat; [apply Qmult_lt_0_compat|]; assumption. }
  apply round_mono; try assumption.
  - change 0 with (inject_Z 0) in HP. now rewrite <- Zlt_Qlt in HP.
  - change 0 with (inject_Z 0) in HP'. now rewrite <- Zlt_Qlt in HP'.
  - rewrite Zle_Qle, !inject_Z_mult, Hs, Hs'.
    assert (value x * value y <= value x' * value y) by (apply Qmult_le_compat_r; lra).
    assert (Hdd : 0 < inject_Z D * inject_Z D') by (apply Qmult_lt_0_compat; assumption).
    assert (value x * value y * (inject_Z D * inject_Z D')
            <= value x' * value y * (inject_Z D * inject_Z D'))
      by (apply Qmult_le_compat_r; lra).
    set (a := value x) in *. set (a' := value x') in *. set (b := value y) in *.
    set (d := inject_Z D) in *. set (d' := inject_Z D') in *. clearbody a a' b d d'.
    clear - H0. nra.
Qed.

(** The estimate does not decrease with the length. *)
Lemma token_estimate_mono n n' :
  (1 <= n)%Z -> (n <= n')%Z -> (token_estimate n <= token_estimate n')%Z.
Proof.
  intros H1 Hle. unfold token_estimate, true_divide. apply to_int_mono.
  destruct (round_spec n 3 ltac:(lia) ltac:(lia)) as (_ & _ & [Hm _]).
  destruct (round_spec n' 3 ltac:(lia) ltac:(lia)) as (_ & _ & [Hm' _]).
  apply mul_mono; try lia.
  - reflexivity.
  - apply round_mono; lia.
Qed.

(** The binade of a quotient is determined by its bounds. *)
Lemma floor_log2_unique p q E :
  (0 < p)%Z -> (0 < q)%Z ->
  2 ^ E * inject_Z q <= inject_Z p -> inject_Z p < 2 ^ (E + 1) * inject_Z q ->
  floor_log2 p q = E.
Proof.
  intros Hp Hq L U. destruct (floor_log2_spec p q Hp Hq) as [L' U'].
  pose proof (inject_pos _ Hq) as Hq0.
  assert (H1 : 2 ^ E < 2 ^ (floor_log2 p q + 1)).
  { apply (Qmult_lt_r _ _ _ Hq0). lra. }
  assert (H2 : 2 ^ floor_log2 p q < 2 ^ (E + 1)).
  { apply (Qmult_lt_r _ _ _ Hq0). lra. }
  apply two_pow_lt_inv in H1, H2. lia.
Qed.

(** A quotient that is a 53-bit mantissa times a power of two is its own
    rounding. *)
Lemma round_exact p q M k :
  (0 < p)%Z -> (0 < q)%Z -> (2 ^ 52 <= M < 2 ^ 53)%Z ->
  inject_Z p == inject_Z M * 2 ^ k * inject_Z q ->
  round p q = mk_float M k.
Proof.
  intros Hp Hq [HM1 HM2] Hpq.
  pose proof (inject_pos _ Hq) as Hq0. pose proof (two_pow_pos k) as Hk.
  assert (HM1' : 2 ^ 52 <= inject_Z M) by (rewrite <- inject_two_pow by lia; now rewrite <- Zle_Qle).
  assert (HM2' : inject_Z M < 2 ^ 53) by (rewrite <- inject_two_pow by lia; now rewrite <- Zlt_Qlt).
  assert (HE : floor_log2 p q = (52 + k)%Z).
  { apply floor_log2_unique; try assumption.
    - rewrite Hpq, two_pow_add. apply Qmult_le_compat_r; [|lra].
      apply Qmult_le_compat_r; lra.
    - rewrite Hpq. replace (52 + k + 1)%Z with (53 + k)%Z by lia. rewrite two_pow_add.
      apply Qmult_lt_compat_r; [lra|]. apply Qmult_lt_compat_r; lra. }
  destruct (round_spec p q Hp Hq) as (He & Hm & _).
  rewrite HE in He, Hm. replace (52 + k - 52)%Z with k in He, Hm by lia.
  pose proof (scale_eq p q k) as Hs. pose proof (scale_pos p q k Hq) as HD.
  destruct (scale p q k) as [P D]. cbn [fst snd] in *.
  assert (HP : P = (M * D)%Z).
  { apply inject_Z_injective. rewrite inject_Z_mult.
    pose proof (inject_pos _ HD) as HD0.
    assert (Hqk : 0 < inject_Z q * 2 ^ k) by (apply Qmult_lt_0_compat; assumption).
    apply (Qmult_inj_r _ _ (inject_Z q * 2 ^ k)); [lra|].
    rewrite Hs, Hpq. ring. }
  rewrite HP, rhe_exact in Hm by exact HD.
  destruct (round p q) as [m e]. cbn in He, Hm. now subst.
Qed.

Lemma of_int_two : of_int 2 = mk_float (2 ^ 52) (-51).
Proof. reflexivity. Qed.

(** Doubling is exact. *)
Lemma mul_two_value x :
  (2 ^ 52 <= mant x <= 2 ^ 53)%Z -> value (mul x (of_int 2)) == 2 * value x.
Proof.
  intros [H1 H2]. rewrite of_int_two. unfold mul. cbn [mant expo].
  pose proof (scale_eq (mant x * 2 ^ 52) 1 (- (expo x + -51))) as Hs.
  pose proof (scale_pos (mant x * 2 ^ 52) 1 (- (expo x + -51)) ltac:(lia)) as HD.
  destruct (scale (mant x * 2 ^ 52) 1 _) as [P D]. cbn [fst snd] in *.
  pose proof (inject_pos _ HD) as HD0.
  assert (HPD : inject_Z P == inject_Z (mant x) * 2 ^ (expo x + 1) * inject_Z D).
  { pose proof (two_pow_pos (- (expo x + -51))) as Hp.
    apply (Qmult_inj_r _ _ (inject_Z 1 * 2 ^ (- (expo x + -51)))).
    { change (inject_Z 1) with 1. lra. }
    rewrite Hs, inject_Z_mult, inject_two_pow by lia.
    assert (He : 2 ^ (expo x + 1) * 2 ^ (- (expo x + -51)) == 2 ^ 52).
    { rewrite <- two_pow_add. now replace (expo x + 1 + - (expo x + -51))%Z with 52%Z by lia. }
    change (inject_Z 1) with 1. rewrite <- He. ring. }
  assert (HP : (0 < P)%Z).
  { rewrite Zlt_Qlt, HPD. change (inject_Z 0) with 0.
    apply Qmult_lt_0_compat; [|exact HD0].
    apply Qmult_lt_0_compat; [apply inject_pos; lia|apply two_pow_pos]. }
  destruct (Z.eq_dec (mant x) (2 ^ 53)%Z) as [Htop|Htop].
  - rewrite (round_exact P D (2 ^ 52)%Z (expo x + 2)); try assumption; try lia.
    + unfold value. cbn [mant expo]. rewrite Htop.
      replace (expo x + 2)%Z with (1 + (expo x + 1))%Z by lia.
      rewrite !inject_two_pow by lia.
      rewrite (two_pow_add 1). change (2 ^ 1) with 2.
      rewrite two_pow_succ. change (2 ^ 53) with (2 * 2 ^ 52). ring.
    + rewrite HPD, Htop. rewrite !inject_two_pow by lia.
      replace (expo x + 2)%Z with (expo x + 1 + 1)%Z by lia.
      rewrite (two_pow_succ (expo x + 1)). change (2 ^ 53) with (2 * 2 ^ 52). ring.
  - rewrite (round_exact P D (mant x) (expo x + 1)); try assumption; try lia.
    unfold value. cbn [mant expo]. rewrite two_pow_succ. ring.
Qed.

Lemma Qfloor_unique x k :
  inject_Z k <= x -> x < inject_Z (k + 1) -> Qfloor x = k.
Proof.
  intros L U. pose proof (Qfloor_le x) as H1. pose proof (Qlt_floor x) as H2.
  assert (inject_Z (Qfloor x) < inject_Z (k + 1)) as Ha by lra.
  assert (inject_Z k < inject_Z (Qfloor x + 1)) as Hb by lra.
  rewrite <- Zlt_Qlt in Ha, Hb. lia.
Qed.

(** The rounding error is at most half a unit in the last place. *)
Lemma round_error p q :
  (0 < p)%Z -> (0 < q)%Z ->
  let v := value (round p q) in
  let u := 2 ^ (floor_log2 p q - 52) in
  (2 * v - u) * inject_Z q <= 2 * inject_Z p /\
  2 * inject_Z p <= (2 * v + u) * inject_Z q.
Proof.
  intros Hp Hq v u. unfold v, value.
  destruct (round_spec p q Hp Hq) as (-> & -> & _). fold u.
  pose proof (scale_eq p q (floor_log2 p q - 52)) as Hs. fold u in Hs.
  pose proof (scale_pos p q (floor_log2 p q - 52) Hq) as HD.
  destruct (scale p q (floor_log2 p q - 52)) as [P D]. cbn [fst snd] in *.
  destruct (rhe_spec P D HD) as ([L U] & _). cbv zeta in L, U.
  assert (L' : (2 * (round_half_even P D * D) <= 2 * P + D)%Z) by lia.
  assert (U' : (2 * P <= 2 * (round_half_even P D * D) + D)%Z) by lia.
  clear L U. rewrite Zle_Qle in L', U'.
  rewrite ?inject_Z_plus, ?inject_Z_mult in L', U'.
  change (inject_Z 2) with 2 in L', U'.
  pose proof (inject_pos _ HD) as HD0. pose proof (inject_pos _ Hq) as Hq0.
  assert (Hu : 0 < u) by apply two_pow_pos.
  assert (Hqu : 0 < inject_Z q * u) by (apply Qmult_lt_0_compat; assumption).
  set (m := inject_Z (round_half_even P D)) in *.
  set (a := inject_Z p) in *. set (b := inject_Z q) in *.
  set (x := inject_Z P) in *. set (d := inject_Z D) in *. clearbody m a b x d u.
  split; apply (Qmult_le_r _ _ d HD0).
  - assert (2 * (m * d) * (b * u) <= (2 * x + d) * (b * u))
      by (apply Qmult_le_compat_r; lra).
    clear - H Hs. nra.
  - assert (2 * x * (b * u) <= (2 * (m * d) + d) * (b * u))
      by (apply Qmult_le_compat_r; lra).
    clear - H Hs. nra.
Qed.

(** Below [2 ^ 52] characters the estimate is two thirds of the length,
    rounded down. *)
Lemma token_estimate_small n :
  (0 <= n < 2 ^ 52)%Z -> token_estimate n = (2 * n / 3)%Z.
Proof.
  intros [H0 Hn]. destruct (Z.eq_dec n 0%Z) as [->|Hne]; [reflexivity|].
  assert (Hp : (0 < n)%Z) by lia.
  unfold token_estimate, true_divide. rewrite to_int_floor.
  destruct (round_spec n 3 Hp ltac:(lia)) as (He & Hm & Hb).
  rewrite (mul_two_value _ Hb).
  destruct (floor_log2_spec n 3 Hp ltac:(lia)) as [L _].
  assert (HE : (floor_log2 n 3 <= 50)%Z).
  { assert (2 ^ (floor_log2 n 3 + 1) < 2 ^ 52) as H%two_pow_lt_inv; [|lia].
    rewrite two_pow_succ. rewrite Zlt_Qlt, inject_two_pow in Hn by lia.
    change (inject_Z 3) with 3 in L. lra. }
  set (e := (floor_log2 n 3 - 52)%Z) in *.
  destruct (Z.eq_dec (n mod 3)%Z 0%Z) as [Hr|Hr].
  - (* a multiple of three: the quotient is exact *)
    apply Z.mod_divide in Hr; [|lia]. destruct Hr as [j ->].
    assert (Hsc : scale (j * 3) 3 e = (j * 3 * 2 ^ (- e), 3)%Z).
    { unfold scale. destruct (Z.leb_spec 0 e); [lia|reflexivity]. }
    rewrite Hsc in Hm. cbn [fst snd] in Hm.
    replace (j * 3 * 2 ^ (- e))%Z with (j * 2 ^ (- e) * 3)%Z in Hm by ring.
    rewrite rhe_exact in Hm by lia.
    unfold value. rewrite He, Hm, inject_Z_mult, inject_two_pow by lia.
    assert (Hone : 2 ^ (- e) * 2 ^ e == 1).
    { rewrite <- two_pow_add. now replace (- e + e)%Z with 0%Z by lia. }
    assert (Hv : 2 * (inject_Z j * 2 ^ (- e) * 2 ^ e) == inject_Z (2 * j)).
    { rewrite inject_Z_mult. change (inject_Z 2) with 2.
      rewrite <- Qmult_assoc, Hone. ring. }
    rewrite Hv, Qfloor_Z. replace (2 * (j * 3))%Z with (2 * j * 3)%Z by ring.
    now rewrite Z.div_mul.
  - destruct (round_error n 3 Hp ltac:(lia)) as [Lo Hi]. cbv zeta in Lo, Hi. fold e in Lo, Hi.
    assert (Hu : 2 ^ e <= 1 # 4).
    { change (1 # 4) with (2 ^ (-2)). apply two_pow_le. lia. }
    pose proof (two_pow_pos e) as Hu0.
    pose proof (Z.div_mod (2 * n) 3 ltac:(lia)) as Hdm.
    pose proof (Z.mod_pos_bound (2 * n) 3 ltac:(lia)) as Hrb.
    assert (Hr2 : ((2 * n) mod 3 <> 0)%Z).
    { intros H. apply Hr. apply Z.mod_divide in H; [|lia].
      apply Z.mod_divide; [lia|]. apply (Z.gauss 3 2 n); [exact H|reflexivity]. }
    set (k := (2 * n / 3)%Z) in *. set (r := ((2 * n) mod 3)%Z) in *.
    assert (Hn2 : 2 * inject_Z n == 3 * inject_Z k + inject_Z r).
    { change 2 with (inject_Z 2). change 3 with (inject_Z 3).
      rewrite <- !inject_Z_mult, <- inject_Z_plus. now rewrite <- Hdm. }
    assert (Hr1 : 1 <= inject_Z r <= 2).
    { split; [change 1 with (inject_Z 1)|change 2 with (inject_Z 2)];
        rewrite <- Zle_Qle; lia. }
    change (inject_Z 3) with 3 in Lo, Hi.
    set (v := value (round n 3)) in *. clearbody v.
    apply Qfloor_unique.
    + lra.
    + rewrite inject_Z_plus. change (inject_Z 1) with 1. lra.
Qed.
End RoundingValues.

(** *** The estimate, for every length *)

Section EstimateBounds.
Import Binary64.
Local Open Scope Q_scope.

(** Whatever the length, the estimate is two thirds of it up to a relative
    error of [2 ^ -53], rounded down. *)
Lemma token_estimate_bounds n :
  (0 < n)%Z ->
  (3 * 2 ^ 52 * token_estimate n <= (2 * 2 ^ 52 + 1) * n)%Z
  /\ (2 * 2 ^ 52 * n < 3 * 2 ^ 52 * (token_estimate n + 1) + n)%Z.
Proof.
  intros Hp. unfold token_estimate, true_divide. rewrite to_int_floor.
  destruct (round_spec n 3 Hp ltac:(lia)) as (_ & _ & Hb).
  rewrite (mul_two_value _ Hb).
  destruct (round_error n 3 Hp ltac:(lia)) as [Lo Hi]. cbv zeta in Lo, Hi.
  destruct (floor_log2_spec n 3 Hp ltac:(lia)) as [L _].
  change (inject_Z 3) with 3 in Lo, Hi, L.
  set (v := value (round n 3)) in *.
  pose proof (Qfloor_le (2 * v)) as F1. pose proof (Qlt_floor (2 * v)) as F2.
  set (T := Qfloor (2 * v)) in *.
  assert (Hu : 2 ^ (floor_log2 n 3 - 52) == 2 ^ floor_log2 n 3 * 2 ^ (-52)).
  { now rewrite <- two_pow_add. }
  assert (HC : inject_Z (2 ^ 52) * 2 ^ (-52) == 1) by reflexivity.
  assert (HC0 : 0 < inject_Z (2 ^ 52)) by reflexivity.
  assert (Hw0 : 0 < 2 ^ (-52)) by reflexivity.
  rewrite Hu in Lo, Hi. clear Hu.
  rewrite inject_Z_plus in F2. change (inject_Z 1) with 1 in F2.
  rewrite Zle_Qle, Zlt_Qlt.
  repeat first [rewrite inject_Z_mult|rewrite inject_Z_plus|rewrite inject_Z_minus].
  change (inject_Z 3) with 3. change (inject_Z 2) with 2. change (inject_Z 1) with 1.
  set (C := inject_Z (2 ^ 52)) in *. set (w := 2 ^ (-52)) in *.
  set (g := 2 ^ floor_log2 n 3) in *. set (a := inject_Z n) in *.
  set (t := inject_Z T) in *.
  clearbody C w g a t v. clear - F1 F2 Lo Hi L HC HC0 Hw0.
  assert (Hgw : g * 3 * w <= a * w) by (apply Qmult_le_compat_r; lra).
  assert (H1 : 3 * t <= 2 * a + a * w) by lra.
  assert (H2 : 2 * a - a * w < 3 * (t + 1)) by lra.
  assert (E : a * w * C == a) by (rewrite <- Qmult_assoc, (Qmult_comm w C), HC; ring).
  split.
  - assert (H : 3 * t * C <= (2 * a + a * w) * C) by (apply Qmult_le_compat_r; lra).
    clear - H E. lra.
  - assert (H : (2 * a - a * w) * C < 3 * (t + 1) * C) by (apply Qmult_lt_compat_r; lra).
    clear - H E. lra.
Qed.
End EstimateBounds.

Section ContextSize.
Local Open Scope Z_scope.

(** On sample lengths the estimate is the one the Standard Library's IEEE 754
    operations give. *)
Example token_estimate_agrees_with_SpecFloat :
  Forall (fun len =>
            to_spec_float (Binary64.mul (Binary64.true_divide len 3) (Binary64.of_int 2))
            = spec_estimate len)
    [1; 2; 3; 4; 5; 7; 10; 100; 1000; 4095; 65537; 1000001; 2 ^ 31 - 1; 2 ^ 52 + 1].
Proof. repeat constructor. Qed.

Example token_estimate_samples :
  List.map token_estimate [2; 3; 4; 5; 10; 100; 1000] = [1; 2; 2; 3; 6; 66; 666].
Proof. reflexivity. Qed.

Lemma next_power_of_two_pow m : next_power_of_two m = 2 ^ bit_length (m - 1).
Proof. unfold next_power_of_two. apply Z.shiftl_1_l. Qed.

Lemma bit_length_nonneg n : 0 <= bit_length n.
Proof.
  unfold bit_length. destruct (n =? 0); [lia|]. pose proof (Z.log2_nonneg (Z.abs n)). lia.
Qed.

(** From 1 on, line 198 gives the least power of two that is not below its
    argument. *)
Lemma next_power_of_two_least m :
  1 <= m -> least_power_of_two_above m (next_power_of_two m).
Proof.
  intros Hm. rewrite next_power_of_two_pow. unfold least_power_of_two_above, is_power_of_two.
  split; [exists (bit_length (m - 1)); split; [apply bit_length_nonneg|reflexivity]|].
  unfold bit_length. destruct (Z.eqb_spec (m - 1) 0) as [H0|H0].
  - split; [cbn; lia|]. intros q (j & Hj & ->) _. apply Z.pow_le_mono_r; lia.
  - rewrite Z.abs_eq by lia.
    destruct (Z.log2_spec (m - 1) ltac:(lia)) as [Hlo Hhi].
    split; [rewrite Z.add_1_r; lia|].
    intros q (j & Hj & ->) Hq. apply Z.pow_le_mono_r; [lia|].
    assert (Z.log2 (m - 1) < j); [|lia].
    apply (Z.pow_lt_mono_r_iff 2); lia.
Qed.

Lemma next_power_of_two_mono m m' :
  1 <= m -> m <= m' -> next_power_of_two m <= next_power_of_two m'.
Proof.
  intros Hm Hle.
  destruct (next_power_of_two_least m Hm) as (_ & _ & Hleast).
  destruct (next_power_of_two_least m' ltac:(lia)) as (Hpow & Hge & _).
  apply Hleast; [exact Hpow|lia].
Qed.

Lemma make_prompt_length custom_prompt report_text :
  length (make_prompt custom_prompt report_text)
  = (length custom_prompt + 2 + length report_text)%nat.
Proof. unfold make_prompt. rewrite !length_app. cbn [length]. unfold char. lia. Qed.

Lemma token_estimate_positive n : 2 <= n -> 1 <= token_estimate n.
Proof.
  intros Hn. change 1 with (token_estimate 2). apply token_estimate_mono; lia.
Qed.

(** Below two characters line 198 does not round up: it gives 2 for an
    estimate of 0.  No prompt is that short, since it holds the two line
    feeds. *)
Remark context_size_of_short_texts :
  next_power_of_two (token_estimate 0) = 2 /\ next_power_of_two (token_estimate 1) = 2
  /\ next_power_of_two (token_estimate 2) = 1.
Proof. repeat split. Qed.

(** C5: for the prompt built from any custom prompt and report, of [n]
    characters, the token estimate is [int((n / 3) * 2)] in binary64
    arithmetic: two thirds of [n] up to a relative error of [2 ^ -53], rounded
    down, and exactly the integer part of [2 * n / 3] when [n] is below
    [2 ^ 52].  The context size is the least power of two that is not below
    this estimate; it is a power of two, at least 1; and a prompt that is not
    shorter gets a context size that is not smaller. *)
Theorem context_size_is_next_power_of_two custom_prompt report_text :
  let prompt := make_prompt custom_prompt report_text in
  let n := Z.of_nat (length prompt) in
  let num_ctx := token_estimate n in
  num_ctx = Binary64.to_int (Binary64.mul (Binary64.true_divide n 3) (Binary64.of_int 2))
  /\ 3 * 2 ^ 52 * num_ctx <= (2 ^ 53 + 1) * n
  /\ (2 ^ 53 - 1) * n < 3 * 2 ^ 52 * (num_ctx + 1)
  /\ (n < 2 ^ 52 -> num_ctx = 2 * n / 3)
  /\ least_power_of_two_above num_ctx (context_size prompt)
  /\ is_power_of_two (context_size prompt)
  /\ 1 <= context_size prompt
  /\ forall custom_prompt' report_text',
       (length prompt <= length (make_prompt custom_prompt' report_text'))%nat ->
       context_size prompt <= context_size (make_prompt custom_prompt' report_text').
Proof.
  intros prompt n num_ctx.
  assert (Hlen : 2 <= n).
  { unfold n, prompt. rewrite make_prompt_length. lia. }
  assert (Hest : 1 <= num_ctx) by now apply token_estimate_positive.
  pose proof (next_power_of_two_least num_ctx Hest) as Hleast.
  destruct (token_estimate_bounds n ltac:(lia)) as [Hlo Hhi]. fold num_ctx in Hlo, Hhi.
  split; [reflexivity|]. split; [lia|]. split; [lia|].
  split; [intros Hn; apply token_estimate_small; lia|].
  split; [exact Hleast|]. destruct Hleast as (Hpow & Hge & _).
  split; [exact Hpow|]. split; [unfold context_size; fold prompt n num_ctx; lia|].
  intros custom_prompt' report_text' Hle. unfold context_size.
  apply next_power_of_two_mono; [exact Hest|].
  apply token_estimate_mono; lia.
Qed.
End ContextSize.

(** ** Change-list parser: what is returned, for every listing *)

(** The lines of a description are lines of the text that start with a tab. *)
Lemma description_lines_elem line lines :
  line ∈ description_lines lines -> line ∈ lines /\ startswith [TAB] line = true.
Proof.
  induction lines as [|l lines IH]; cbn [description_lines]; [now intros ?%elem_of_nil|].
  destruct (well_formed_header l); [now intros ?%elem_of_nil|].
  destruct (startswith [TAB] l) eqn:Htab.
  - intros [Hl | Hin]%elem_of_cons.
    + subst. split; [left|exact Htab].
    + destruct (IH Hin). split; [now right|assumption].
  - intros Hin. destruct (IH Hin). split; [now right|assumption].
Qed.

(** X1: on a listing whose lines starting with "Change " all have at least four
    tokens, the parser returns exactly the records of the headers whose date
    is in the range, each once and in input order. *)
Theorem pending_changes_are_the_records_in_range output start_date end_date :
  Forall (fun line => is_header line = true -> well_formed_header line = true)
    (split_on LF output) ->
  parse_pending_changes output start_date end_date
  = List.filter
      (fun c => in_range (normalize_date start_date) (normalize_end end_date) (date c))
      (spec_records (split_on LF output)).
Proof. intros H. unfold parse_pending_changes. now apply parse_lines_well_formed. Qed.

(** The listing of the specification and its first ten days. *)
Lemma pending_changes_are_the_records_in_range_witness :
  parse_pending_changes sample_listing (str "2024-01-01") (Some (str "2024-01-10"))
  = List.filter
      (fun c => in_range (normalize_date (str "2024-01-01"))
                  (normalize_end (Some (str "2024-01-10"))) (date c))
      (spec_records (split_on LF sample_listing)).
Proof.
  apply (pending_changes_are_the_records_in_range sample_listing (str "2024-01-01")
           (Some (str "2024-01-10"))).
  apply Forall_forall.
  each_line ltac:(vm_compute; intros H; first [reflexivity|discriminate H]).
Defined.

(** X2: for every listing, malformed headers included, a record is returned
    exactly when it is the record of a well-formed header of the listing and
    the range covers its date: nothing out of range is returned and nothing in
    range is dropped. *)
Theorem pending_change_returned_iff_in_range output start_date end_date c :
  c ∈ parse_pending_changes output start_date end_date
  <-> c ∈ spec_records (split_on LF output) /\ covers start_date end_date (date c).
Proof.
  unfold parse_pending_changes. now rewrite parse_lines_elem, in_range_covers.
Qed.

(** X3: every returned record is read off one line of the listing: its header
    is a line of the text that starts with "Change " and has at least four
    tokens, its number and date are the second and the fourth token of that
    line, the range covers the date, and each line of its description is a
    line of the text that starts with a tab. *)
Theorem returned_records_come_from_the_listing output start_date end_date :
  Forall (fun c =>
            header c ∈ split_on LF output
            /\ startswith (str "Change ") (header c) = true
            /\ (4 <= length (split (header c)))%nat
            /\ number c = nth 1 (split (header c)) []
            /\ date c = nth 3 (split (header c)) []
            /\ covers start_date end_date (date c)
            /\ Forall (fun line => line ∈ split_on LF output
                                   /\ startswith [TAB] line = true) (description c))
    (parse_pending_changes output start_date end_date).
Proof.
  apply Forall_forall. intros c Hc. unfold parse_pending_changes in Hc.
  apply parse_lines_elem in Hc as [Hrec Hrange].
  apply in_range_covers in Hrange.
  destruct (spec_records_elem _ _ Hrec) as (pre & rest & Hlines & Hwf & Hn & Hd & Hdesc).
  pose proof Hwf as Hwf'. unfold well_formed_header, is_header in Hwf'.
  apply andb_true_iff in Hwf' as [Hh Hlen].
  split; [rewrite Hlines; apply elem_of_app; right; left|].
  split; [exact Hh|]. split; [now apply Nat.leb_le|].
  split; [exact Hn|]. split; [exact Hd|]. split; [exact Hrange|].
  apply Forall_forall. intros line Hline. rewrite Hdesc in Hline.
  apply description_lines_elem in Hline as [Hin Htab]. split; [|exact Htab].
  rewrite Hlines. apply elem_of_app. right. now right.
Qed.

(** X4: with calendar days for the bounds and YYYY/MM/DD dates in the listing,
    the record of a well-formed header dated [d] is returned exactly when [d]
    is not before the first day of the range and, when an end date is given,
    not after the last: the comparison of the date texts is the order of the
    calendar. *)
Theorem header_returned_iff_day_in_range output start_day end_day d line :
  Calendar.valid start_day -> Calendar.valid d ->
  (forall e, end_day = Some e -> Calendar.valid e) ->
  line ∈ split_on LF output -> well_formed_header line = true ->
  nth 3 (split line) [] = Calendar.slashed d ->
  (exists c,
     c ∈ parse_pending_changes output (Calendar.dashed start_day)
           (Calendar.dashed <$> end_day)
     /\ header c = line)
  <-> Calendar.le start_day d
      /\ match end_day with Some e => Calendar.le d e | None => True end.
Proof.
  intros Hs Hd He Hline Hwf Hdate. unfold parse_pending_changes.
  rewrite <- (covers_calendar start_day end_day d Hs Hd He). split.
  - intros (c & Hc & Hh). apply parse_lines_elem in Hc as [Hrec Hrange].
    apply in_range_covers in Hrange.
    destruct (spec_records_elem _ _ Hrec) as (_ & _ & _ & _ & _ & Hcd & _).
    now rewrite Hcd, Hh, Hdate in Hrange.
  - intros Hcov.
    destruct (spec_records_header_elem line _ Hline Hwf) as (c & Hrec & Hh & _ & Hcd).
    exists c. split; [|exact Hh]. apply parse_lines_elem. split; [exact Hrec|].
    apply in_range_covers. now rewrite Hcd, Hdate.
Qed.

(** The listing of the specification, from 1 to 10 January 2024: the change
    of 20 January is not returned, since the 20th is after the 10th. *)
Lemma header_returned_iff_day_in_range_witness :
  ~ exists c,
      c ∈ parse_pending_changes sample_listing
            (Calendar.dashed (Calendar.mk_ymd 2024 1 1))
            (Calendar.dashed <$> Some (Calendar.mk_ymd 2024 1 10))
      /\ header c = str "Change 102 on 2024/01/20 by alice@ws".
Proof.
  intros H.
  refine (_ (proj1 (header_returned_iff_day_in_range sample_listing
                      (Calendar.mk_ymd 2024 1 1) (Some (Calendar.mk_ymd 2024 1 10))
                      (Calendar.mk_ymd 2024 1 20)
                      (str "Change 102 on 2024/01/20 by alice@ws") _ _ _ _ _ _) H)).
  - intros [_ Hle]. unfold Calendar.le in Hle. cbn in Hle. lia.
  - unfold Calendar.valid. vm_compute. repeat split; discriminate.
  - unfold Calendar.valid. vm_compute. repeat split; discriminate.
  - intros e [= <-]. unfold Calendar.valid. vm_compute. repeat split; discriminate.
  - vm_compute. right. right. left.
  - reflexivity.
  - reflexivity.
Defined.

(** *** No more records than headers *)

Section ParserCount.
Variable start_date_str : pystr.
Variable end_date_str : option pystr.

Lemma save_current_length st :
  (length (changes (save_current start_date_str end_date_str st))
   <= length (changes st) + in_progress st)%nat
  /\ in_progress (save_current start_date_str end_date_str st) = in_progress st.
Proof.
  unfold save_current, in_progress. destruct (current_change st) as [r|] eqn:E.
  - destruct (store st !! r); [|rewrite E; lia].
    destruct (in_range _ _ _); cbn [changes current_change]; rewrite ?E.
    + rewrite length_app. cbn. lia.
    + lia.
  - rewrite E. lia.
Qed.

Lemma parse_line_length st line n :
  (length (changes st) + in_progress st <= n)%nat ->
  (length (changes (parse_line start_date_str end_date_str st line))
   + in_progress (parse_line start_date_str end_date_str st line)
   <= n + header_count [line])%nat.
Proof.
  intros H. unfold parse_line, header_count, is_header. cbn [List.filter].
  destruct (save_current_length st) as [Hlen Hcur].
  destruct (startswith (str "Change ") line).
  - destruct (4 <=? length (split line))%nat; cbn [changes length].
    + unfold in_progress at 1. cbn [current_change]. unfold in_progress in H, Hlen.
      destruct (current_change st); lia.
    + rewrite Hcur. unfold in_progress in *. destruct (current_change st); lia.
  - cbn [length]. destruct (current_change st) eqn:E; [|lia].
    destruct (startswith [TAB] line); [|lia].
    unfold in_progress in *. cbn [changes current_change]. rewrite E in *. lia.
Qed.

Lemma fold_left_length lines : forall st n,
  (length (changes st) + in_progress st <= n)%nat ->
  (length (changes (fold_left (parse_line start_date_str end_date_str) lines st))
   + in_progress (fold_left (parse_line start_date_str end_date_str) lines st)
   <= n + header_count lines)%nat.
Proof.
  induction lines as [|line lines IH]; intros st n H; cbn [fold_left].
  - unfold header_count. cbn. lia.
  - apply (parse_line_length st line) in H. apply IH in H.
    unfold header_count in *. cbn [List.filter] in *.
    destruct (is_header line); cbn [length] in *; lia.
Qed.
End ParserCount.

(** X5: for every listing and every range, the parser returns at most as many
    records as the listing has lines starting with "Change ": a record
    returned twice after a malformed header takes the place of that header,
    and a listing without such a line gives the empty list. *)
Theorem no_more_records_than_headers output start_date end_date :
  (length (parse_pending_changes output start_date end_date)
   <= length (List.filter (startswith (str "Change ")) (split_on LF output)))%nat.
Proof.
  unfold parse_pending_changes, returned, parse_lines. rewrite length_fmap.
  pose proof (fold_left_length (normalize_date start_date) (normalize_end end_date)
                (split_on LF output) initial_parse_state 0 ltac:(cbn; lia)) as H.
  pose proof (save_current_length (normalize_date start_date) (normalize_end end_date)
                (fold_left (parse_line (normalize_date start_date) (normalize_end end_date))
                   (split_on LF output) initial_parse_state)) as [Hs _].
  exact (Nat.le_trans _ _ _ Hs H).
Qed.

(** ** Workspace path resolver: what the view gives *)

(** The tokens of [split] are not empty and hold no whitespace. *)
Lemma split_tokens s :
  Forall (fun w => w <> [] /\ Forall (fun c => isspace c = false) w) (split s).
Proof.
  induction s as [|c s IH]; [constructor|]. cbn [split].
  destruct (isspace c) eqn:Hc; [exact IH|].
  destruct s as [|c' s']; [repeat constructor; [easy|exact Hc]|].
  destruct (isspace c') eqn:Hc'.
  - constructor; [|exact IH]. split; [easy|]. now repeat constructor.
  - destruct (split (c' :: s')) as [|w ws]; [repeat constructor; [easy|exact Hc]|].
    apply Forall_cons in IH as [[_ Hw] Hws]. constructor; [|exact Hws].
    split; [easy|]. now constructor.
Qed.

(** The first token of a text that starts with a character other than
    whitespace starts with that character. *)
Lemma split_cons_nonspace c s :
  isspace c = false -> exists w ws, split (c :: s) = (c :: w) :: ws.
Proof.
  intros Hc. cbn [split]. rewrite Hc. destruct s as [|c' s']; [now exists [], []|].
  destruct (isspace c'); [now eexists [], _|].
  destruct (split (c' :: s')) as [|w ws]; [now exists [], []|]. now exists w, ws.
Qed.

Lemma split_two_nonspace a b s :
  isspace a = false -> isspace b = false ->
  exists w ws, split (a :: b :: s) = (a :: b :: w) :: ws.
Proof.
  intros Ha Hb. destruct (split_cons_nonspace b s Hb) as (w & ws & E).
  exists w, ws.
  change (split (a :: b :: s))
    with (if isspace a then split (b :: s)
          else if isspace b then [a] :: split (b :: s)
               else match split (b :: s) with
                    | w :: ws => (a :: w) :: ws
                    | [] => [[a]]
                    end).
  now rewrite Ha, Hb, E.
Qed.

(** A text that starts with "//" has a first token, which starts with "//"
    and so not with "-". *)
Lemma split_depot_line line :
  startswith (str "//") line = true ->
  exists depot_path rest,
    split line = depot_path :: rest
    /\ startswith (str "//") depot_path = true
    /\ startswith (str "-") depot_path = false.
Proof.
  destruct line as [|a [|b s]]; cbn [startswith str List.map list_ascii_of_string];
    try discriminate.
  - now rewrite andb_false_r.
  - intros [Ha [Hb _]%andb_true_iff]%andb_true_iff.
    apply N.eqb_eq in Ha, Hb. subst a b.
    destruct (split_two_nonspace (N_of_ascii "/") (N_of_ascii "/") s eq_refl eq_refl)
      as (w & ws & E).
    exists (N_of_ascii "/" :: N_of_ascii "/" :: w), ws. split; [exact E|split; reflexivity].
Qed.

(** What one line of the view does. *)
Lemma scan_view_mapping line rest depot_paths :
  startswith (str "View:") line = false ->
  startswith (str "//") (strip line) = true ->
  scan_view (line :: rest) true depot_paths
  = scan_view rest true (depot_paths ++ [hd [] (split (strip line))]).
Proof.
  intros Hv Hs. cbn [scan_view]. rewrite Hv, Hs.
  destruct (split_depot_line _ Hs) as (p & ps & E & _ & Hminus). rewrite E, Hminus.
  destruct (strip line); [discriminate Hs|reflexivity].
Qed.

Lemma scan_view_stop line rest depot_paths :
  startswith (str "View:") line = false ->
  strip line <> [] -> startswith (str "//") (strip line) = false ->
  scan_view (line :: rest) true depot_paths = depot_paths.
Proof.
  intros Hv Hne Hs. cbn [scan_view]. rewrite Hv, Hs.
  now destruct (strip line).
Qed.

Lemma scan_view_before_view lines : forall rest depot_paths,
  Forall (fun line => startswith (str "View:") line = false) lines ->
  scan_view (lines ++ rest) false depot_paths = scan_view rest false depot_paths.
Proof.
  induction lines as [|line lines IH]; intros rest depot_paths H; [reflexivity|].
  apply Forall_cons in H as [Hv H]. cbn [app scan_view]. rewrite Hv. now apply IH.
Qed.

(** A non-space character in front stays in front when the text is stripped. *)
Lemma lstrip_snoc a c : isspace c = false -> lstrip (a ++ [c]) = lstrip a ++ [c].
Proof.
  intros Hc. induction a as [|x a IH]; cbn [app lstrip]; [now rewrite Hc|].
  now destruct (isspace x).
Qed.

Lemma strip_cons_nonspace c s : isspace c = false -> strip (c :: s) = c :: rstrip s.
Proof.
  intros Hc. unfold strip, rstrip. cbn [lstrip]. rewrite Hc. cbn [rev].
  rewrite (lstrip_snoc _ _ Hc), rev_app_distr. reflexivity.
Qed.

Lemma mapping_not_view line :
  startswith (str "//") (strip line) = true -> startswith (str "View:") line = false.
Proof.
  intros Hs. destruct line as [|c s]; [reflexivity|].
  destruct (N.eq_dec c (N_of_ascii "V")) as [Hc | Hc].
  - subst c. rewrite strip_cons_nonspace in Hs by reflexivity. discriminate Hs.
  - cbn [startswith str List.map list_ascii_of_string].
    apply andb_false_intro1. apply N.eqb_neq. congruence.
Qed.

Lemma scan_view_mappings mappings : forall rest depot_paths,
  Forall (fun line => startswith (str "//") (strip line) = true) mappings ->
  scan_view (mappings ++ rest) true depot_paths
  = scan_view rest true
      (depot_paths ++ ((fun line => hd [] (split (strip line))) <$> mappings)).
Proof.
  induction mappings as [|line mappings IH]; intros rest depot_paths H.
  - cbn. now rewrite app_nil_r.
  - apply Forall_cons in H as [Hs H]. cbn [app].
    rewrite (scan_view_mapping _ _ _ (mapping_not_view _ Hs) Hs), (IH _ _ H).
    cbn [fmap list_fmap]. now rewrite <- app_assoc.
Qed.

(** X6: every path the resolver returns starts with "//", holds no whitespace,
    and is the first token of a line of the workspace definition, once
    stripped. *)
Theorem resolved_paths_are_first_tokens output :
  Forall (fun depot_path =>
            startswith (str "//") depot_path = true
            /\ Forall (fun c => isspace c = false) depot_path
            /\ exists line rest,
                 line ∈ split_on LF output
                 /\ split (strip line) = depot_path :: rest)
    (depot_paths_of_output output).
Proof.
  unfold depot_paths_of_output.
  set (P depot_path :=
         startswith (str "//") depot_path = true
         /\ Forall (fun c => isspace c = false) depot_path
         /\ exists line rest,
              line ∈ split_on LF output /\ split (strip line) = depot_path :: rest).
  enough (H : forall lines in_view_section depot_paths,
             (forall line, line ∈ lines -> line ∈ split_on LF output) ->
             Forall P depot_paths ->
             Forall P (scan_view lines in_view_section depot_paths))
    by (apply H; [easy|constructor]).
  induction lines as [|line lines IH]; intros in_view depot_paths Hsub Hacc; [exact Hacc|].
  assert (Hsub' : forall l, l ∈ lines -> l ∈ split_on LF output)
    by (intros l Hl; apply Hsub; now right).
  cbn [scan_view]. destruct (startswith (str "View:") line); [now apply IH|].
  destruct in_view; [|now apply IH].
  destruct (negb (truthy (strip line))); [now apply IH|].
  destruct (startswith (str "//") (strip line)) eqn:Hs; [|exact Hacc].
  destruct (split_depot_line _ Hs) as (p & ps & E & Hp & _). rewrite E.
  destruct (negb (startswith (str "-") p)); [|now apply IH].
  apply IH; [exact Hsub'|]. apply Forall_app. split; [exact Hacc|].
  constructor; [|constructor]. split; [exact Hp|]. split.
  - pose proof (split_tokens (strip line)) as Ht. rewrite E in Ht.
    now apply Forall_cons in Ht as [[_ Ht] _].
  - exists line, ps. split; [apply Hsub; left|exact E].
Qed.

(** X7: a workspace definition made of lines not starting with "View:", the
    "View:" line, mapping lines (starting with "//" once stripped) and then
    either nothing or a line that ends the view (not blank, not starting with
    "View:" nor, stripped, with "//") followed by anything: the resolver
    returns the first token of every mapping line, in order, and ignores
    what follows the view. *)
Theorem view_gives_first_token_of_each_mapping before view_line mappings stop :
  Forall (fun line => startswith (str "View:") line = false) before ->
  startswith (str "View:") view_line = true ->
  Forall (fun line => startswith (str "//") (strip line) = true) mappings ->
  match stop with
  | [] => True
  | line :: _ =>
      startswith (str "View:") line = false /\ strip line <> []
      /\ startswith (str "//") (strip line) = false
  end ->
  scan_view (before ++ view_line :: mappings ++ stop) false []
  = (fun line => hd [] (split (strip line))) <$> mappings.
Proof.
  intros Hbefore Hview Hmaps Hstop.
  rewrite (scan_view_before_view _ _ _ Hbefore). cbn [scan_view]. rewrite Hview.
  rewrite (scan_view_mappings _ _ _ Hmaps). cbn [app].
  destruct stop as [|line rest]; [reflexivity|].
  destruct Hstop as (Hv & Hne & Hs). now apply scan_view_stop.
Qed.

(** A client with two mappings, ended by an exclusion and one more mapping. *)
Lemma view_gives_first_token_of_each_mapping_witness :
  scan_view
    ([str "Client: ws"; []] ++ str "View:"
     :: [str (tab ++ "//depot/a/... //ws/a/...")%string;
         str (tab ++ "//depot/b/... //ws/b/...")%string]
     ++ [str (tab ++ "-//depot/b/tmp/... //ws/b/tmp/...")%string;
         str (tab ++ "//depot/c/... //ws/c/...")%string]) false []
  = [str "//depot/a/..."; str "//depot/b/..."].
Proof.
  apply (view_gives_first_token_of_each_mapping
           [str "Client: ws"; []] (str "View:")
           [str (tab ++ "//depot/a/... //ws/a/...")%string;
            str (tab ++ "//depot/b/... //ws/b/...")%string]
           [str (tab ++ "-//depot/b/tmp/... //ws/b/tmp/...")%string;
            str (tab ++ "//depot/c/... //ws/c/...")%string]).
  - repeat constructor.
  - reflexivity.
  - repeat constructor.
  - vm_compute. repeat split; discriminate.
Defined.

(** X8: a workspace definition in which no line starts with "View:" (a view
    keyword that is indented, for one) gives no depot path at all. *)
Theorem no_view_line_gives_no_path output :
  Forall (fun line => startswith (str "View:") line = false) (split_on LF output) ->
  depot_paths_of_output output = [].
Proof.
  intros H. unfold depot_paths_of_output.
  rewrite <- (app_nil_r (split_on LF output)).
  now rewrite (scan_view_before_view _ [] [] H).
Qed.

(** The mapping is there, the keyword is indented. *)
Lemma no_view_line_gives_no_path_witness :
  depot_paths_of_output
    (str ("Client: ws" ++ nl ++ " View:" ++ nl ++ tab ++ "//depot/a/... //ws/a/...")%string)
  = [].
Proof.
  apply no_view_line_gives_no_path. repeat constructor.
Defined.

(** ** Report generator: the commands it runs *)

(** Every case of the command runner. *)
Lemma run_p4_command_cases w p4_user p4_workspace p4_server command t :
  let cmd := p4 p4_user p4_workspace p4_server command in
  run_p4_command w p4_user p4_workspace p4_server command t
  = match subprocess_run w t cmd with
    | inl p =>
        if (returncode p =? 0)%Z then (Return (stdout p), t ++ [Run cmd])
        else (Exit 1, t ++ Run cmd :: failure_lines w cmd p)
    | inr e => (Raise e, t ++ [Run cmd])
    end.
Proof.
  cbv zeta. unfold run_p4_command, bind, run_checked, p4.
  destruct (subprocess_run w t _) as [p|e]; [|reflexivity].
  destruct (returncode p =? 0)%Z; [reflexivity|].
  unfold print_stderr, sys_exit, failure_lines. now rewrite <- !app_assoc.
Qed.

Section Appends.
Context {A B : Type}.
Variable P : event -> Prop.

Lemma appends_ret (a : A) : appends P 0 (ret a).
Proof. intros t. exists []. cbn. now rewrite app_nil_r. Qed.

Lemma appends_bind n n' N (m : M A) (k : A -> M B) :
  appends P n m -> (forall a, appends P n' (k a)) -> (n + n' <= N)%nat ->
  appends P N (bind m k).
Proof.
  intros Hm Hk HN t. destruct (Hm t) as (new & Ht & HP & Hn). unfold bind.
  destruct (m t) as [[a|code|e] t']; cbn [snd] in Ht; subst t'.
  - destruct (Hk a (t ++ new)) as (new' & Ht' & HP' & Hn').
    exists (new ++ new'). rewrite Ht', app_assoc. split; [reflexivity|].
    split; [now apply Forall_app|]. rewrite List.filter_app, length_app. lia.
  - exists new. cbn. repeat split; [assumption|lia].
  - exists new. cbn. repeat split; [assumption|lia].
Qed.

Lemma appends_weaken n n' (m : M A) : (n <= n')%nat -> appends P n m -> appends P n' m.
Proof.
  intros Hle Hm t. destruct (Hm t) as (new & Ht & HP & Hn). exists new.
  repeat split; [assumption..|lia].
Qed.
End Appends.

Lemma appends_print P text : P (Stderr text) -> appends P 0 (print_stderr text).
Proof. intros H t. exists [Stderr text]. cbn. repeat split; [now constructor|lia]. Qed.

Lemma appends_get_trace P : appends P 0 get_trace.
Proof. intros t. exists []. cbn. now rewrite app_nil_r. Qed.

Lemma appends_timed {A} P w name n (fn : M A) :
  (forall text, P (Stderr text)) -> appends P n fn -> appends P n (timed w name fn).
Proof.
  intros HP Hfn. unfold timed.
  apply (appends_bind P n 0); [exact Hfn| |lia]. intros result.
  apply (appends_bind P 0 0); [apply appends_get_trace| |lia]. intros t.
  apply (appends_bind P 0 0); [now apply appends_print| |lia]. intros _.
  apply appends_ret.
Qed.

Lemma appends_run_p4_command w p4_user p4_workspace p4_server command :
  appends (report_event p4_user p4_workspace p4_server) 1
    (run_p4_command w p4_user p4_workspace p4_server command).
Proof.
  intros t. rewrite run_p4_command_cases.
  assert (Hrun : report_event p4_user p4_workspace p4_server
                   (Run (p4 p4_user p4_workspace p4_server command)))
    by now exists command.
  destruct (subprocess_run w t _) as [p|e].
  - destruct (returncode p =? 0)%Z; eexists; (split; [reflexivity|]); cbn.
    + split; [now repeat constructor|lia].
    + split; [now repeat constructor|lia].
  - eexists. split; [reflexivity|]. cbn. split; [now repeat constructor|lia].
Qed.

Lemma appends_generate_raw_report w p4_user p4_workspace p4_server start_date end_date
    depot_paths :
  appends (report_event p4_user p4_workspace p4_server) 4
    (generate_raw_report w p4_user p4_workspace p4_server start_date end_date depot_paths).
Proof.
  set (P := report_event p4_user p4_workspace p4_server).
  assert (HP : forall text, P (Stderr text)) by (intros text; exact I).
  unfold generate_raw_report. apply appends_timed; [exact HP|].
  unfold generate_raw_report_body.
  apply (appends_bind P 1 3); [| |lia].
  { destruct (truthy (default [] depot_paths)).
    - apply (appends_weaken P 0); [lia|apply appends_ret].
    - unfold get_workspace_depot_paths.
      apply (appends_bind P 1 0); [apply (appends_bind P 1 0)| |lia].
      + apply appends_run_p4_command.
      + intros output. apply appends_ret.
      + lia.
      + intros paths. destruct (truthy paths); [apply appends_ret|].
        apply (appends_bind P 0 0); [now apply appends_print| |lia].
        intros _. apply appends_ret. }
  intros dp.
  apply (appends_bind P 1 2); [apply appends_run_p4_command| |lia].
  intros pending_output.
  apply (appends_bind P 1 1); [apply appends_run_p4_command| |lia].
  intros submitted_output.
  apply (appends_bind P 0 1); [apply appends_get_trace| |lia]. intros t.
  apply (appends_bind P 1 0); [apply appends_run_p4_command| |lia].
  intros submitted_output_full. apply appends_ret.
Qed.

(** X9: whatever the child processes and the clock do, the report generator
    only appends to the trace, starts at most four child processes, each of
    them [p4] with the given user, workspace and server, and sends nothing
    over HTTP; everything else it does to the outside is a line on standard
    error. *)
Theorem report_runs_at_most_four_p4_commands w p4_user p4_workspace p4_server
    start_date end_date depot_paths t :
  exists new,
    snd (generate_raw_report w p4_user p4_workspace p4_server start_date end_date
           depot_paths t) = t ++ new
    /\ Forall (report_event p4_user p4_workspace p4_server) new
    /\ (length (List.filter is_run new) <= 4)%nat.
Proof.
  exact (appends_generate_raw_report w p4_user p4_workspace p4_server start_date end_date
           depot_paths t).
Qed.

Section ExitsAfterFailedCommand.
Context {A B : Type}.
Variable w : world.

Lemma exits_ret (a : A) : exits_after_failed_command w (ret a).
Proof. intros t. exists []. cbn. rewrite app_nil_r. split; [reflexivity|discriminate]. Qed.

Lemma exits_bind (m : M A) (k : A -> M B) :
  exits_after_failed_command w m -> (forall a, exits_after_failed_command w (k a)) ->
  exits_after_failed_command w (bind m k).
Proof.
  intros Hm Hk t. destruct (Hm t) as (new & Ht & Hexit). unfold bind.
  destruct (m t) as [[a|code|e] t']; cbn [snd fst] in Ht, Hexit; subst t'.
  - destruct (Hk a (t ++ new)) as (new' & Ht' & Hexit').
    exists (new ++ new'). rewrite Ht', app_assoc. split; [reflexivity|].
    intros code Hcode. destruct (Hexit' code Hcode) as (-> & done & cmd & p & -> & Hp & Hrc).
    split; [reflexivity|]. exists (new ++ done), cmd, p.
    split; [now rewrite app_assoc|]. split; [now rewrite app_assoc|exact Hrc].
  - exists new. split; [reflexivity|]. intros code' [= <-]. now apply Hexit.
  - exists new. split; [reflexivity|]. cbn. discriminate.
Qed.
End ExitsAfterFailedCommand.

Lemma exits_print w text : exits_after_failed_command w (print_stderr text).
Proof. intros t. exists [Stderr text]. split; [reflexivity|discriminate]. Qed.

Lemma exits_get_trace w : exits_after_failed_command w get_trace.
Proof. intros t. exists []. cbn. rewrite app_nil_r. split; [reflexivity|discriminate]. Qed.

Lemma exits_run_p4_command w p4_user p4_workspace p4_server command :
  exits_after_failed_command w (run_p4_command w p4_user p4_workspace p4_server command).
Proof.
  intros t. rewrite run_p4_command_cases. cbv zeta.
  destruct (subprocess_run w t _) as [p|e] eqn:Hp.
  - destruct (Z.eqb_spec (returncode p) 0) as [Hrc|Hrc].
    + eexists. split; [reflexivity|discriminate].
    + eexists. split; [reflexivity|]. intros code [= <-]. split; [reflexivity|].
      exists [], (p4 p4_user p4_workspace p4_server command), p.
      rewrite app_nil_r. now repeat split.
  - eexists. split; [reflexivity|discriminate].
Qed.

Lemma exits_generate_raw_report w p4_user p4_workspace p4_server start_date end_date
    depot_paths :
  exits_after_failed_command w
    (generate_raw_report w p4_user p4_workspace p4_server start_date end_date depot_paths).
Proof.
  unfold generate_raw_report, timed, generate_raw_report_body.
  apply exits_bind.
  - apply exits_bind.
    { destruct (truthy (default [] depot_paths)); [apply exits_ret|].
      unfold get_workspace_depot_paths. apply exits_bind; [apply exits_bind|].
      - apply exits_run_p4_command.
      - intros output. apply exits_ret.
      - intros paths. destruct (truthy paths); [apply exits_ret|].
        apply exits_bind; [apply exits_print|]. intros _. apply exits_ret. }
    intros dp. apply exits_bind; [apply exits_run_p4_command|]. intros pending_output.
    apply exits_bind; [apply exits_run_p4_command|]. intros submitted_output.
    apply exits_bind; [apply exits_get_trace|]. intros t.
    apply exits_bind; [apply exits_run_p4_command|]. intros submitted_output_full.
    apply exits_ret.
  - intros result. apply exits_bind; [apply exits_get_trace|]. intros t.
    apply exits_bind; [apply exits_print|]. intros _. apply exits_ret.
Qed.

(** X10: the report generator leaves the program only with status 1 and only
    right after a [p4] child process has returned a non-zero code: the trace
    then ends with that command and its two failure lines, no further command
    is run, and the line of the timing decorator is not printed. *)
Theorem report_exits_only_after_failed_command w p4_user p4_workspace p4_server
    start_date end_date depot_paths t code :
  let result :=
    generate_raw_report w p4_user p4_workspace p4_server start_date end_date
      depot_paths t in
  fst result = Exit code ->
  code = 1%Z
  /\ exists done cmd p,
       snd result = t ++ done ++ Run cmd :: failure_lines w cmd p
       /\ subprocess_run w (t ++ done) cmd = inl p /\ returncode p <> 0%Z.
Proof.
  intros result Hexit.
  destruct (exits_generate_raw_report w p4_user p4_workspace p4_server start_date
              end_date depot_paths t) as (new & Ht & H).
  destruct (H code Hexit) as (-> & done & cmd & p & -> & Hp & Hrc).
  split; [reflexivity|]. exists done, cmd, p. now repeat split.
Qed.

(** With a wrong password the first query fails and nothing else is run. *)
Lemma report_exits_only_after_failed_command_witness :
  1%Z = 1%Z
  /\ exists done cmd p,
       snd (generate_raw_report failing_world (str "alice") (str "ws") (str "perforce:1666")
              (str "2024-01-01") None (Some [str "//depot/main/..."]) [])
       = [] ++ done ++ Run cmd :: failure_lines failing_world cmd p
       /\ subprocess_run failing_world ([] ++ done) cmd = inl p /\ returncode p <> 0%Z.
Proof.
  apply (report_exits_only_after_failed_command failing_world (str "alice") (str "ws")
           (str "perforce:1666") (str "2024-01-01") None (Some [str "//depot/main/..."]) []).
  reflexivity.
Defined.

(** A run in which every child process returns code zero, in full. *)
Lemma generate_raw_report_succeeds w p4_user p4_workspace p4_server start_date end_date
    depot_paths t :
  (forall t' cmd, exists p, subprocess_run w t' cmd = inl p /\ returncode p = 0%Z) ->
  exists client_output pending_output submitted_output submitted_output_full,
    let given_paths := default [] depot_paths in
    let path_filter :=
      if truthy given_paths then given_paths else depot_paths_of_output client_output in
    let resolve :=
      if truthy given_paths then []
      else Run (p4 p4_user p4_workspace p4_server [str "client"; str "-o"; p4_workspace])
           :: (if truthy path_filter then []
               else [Stderr (str "Warning: Could not determine depot paths from workspace, using all depots")]) in
    let dated :=
      submitted_args path_filter (normalize_date start_date)
        (match normalize_end end_date with Some e => e | None => str "now" end) in
    let pending_cmd :=
      p4 p4_user p4_workspace p4_server
        ([str "changes"; str "-l"; str "-u"; p4_user; str "-s"; str "pending"]
         ++ path_filter) in
    let submitted_cmd :=
      p4 p4_user p4_workspace p4_server
        ([str "changes"; str "-u"; p4_user; str "-s"; str "submitted"] ++ dated) in
    let submitted_cmd_full :=
      p4 p4_user p4_workspace p4_server
        ([str "changes"; str "-l"; str "-u"; p4_user; str "-s"; str "submitted"] ++ dated) in
    let t0 := t ++ resolve in
    let t1 := t0 ++ [Run pending_cmd] in
    let t2 := t1 ++ [Run submitted_cmd] in
    let t3 := t2 ++ [Run submitted_cmd_full] in
    let pending_changes := parse_pending_changes pending_output start_date end_date in
    prints w t (p4 p4_user p4_workspace p4_server [str "client"; str "-o"; p4_workspace])
      client_output
    /\ prints w t0 pending_cmd pending_output
    /\ prints w t1 submitted_cmd submitted_output
    /\ prints w t2 submitted_cmd_full submitted_output_full
    /\ generate_raw_report w p4_user p4_workspace p4_server start_date end_date
         depot_paths t
       = (Return
            (report_metadata p4_user p4_workspace p4_server start_date end_date
               (datetime_now w t2) (length pending_changes)
               (length (List.filter (startswith (str "Change "))
                          (split_on LF submitted_output)))
             ++ pending_section pending_changes
             ++ submitted_section submitted_output_full),
          t3 ++ [Stderr (str "generate_raw_report took " ++ perf_elapsed w t3 ++ str "s")]).
Proof.
  intros Hok.
  assert (Hrun : forall command t0, exists out,
            prints w t0 (p4 p4_user p4_workspace p4_server command) out /\
            run_p4_command w p4_user p4_workspace p4_server command t0
            = (Return out, t0 ++ [Run (p4 p4_user p4_workspace p4_server command)])).
  { intros command t0. destruct (Hok t0 (p4 p4_user p4_workspace p4_server command))
      as (p & Hp & Hrc).
    exists (stdout p). split; [now exists p|]. now apply run_p4_command_zero. }
  assert (Hend : match end_date with
                 | Some e => if truthy e then replace 45 47 e else str "now"
                 | None => str "now"
                 end
                 = match normalize_end end_date with Some e => e | None => str "now" end).
  { destruct end_date as [e|]; [|reflexivity]. cbn. now destruct (truthy e). }
  destruct (Hrun [str "client"; str "-o"; p4_workspace] t) as (client_output & Hclient & Hr0).
  exists client_output.
  set (given_paths := default [] depot_paths).
  set (path_filter :=
         if truthy given_paths then given_paths else depot_paths_of_output client_output).
  set (resolve :=
         if truthy given_paths then []
         else Run (p4 p4_user p4_workspace p4_server [str "client"; str "-o"; p4_workspace])
              :: (if truthy path_filter then []
                  else [Stderr (str "Warning: Could not determine depot paths from workspace, using all depots")])).
  assert (Hfilter : exists dp,
            (if truthy (default [] depot_paths) then ret depot_paths
             else
               depot_paths <- get_workspace_depot_paths w p4_user p4_workspace p4_server ;;
               if truthy depot_paths then ret (Some depot_paths)
               else
                 print_stderr (str "Warning: Could not determine depot paths from workspace, using all depots") ;;;
                 ret None) t = (Return dp, t ++ resolve)
            /\ default [] dp = path_filter).
  { subst resolve path_filter given_paths.
    destruct (truthy (default [] depot_paths)) eqn:Hd.
    - exists depot_paths. unfold ret. now rewrite app_nil_r.
    - unfold get_workspace_depot_paths, bind. rewrite Hr0. unfold ret.
      destruct (truthy (depot_paths_of_output client_output)) eqn:Hp.
      + exists (Some (depot_paths_of_output client_output)). split; reflexivity.
      + exists None. unfold print_stderr. rewrite <- app_assoc. split; [reflexivity|].
        cbn. now destruct (depot_paths_of_output client_output). }
  destruct Hfilter as (dp & Hfilter & Hdp).
  set (t0 := t ++ resolve) in *.
  destruct (Hrun ([str "changes"; str "-l"; str "-u"; p4_user; str "-s"; str "pending"]
                  ++ path_filter) t0) as (pending_output & Hp1 & Hr1).
  set (t1 := t0 ++ [Run _]) in Hr1.
  destruct (Hrun ([str "changes"; str "-u"; p4_user; str "-s"; str "submitted"]
                  ++ submitted_args path_filter (normalize_date start_date)
                       (match normalize_end end_date with Some e => e | None => str "now" end))
              t1) as (submitted_output & Hp2 & Hr2).
  set (t2 := t1 ++ [Run _]) in Hr2.
  destruct (Hrun ([str "changes"; str "-l"; str "-u"; p4_user; str "-s"; str "submitted"]
                  ++ submitted_args path_filter (normalize_date start_date)
                       (match normalize_end end_date with Some e => e | None => str "now" end))
              t2) as (submitted_output_full & Hp3 & Hr3).
  exists pending_output, submitted_output, submitted_output_full. cbv zeta.
  split; [exact Hclient|]. split; [exact Hp1|]. split; [exact Hp2|]. split; [exact Hp3|].
  unfold generate_raw_report, timed, generate_raw_report_body. rewrite Hend.
  unfold bind at 1. unfold bind at 1. rewrite Hfilter. rewrite Hdp.
  fold (normalize_date start_date). unfold bind at 1. rewrite Hr1. fold t1.
  unfold bind at 1. rewrite Hr2. fold t2.
  unfold bind at 1. unfold get_trace at 1. unfold bind at 1. rewrite Hr3.
  unfold ret, bind, get_trace, print_stderr.
  refine (f_equal2 pair (f_equal Return _) eq_refl). now rewrite <- app_assoc.
Qed.

(** X11: when every child process returns code zero, the trace of the report
    generator is known exactly.  Without depot paths from the caller it first
    asks for the workspace definition and, when the view gives no path, prints
    a warning and goes on without a path filter.  Then come three queries: the
    pending changes in long format with the paths as they are, and the
    submitted changes in short and in long format with "@start,@end" appended
    to every path (alone when there is no path); last the line of the timing
    decorator. *)
Theorem successful_report_runs_these_commands w p4_user p4_workspace p4_server
    start_date end_date depot_paths t :
  (forall t' cmd, exists p, subprocess_run w t' cmd = inl p /\ returncode p = 0%Z) ->
  exists client_output,
    prints w t (p4 p4_user p4_workspace p4_server [str "client"; str "-o"; p4_workspace])
      client_output
    /\ let given_paths := default [] depot_paths in
       let path_filter :=
         if truthy given_paths then given_paths else depot_paths_of_output client_output in
       let resolve :=
         if truthy given_paths then []
         else Run (p4 p4_user p4_workspace p4_server [str "client"; str "-o"; p4_workspace])
              :: (if truthy path_filter then []
                  else [Stderr (str "Warning: Could not determine depot paths from workspace, using all depots")]) in
       let dated :=
         submitted_args path_filter (normalize_date start_date)
           (match normalize_end end_date with Some e => e | None => str "now" end) in
       let queries :=
         [Run (p4 p4_user p4_workspace p4_server
                 ([str "changes"; str "-l"; str "-u"; p4_user; str "-s"; str "pending"]
                  ++ path_filter));
          Run (p4 p4_user p4_workspace p4_server
                 ([str "changes"; str "-u"; p4_user; str "-s"; str "submitted"] ++ dated));
          Run (p4 p4_user p4_workspace p4_server
                 ([str "changes"; str "-l"; str "-u"; p4_user; str "-s"; str "submitted"]
                  ++ dated))] in
       snd (generate_raw_report w p4_user p4_workspace p4_server start_date end_date
              depot_paths t)
       = t ++ resolve ++ queries
         ++ [Stderr (str "generate_raw_report took "
                     ++ perf_elapsed w (t ++ resolve ++ queries) ++ str "s")].
Proof.
  intros Hok.
  destruct (generate_raw_report_succeeds w p4_user p4_workspace p4_server start_date
              end_date depot_paths t Hok)
    as (client_output & pending_output & submitted_output & submitted_output_full & H).
  cbv zeta in H. destruct H as (Hclient & _ & _ & _ & H).
  exists client_output. split; [exact Hclient|]. cbv zeta. rewrite H. cbn [snd].
  now rewrite <- !app_assoc.
Qed.

(** The listing world, asked without depot paths: its workspace definition
    shows no view, so the warning is printed and the queries carry no path. *)
Lemma successful_report_runs_these_commands_witness :
  exists t',
    snd (generate_raw_report listing_world (str "alice") (str "ws") (str "perforce:1666")
           (str "2024-01-01") (Some (str "2024-01-31")) None [])
    = [Run (p4 (str "alice") (str "ws") (str "perforce:1666")
              [str "client"; str "-o"; str "ws"]);
       Stderr (str "Warning: Could not determine depot paths from workspace, using all depots");
       Run (p4 (str "alice") (str "ws") (str "perforce:1666")
              [str "changes"; str "-l"; str "-u"; str "alice"; str "-s"; str "pending"]);
       Run (p4 (str "alice") (str "ws") (str "perforce:1666")
              [str "changes"; str "-u"; str "alice"; str "-s"; str "submitted";
               str "@2024/01/01,@2024/01/31"]);
       Run (p4 (str "alice") (str "ws") (str "perforce:1666")
              [str "changes"; str "-l"; str "-u"; str "alice"; str "-s"; str "submitted";
               str "@2024/01/01,@2024/01/31"])] ++ t'.
Proof.
  destruct (successful_report_runs_these_commands listing_world (str "alice") (str "ws")
              (str "perforce:1666") (str "2024-01-01") (Some (str "2024-01-31")) None [])
    as (client_output & [p (Hp & _ & Hout)] & H).
  - intros t' cmd. eexists. split; reflexivity.
  - injection Hp as <-. cbn [stdout] in Hout. subst client_output.
    eexists. rewrite H. vm_compute. reflexivity.
Defined.

(** X24: when every child process returns code zero, the report is returned
    and its header counts what the queries printed: "Pending" is the number of
    records parsed from the pending query, "Submitted" the number of lines
    starting with "Change " in the output of the short submitted query, while
    the submitted section shows the output of the long one, a separate child
    process; the date of generation is read after the short query. *)
Theorem report_header_counts_what_the_queries_print w p4_user p4_workspace p4_server
    start_date end_date depot_paths t :
  (forall t' cmd, exists p, subprocess_run w t' cmd = inl p /\ returncode p = 0%Z) ->
  exists client_output pending_output submitted_output submitted_output_full,
    let given_paths := default [] depot_paths in
    let path_filter :=
      if truthy given_paths then given_paths else depot_paths_of_output client_output in
    let resolve :=
      if truthy given_paths then []
      else Run (p4 p4_user p4_workspace p4_server [str "client"; str "-o"; p4_workspace])
           :: (if truthy path_filter then []
               else [Stderr (str "Warning: Could not determine depot paths from workspace, using all depots")]) in
    let dated :=
      submitted_args path_filter (normalize_date start_date)
        (match normalize_end end_date with Some e => e | None => str "now" end) in
    let pending_cmd :=
      p4 p4_user p4_workspace p4_server
        ([str "changes"; str "-l"; str "-u"; p4_user; str "-s"; str "pending"]
         ++ path_filter) in
    let submitted_cmd :=
      p4 p4_user p4_workspace p4_server
        ([str "changes"; str "-u"; p4_user; str "-s"; str "submitted"] ++ dated) in
    let submitted_cmd_full :=
      p4 p4_user p4_workspace p4_server
        ([str "changes"; str "-l"; str "-u"; p4_user; str "-s"; str "submitted"] ++ dated) in
    let t0 := t ++ resolve in
    let t1 := t0 ++ [Run pending_cmd] in
    let t2 := t1 ++ [Run submitted_cmd] in
    let pending_changes := parse_pending_changes pending_output start_date end_date in
    prints w t (p4 p4_user p4_workspace p4_server [str "client"; str "-o"; p4_workspace])
      client_output
    /\ prints w t0 pending_cmd pending_output
    /\ prints w t1 submitted_cmd submitted_output
    /\ prints w t2 submitted_cmd_full submitted_output_full
    /\ fst (generate_raw_report w p4_user p4_workspace p4_server start_date end_date
              depot_paths t)
       = Return
           (report_metadata p4_user p4_workspace p4_server start_date end_date
              (datetime_now w t2) (length pending_changes)
              (length (List.filter (startswith (str "Change "))
                         (split_on LF submitted_output)))
            ++ pending_section pending_changes
            ++ submitted_section submitted_output_full).
Proof.
  intros Hok.
  destruct (generate_raw_report_succeeds w p4_user p4_workspace p4_server start_date
              end_date depot_paths t Hok)
    as (client_output & pending_output & submitted_output & submitted_output_full & H).
  cbv zeta in H. destruct H as (Hclient & Hp1 & Hp2 & Hp3 & H).
  exists client_output, pending_output, submitted_output, submitted_output_full. cbv zeta.
  split; [exact Hclient|]. split; [exact Hp1|]. split; [exact Hp2|]. split; [exact Hp3|].
  now rewrite H.
Qed.

(** The listing world with a depot path: two pending changes, and two lines
    starting with "Change " in the submitted listing. *)
Lemma report_header_counts_what_the_queries_print_witness :
  exists report_date,
    fst (generate_raw_report listing_world (str "alice") (str "ws") (str "perforce:1666")
           (str "2024-01-01") (Some (str "2024-01-31")) (Some [str "//depot/main/..."]) [])
    = Return
        (report_metadata (str "alice") (str "ws") (str "perforce:1666") (str "2024-01-01")
           (Some (str "2024-01-31")) report_date 2 2
         ++ pending_section [change_101; change_102]
         ++ submitted_section sample_listing).
Proof.
  destruct (report_header_counts_what_the_queries_print listing_world (str "alice")
              (str "ws") (str "perforce:1666") (str "2024-01-01") (Some (str "2024-01-31"))
              (Some [str "//depot/main/..."]) [])
    as (client_output & pending_output & submitted_output & submitted_output_full & H).
  - intros t' cmd. eexists. split; reflexivity.
  - cbv zeta in H.
    destruct H as (_ & [p1 (Hp1 & _ & Ho1)] & [p2 (Hp2 & _ & Ho2)] & [p3 (Hp3 & _ & Ho3)] & H).
    injection Hp1 as <-. injection Hp2 as <-. injection Hp3 as <-.
    cbn [stdout] in Ho1, Ho2, Ho3. subst pending_output submitted_output submitted_output_full.
    eexists. rewrite H. reflexivity.
Defined.

(** ** Timing decorator and summary requester: the request and the decoding *)

Section SummaryDecoding.
Variable w : world.
Variables report_text ollama_url model custom_prompt : pystr.
Variable t : list event.

#[local] Abbreviation url := (ollama_url ++ str "/api/generate").
#[local] Abbreviation request :=
  (mk_generate_request model (make_prompt custom_prompt report_text)
     (context_size (make_prompt custom_prompt report_text))).
#[local] Abbreviation posted := (t ++ [Post url request]).
#[local] Abbreviation diagnostics := (fun text =>
  [Stderr (str "Error connecting to Ollama: " ++ text);
   Stderr (str "Make sure Ollama is running at " ++ ollama_url)]).

Lemma ai_report_json_fails r e :
  requests_post w t url request = inl r ->
  ~ (400 <= status_code r < 600)%Z ->
  json_result r = inr e ->
  generate_ai_report_body w report_text ollama_url model custom_prompt t =
  if is_RequestException (exn_class_of e)
  then (Return VNone, posted ++ diagnostics (exn_str e))
  else (Raise e, posted).
Proof.
  intros Hpost Hst Hjson. unfold generate_ai_report_body, try_except, bind at 1, post.
  rewrite Hpost. unfold bind at 1, raise_for_status.
  destruct ((400 <=? status_code r)%Z && (status_code r <? 600)%Z) eqn:E.
  { exfalso. apply Hst. apply andb_true_iff in E as [?%Z.leb_le ?%Z.ltb_lt]. lia. }
  unfold ret at 1, bind at 1, response_json. rewrite Hjson. unfold raise.
  destruct (is_RequestException _); [now rewrite ai_report_handler|reflexivity].
Qed.

(** After the request, the requester only prints. *)
Lemma ai_report_body_trace :
  exists messages,
    snd (generate_ai_report_body w report_text ollama_url model custom_prompt t)
    = posted ++ (Stderr <$> messages).
Proof.
  destruct (requests_post w t url request) as [r|e] eqn:Hpost.
  - destruct (decide (400 <= status_code r < 600)%Z) as [Hst|Hst].
    + rewrite (ai_report_http_error _ _ _ _ _ _ r Hpost Hst). now eexists [_; _].
    + destruct (json_result r) as [result|e] eqn:Hjson.
      * rewrite (ai_report_decoded _ _ _ _ _ _ r result Hpost Hst Hjson).
        exists []. cbn. rewrite app_nil_r. now destruct result.
      * rewrite (ai_report_json_fails r e Hpost Hst Hjson).
        destruct (is_RequestException _); [now eexists [_; _]|].
        exists []. cbn. now rewrite app_nil_r.
  - rewrite (ai_report_post_fails _ _ _ _ _ _ e Hpost).
    destruct (is_RequestException _); [now eexists [_; _]|].
    exists []. cbn. now rewrite app_nil_r.
Qed.
End SummaryDecoding.

Lemma ai_report_trace w report_text ollama_url model custom_prompt t :
  exists messages,
    snd (generate_ai_report w report_text ollama_url model custom_prompt t)
    = t ++ Post (ollama_url ++ str "/api/generate")
             (mk_generate_request model (custom_prompt ++ [LF; LF] ++ report_text)
                (context_size (custom_prompt ++ [LF; LF] ++ report_text)))
           :: (Stderr <$> messages).
Proof.
  destruct (ai_report_body_trace w report_text ollama_url model custom_prompt t)
    as (messages & Hbody).
  unfold generate_ai_report. rewrite timed_cases.
  destruct (generate_ai_report_body w report_text ollama_url model custom_prompt t)
    as [[a|code|e] t'] eqn:E; cbn [snd] in Hbody |- *; subst t'.
  - eexists (messages ++ [_]). rewrite fmap_app, <- !app_assoc. reflexivity.
  - exists messages. now rewrite <- app_assoc.
  - exists messages. now rewrite <- app_assoc.
Qed.

(** X12: whatever the endpoint answers, the summary requester sends exactly
    one request and never retries: a POST to the Ollama URL followed by
    "/api/generate", with the model, the prompt (custom prompt, an empty
    line, the report) and the context size computed from the prompt.  It
    starts no child process, and all it does after the request is print on
    standard error. *)
Theorem summary_request_is_posted_once w report_text ollama_url model custom_prompt t :
  exists messages,
    snd (generate_ai_report w report_text ollama_url model custom_prompt t)
    = t ++ Post (ollama_url ++ str "/api/generate")
             (mk_generate_request model (custom_prompt ++ [LF; LF] ++ report_text)
                (context_size (custom_prompt ++ [LF; LF] ++ report_text)))
           :: (Stderr <$> messages).
Proof. exact (ai_report_trace w report_text ollama_url model custom_prompt t). Qed.

(** X13: once a response has arrived whose status is not from 400 to 599,
    its JSON decides.  An object: the value under "response" is returned as it
    is, whether a text, null or anything else, and the placeholder when the
    key is missing.  Any other JSON value: [AttributeError] leaves the
    function, and the timing line is not printed.  A body that does not
    decode: when the exception is one of the HTTP library's, it is reported
    with the two "Error connecting to Ollama" lines although the connection
    worked, and [None] is returned; another exception leaves the function. *)
Theorem summary_follows_the_decoded_json w report_text ollama_url model custom_prompt t r :
  let url := ollama_url ++ str "/api/generate" in
  let request :=
    mk_generate_request model (make_prompt custom_prompt report_text)
      (context_size (make_prompt custom_prompt report_text)) in
  let posted := t ++ [Post url request] in
  let timing t' := [Stderr (str "generate_ai_report took " ++ perf_elapsed w t' ++ str "s")] in
  let result := generate_ai_report w report_text ollama_url model custom_prompt t in
  requests_post w t url request = inl r ->
  ~ (400 <= status_code r < 600)%Z ->
  match json_result r with
  | inl (DDict items) =>
      result = (Return (dict_get items (str "response") (VStr (str "No AI report generated"))),
                posted ++ timing posted)
  | inl (DOther _) =>
      result = (Raise (mk_exn AttributeError (str "object has no attribute 'get'")), posted)
  | inr e =>
      let reported :=
        posted ++ [Stderr (str "Error connecting to Ollama: " ++ exn_str e);
                   Stderr (str "Make sure Ollama is running at " ++ ollama_url)] in
      if is_RequestException (exn_class_of e)
      then result = (Return VNone, reported ++ timing reported)
      else result = (Raise e, posted)
  end.
Proof.
  intros url request posted timing result Hpost Hst. subst result.
  unfold generate_ai_report. rewrite timed_cases.
  destruct (json_result r) as [decoded|e] eqn:Hjson.
  - rewrite (ai_report_decoded _ _ _ _ _ _ r decoded Hpost Hst Hjson).
    now destruct decoded.
  - rewrite (ai_report_json_fails _ _ _ _ _ _ r e Hpost Hst Hjson). cbv zeta.
    now destruct (is_RequestException _).
Qed.

(** The endpoint that answers 300 with a generated text. *)
Lemma summary_follows_the_decoded_json_witness :
  generate_ai_report redirect_world (str "report") (str "http://localhost:11434")
    (str "qwen2.5:14b") (str "Summarize.") []
  = (Return (VStr (str "summary")),
     [Post (str "http://localhost:11434/api/generate")
        (mk_generate_request (str "qwen2.5:14b")
           (str ("Summarize." ++ nl ++ nl ++ "report")%string) 16);
      Stderr (str "generate_ai_report took 0.001s")]).
Proof.
  refine (summary_follows_the_decoded_json redirect_world (str "report")
            (str "http://localhost:11434") (str "qwen2.5:14b") (str "Summarize.") []
            (mk_response 300 (str "300 Multiple Choices")
               (inl (DDict [(str "response", VStr (str "summary"))]))) _ _).
  - reflexivity.
  - cbn. lia.
Defined.

(** ** Context size, in characters *)

Section ContextBounds.
Local Open Scope Z_scope.

Lemma next_power_of_two_below_double m :
  1 <= m -> m <= next_power_of_two m < 2 * m.
Proof.
  intros Hm. split; [now apply next_power_of_two_least|].
  rewrite next_power_of_two_pow. unfold bit_length.
  destruct (Z.eqb_spec (m - 1) 0) as [E|E]; [cbn; lia|].
  rewrite Z.abs_eq by lia.
  rewrite Z.pow_add_r by (first [apply Z.log2_nonneg|lia]). change (2 ^ 1) with 2.
  pose proof (Z.log2_spec (m - 1) ltac:(lia)) as [H _]. lia.
Qed.

(** X14: for a prompt of [n] characters, [n] below [2 ^ 52], the token
    estimate is exactly the integer part of [2 * n / 3], floating point
    notwithstanding, and the context size is a power of two that is at least
    this estimate and less than four thirds of [n]. *)
Theorem context_size_between_two_and_four_thirds custom_prompt report_text :
  let prompt := make_prompt custom_prompt report_text in
  let n := Z.of_nat (length prompt) in
  n < 2 ^ 52 ->
  token_estimate n = 2 * n / 3
  /\ is_power_of_two (context_size prompt)
  /\ 2 * n / 3 <= context_size prompt
  /\ 3 * context_size prompt < 4 * n.
Proof.
  intros prompt n Hn.
  assert (H2 : 2 <= n).
  { subst n prompt. rewrite make_prompt_length. lia. }
  assert (Hest : token_estimate n = 2 * n / 3) by (apply token_estimate_small; lia).
  assert (H1 : 1 <= 2 * n / 3) by (apply Z.div_le_lower_bound; lia).
  unfold context_size. fold prompt. fold n. rewrite Hest.
  destruct (next_power_of_two_below_double _ H1) as [Hlo Hhi].
  split; [reflexivity|]. split; [now apply next_power_of_two_least|].
  split; [exact Hlo|].
  pose proof (Z.mul_div_le (2 * n) 3 ltac:(lia)). lia.
Qed.

(** A prompt of 18 characters: the estimate is 12, the context size 16. *)
Lemma context_size_between_two_and_four_thirds_witness :
  token_estimate 18 = 12 /\ context_size (make_prompt (str "Summarize.") (str "report")) = 16.
Proof.
  destruct (context_size_between_two_and_four_thirds (str "Summarize.") (str "report"))
    as (Hest & _).
  - reflexivity.
  - split; [exact Hest|reflexivity].
Defined.
End ContextBounds.

(** ** The entry point *)

Section IOFacts.
Context {A B : Type}.

Lemma io_bind_return (m : IO A) (k : A -> IO B) s b s2 :
  io_bind m k s = (Return b, s2) ->
  exists a s1, m s = (Return a, s1) /\ k a s1 = (Return b, s2).
Proof.
  unfold io_bind. destruct (m s) as [[a|code|e] s1]; [|discriminate..].
  intros H. now exists a, s1.
Qed.

Lemma lift_return (m : M A) s a s1 :
  lift m s = (Return a, s1) ->
  m (trace s) = (Return a, trace s1) /\ files s1 = files s.
Proof.
  unfold lift. destruct (m (trace s)) as [r t]. intros [= -> <-]. now split.
Qed.

Variable P : event -> Prop.

(** What leaves the trace alone appends nothing. *)
Lemma io_appends_silent (m : IO A) s :
  trace (snd (m s)) = trace s -> io_appends P 0 0 m s.
Proof.
  intros H. exists []. rewrite H, app_nil_r. repeat split; [constructor|cbn; lia..].
Qed.

Lemma io_appends_bind r1 p1 r2 p2 R N (m : IO A) (k : A -> IO B) s :
  io_appends P r1 p1 m s ->
  (forall a s', m s = (Return a, s') -> io_appends P r2 p2 (k a) s') ->
  (r1 + r2 <= R)%nat -> (p1 + p2 <= N)%nat ->
  io_appends P R N (io_bind m k) s.
Proof.
  intros (new & Ht & HP & Hr & Hp) Hk HR HN. unfold io_appends, io_bind.
  destruct (m s) as [[a|code|e] s'] eqn:E; cbn [snd] in Ht.
  - destruct (Hk a s' eq_refl) as (new' & Ht' & HP' & Hr' & Hp').
    exists (new ++ new'). rewrite Ht', Ht, app_assoc. split; [reflexivity|].
    split; [now apply Forall_app|]. rewrite !List.filter_app, !length_app. lia.
  - exists new. cbn [snd]. repeat split; [assumption..|lia|lia].
  - exists new. cbn [snd]. repeat split; [assumption..|lia|lia].
Qed.

Lemma io_appends_weaken r p R N (m : IO A) s :
  (r <= R)%nat -> (p <= N)%nat -> io_appends P r p m s -> io_appends P R N m s.
Proof.
  intros HR HN (new & Ht & HP & Hr & Hp). exists new. repeat split; [assumption..|lia|lia].
Qed.

Lemma io_appends_lift r p (m : M A) s :
  (exists new,
     snd (m (trace s)) = trace s ++ new /\ Forall P new
     /\ (length (List.filter is_run new) <= r)%nat
     /\ (length (List.filter is_post new) <= p)%nat) ->
  io_appends P r p (lift m) s.
Proof.
  intros (new & Ht & H). exists new. split; [|exact H].
  unfold lift. now destruct (m (trace s)) as [o t'].
Qed.

Lemma io_exits_bind (m : IO A) (k : A -> IO B) :
  io_exits_with_one m -> (forall a, io_exits_with_one (k a)) ->
  io_exits_with_one (io_bind m k).
Proof.
  intros Hm Hk s code. unfold io_bind. pose proof (Hm s) as Hs.
  destruct (m s) as [[a|code'|e] s']; cbn [fst] in *.
  - apply Hk.
  - intros [= <-]. now apply Hs.
  - discriminate.
Qed.

Lemma io_exits_lift (m : M A) : exits_with_one m -> io_exits_with_one (lift m).
Proof.
  intros Hm s code. unfold lift. pose proof (Hm (trace s) code) as H.
  now destruct (m (trace s)) as [o t'].
Qed.

Lemma io_exits_ret (a : A) : io_exits_with_one (io_ret a).
Proof. intros s code. discriminate. Qed.
End IOFacts.

Lemma io_appends_print P text s :
  P (Stderr text) -> io_appends P 0 0 (lift (print_stderr text)) s.
Proof.
  intros H. apply io_appends_lift. exists [Stderr text].
  repeat split; [now constructor|cbn; lia..].
Qed.

Lemma io_exits_print text : io_exits_with_one (lift (print_stderr text)).
Proof. apply io_exits_lift. intros t code. discriminate. Qed.

Lemma write_file_trace mw path text s : trace (snd (write_file mw path text s)) = trace s.
Proof.
  unfold write_file. destruct (write_text mw (files s) path text) as [fs [e|]]; reflexivity.
Qed.

Lemma write_file_return mw path text s s1 :
  write_file mw path text s = (Return tt, s1) ->
  write_text mw (files s) path text = (files s1, None) /\ trace s1 = trace s.
Proof.
  unfold write_file. destruct (write_text mw (files s) path text) as [fs [e|]];
    [discriminate|]. intros [= <-]. now split.
Qed.

Lemma io_exits_write_file mw path text : io_exits_with_one (write_file mw path text).
Proof.
  intros s code. unfold write_file.
  now destruct (write_text mw (files s) path text) as [fs [e|]].
Qed.

Lemma write_value_trace mw path v s : trace (snd (write_value mw path v s)) = trace s.
Proof.
  destruct v as [|text|repr]; cbn [write_value]; try apply write_file_trace.
  all: unfold io_bind, io_raise;
    pose proof (write_file_trace mw path [] s) as H;
    now destruct (write_file mw path [] s) as [[[]|code|e] s'].
Qed.

Lemma io_exits_write_value mw path v : io_exits_with_one (write_value mw path v).
Proof.
  destruct v as [|text|repr]; cbn [write_value]; try apply io_exits_write_file.
  all: apply io_exits_bind; [apply io_exits_write_file|]; intros _ s code; discriminate.
Qed.

(** Events of the report generator and of the summary requester are events
    of [main]. *)
Lemma report_events_of_main a new :
  Forall (report_event (user a) (workspace a) (server a)) new ->
  Forall (main_event a) new /\ List.filter is_post new = [].
Proof.
  induction 1 as [|ev new Hev _ [IH1 IH2]]; [now split|].
  destruct ev as [cmd|text|url body]; cbn in Hev |- *; [| |contradiction].
  - split; [now constructor|exact IH2].
  - split; [now constructor|exact IH2].
Qed.

Lemma stderr_events (P : event -> Prop) messages :
  (forall text, P (Stderr text)) ->
  Forall P (Stderr <$> messages)
  /\ List.filter is_run (Stderr <$> messages) = []
  /\ List.filter is_post (Stderr <$> messages) = [].
Proof.
  intros HP. induction messages as [|text messages (IH1 & IH2 & IH3)]; [now repeat split|].
  cbn. repeat split; [now constructor|assumption..].
Qed.

Lemma io_appends_generate_raw_report mw a s :
  io_appends (main_event a) 4 0
    (lift (generate_raw_report (report_world mw) (user a) (workspace a) (server a)
             (start_date a) (end_date a) (depot a))) s.
Proof.
  apply io_appends_lift.
  destruct (appends_generate_raw_report (report_world mw) (user a) (workspace a) (server a)
              (start_date a) (end_date a) (depot a) (trace s)) as (new & Ht & HP & Hn).
  destruct (report_events_of_main a new HP) as [HP' Hposts].
  exists new. rewrite Hposts. repeat split; [assumption..|cbn; lia].
Qed.

Lemma io_appends_generate_ai_report mw a raw_report custom_prompt s :
  io_appends (main_event a) 0 1
    (lift (generate_ai_report (report_world mw) raw_report (ollama_url a) (ollama_model a)
             custom_prompt)) s.
Proof.
  apply io_appends_lift.
  destruct (ai_report_trace (report_world mw) raw_report (ollama_url a) (ollama_model a)
              custom_prompt (trace s)) as (messages & Ht).
  destruct (stderr_events (main_event a) messages ltac:(intros; exact I))
    as (HP & Hruns & Hposts).
  eexists. split; [exact Ht|]. cbn [List.filter is_run is_post].
  rewrite Hruns, Hposts. repeat split; [|cbn; lia..].
  constructor; [now split|exact HP].
Qed.

Lemma exits_with_one_generate_raw_report w p4_user p4_workspace p4_server start_date
    end_date depot_paths :
  exits_with_one
    (generate_raw_report w p4_user p4_workspace p4_server start_date end_date depot_paths).
Proof.
  intros t code Hexit.
  destruct (exits_generate_raw_report w p4_user p4_workspace p4_server start_date
              end_date depot_paths t) as (new & _ & H).
  now destruct (H code Hexit).
Qed.

Lemma exits_with_one_generate_ai_report w report_text ollama_url model custom_prompt :
  exits_with_one (generate_ai_report w report_text ollama_url model custom_prompt).
Proof.
  intros t code Hexit. unfold generate_ai_report in Hexit. rewrite timed_fst in Hexit.
  now apply ai_report_body_never_exits in Hexit.
Qed.

Section MainFacts.
Variable mw : main_world.
Variable a : args.

#[local] Abbreviation invalid_date :=
  (Stderr (str "Error: Invalid date format. Use YYYY-MM-DD (e.g., 2000-12-31)")).

(** The date check returns without a trace or ends the program. *)
Lemma sanitize_inputs_cases s :
  sanitize_inputs mw a s =
  if strptime_ok mw (start_date a)
     && (if given (end_date a) then strptime_ok mw (default [] (end_date a)) else true)
  then (Return tt, s)
  else (Exit 1, mk_io_state (trace s ++ [invalid_date]) (files s)).
Proof. unfold sanitize_inputs. now destruct (_ && _). Qed.

Lemma sanitize_inputs_return s s1 : sanitize_inputs mw a s = (Return tt, s1) -> s1 = s.
Proof. rewrite sanitize_inputs_cases. destruct (_ && _); now intros [= <-]. Qed.

Lemma io_appends_sanitize_inputs s : io_appends (main_event a) 0 0 (sanitize_inputs mw a) s.
Proof.
  unfold io_appends. rewrite sanitize_inputs_cases. destruct (_ && _); cbn [snd trace].
  - exists []. rewrite app_nil_r. repeat split; [constructor|cbn; lia..].
  - exists [invalid_date]. repeat split; [now repeat constructor|cbn; lia..].
Qed.

Lemma load_raw_report_cases path s :
  load_raw_report path s =
  match read_text (files s) path with
  | inl raw_report =>
      (Return raw_report,
       mk_io_state (trace s ++ [Stderr (str "Reusing raw report file: " ++ path)]) (files s))
  | inr e =>
      (Exit 1,
       mk_io_state (trace s ++ [Stderr (str "Error reading raw report file: " ++ exn_str e)])
         (files s))
  end.
Proof.
  unfold load_raw_report, io_bind, get_files. now destruct (read_text (files s) path).
Qed.

Lemma io_appends_load_raw_report path s :
  io_appends (main_event a) 0 0 (load_raw_report path) s.
Proof.
  unfold io_appends. rewrite load_raw_report_cases.
  destruct (read_text (files s) path); cbn [snd trace]; eexists [_];
    (repeat split; [now repeat constructor|cbn; lia..]).
Qed.

Lemma io_appends_generate_and_save s :
  io_appends (main_event a) 4 0 (generate_and_save mw a) s.
Proof.
  unfold generate_and_save.
  apply (io_appends_bind _ 0 0 4 0); [now apply io_appends_print| |lia|lia].
  intros _ s1 _.
  apply (io_appends_bind _ 4 0 0 0); [apply io_appends_generate_raw_report| |lia|lia].
  intros raw_report s2 _.
  apply (io_appends_bind _ 0 0 0 0);
    [|intros; now apply io_appends_silent|lia|lia].
  destruct (given (raw_output a)); [|now apply io_appends_silent].
  apply (io_appends_bind _ 0 0 0 0);
    [apply io_appends_silent, write_file_trace| |lia|lia].
  intros _ s3 _. now apply io_appends_print.
Qed.

Lemma io_appends_raw_report_stage s :
  io_appends (main_event a) 4 0 (raw_report_stage mw a) s.
Proof.
  unfold raw_report_stage.
  apply (io_appends_bind _ 0 0 4 0); [now apply io_appends_silent| |lia|lia].
  intros fs s1 _. destruct (_ && _); [|apply io_appends_generate_and_save].
  apply (io_appends_weaken _ 0 0); [lia..|apply io_appends_load_raw_report].
Qed.

Lemma io_appends_ai_report_stage raw_report s :
  io_appends (main_event a) 0 1 (ai_report_stage mw a raw_report) s.
Proof.
  unfold ai_report_stage.
  destruct (_ && _);
    [|apply (io_appends_weaken _ 0 0); [lia..|now apply io_appends_silent]].
  apply (io_appends_bind _ 0 0 0 1); [now apply io_appends_silent| |lia|lia].
  intros fs s1 _. apply (io_appends_bind _ 0 0 0 1); [| |lia|lia].
  { destruct (read_text fs _) as [custom_prompt|e]; [now apply io_appends_silent|].
    apply (io_appends_bind _ 0 0 0 0); [now apply io_appends_print| |lia|lia].
    intros; now apply io_appends_silent. }
  intros custom_prompt s2 _.
  destruct (truthy custom_prompt);
    [|apply (io_appends_weaken _ 0 0); [lia..|now apply io_appends_silent]].
  apply (io_appends_bind _ 0 0 0 1); [now apply io_appends_print| |lia|lia].
  intros _ s3 _.
  apply (io_appends_bind _ 0 1 0 0); [apply io_appends_generate_ai_report| |lia|lia].
  intros summary s4 _. apply (io_appends_bind _ 0 0 0 0); [| |lia|lia].
  { destruct (negb (pyval_truthy summary)); [|now apply io_appends_silent].
    apply (io_appends_bind _ 0 0 0 0); [now apply io_appends_print| |lia|lia].
    intros; now apply io_appends_silent. }
  intros _ s5 _.
  apply (io_appends_bind _ 0 0 0 0);
    [apply io_appends_silent, write_value_trace| |lia|lia].
  intros _ s6 _. now apply io_appends_print.
Qed.

Lemma io_exits_main : io_exits_with_one (main mw a).
Proof.
  assert (Hexit : forall A text, io_exits_with_one
            (io_bind (lift (print_stderr text)) (fun _ => @io_exit A 1%Z))).
  { intros A text s code. unfold io_bind, lift, print_stderr, io_exit. cbn.
    now intros [= <-]. }
  unfold main. apply io_exits_bind.
  { unfold sanitize_inputs. destruct (_ && _); [apply io_exits_ret|apply Hexit]. }
  intros _. apply io_exits_bind.
  { unfold raw_report_stage. apply io_exits_bind; [intros s code; discriminate|].
    intros fs. destruct (_ && _).
    - unfold load_raw_report. apply io_exits_bind; [intros s code; discriminate|].
      intros fs'. destruct (read_text fs' _); [|apply Hexit].
      apply io_exits_bind; [apply io_exits_print|]. intros _. apply io_exits_ret.
    - unfold generate_and_save. apply io_exits_bind; [apply io_exits_print|].
      intros _. apply io_exits_bind.
      { apply io_exits_lift, exits_with_one_generate_raw_report. }
      intros raw_report. apply io_exits_bind; [|intros _; apply io_exits_ret].
      destruct (given (raw_output a)); [|apply io_exits_ret].
      apply io_exits_bind; [apply io_exits_write_file|]. intros _. apply io_exits_print. }
  intros raw_report. unfold ai_report_stage. destruct (_ && _); [|apply io_exits_ret].
  apply io_exits_bind; [intros s code; discriminate|]. intros fs.
  apply io_exits_bind.
  { destruct (read_text fs _); [apply io_exits_ret|apply Hexit]. }
  intros custom_prompt. destruct (truthy custom_prompt); [|apply io_exits_ret].
  apply io_exits_bind; [apply io_exits_print|]. intros _.
  apply io_exits_bind; [apply io_exits_lift, exits_with_one_generate_ai_report|].
  intros summary. apply io_exits_bind.
  { destruct (negb (pyval_truthy summary)); [apply Hexit|apply io_exits_ret]. }
  intros _. apply io_exits_bind; [apply io_exits_write_value|]. intros _.
  apply io_exits_print.
Qed.

(** A raw report stage that returns leaves the report on file: the text
    written is the one the report generator returned. *)
Lemma generate_and_save_return s raw_report s1 :
  generate_and_save mw a s = (Return raw_report, s1) ->
  given (raw_output a) = true ->
  exists fs,
    write_text mw fs (default [] (raw_output a)) raw_report = (files s1, None)
    /\ fst (generate_raw_report (report_world mw) (user a) (workspace a) (server a)
              (start_date a) (end_date a) (depot a)
              (trace s ++ [Stderr (str "Generating raw P4 report...")]))
       = Return raw_report.
Proof.
  intros H Hgiven. unfold generate_and_save in H. rewrite Hgiven in H.
  apply io_bind_return in H as ([] & sa & Hstart & H).
  apply io_bind_return in H as (raw & sb & Hraw & H).
  apply io_bind_return in H as ([] & sc & Hsave & H).
  unfold io_ret in H. injection H as H1 H2. subst raw sc.
  apply io_bind_return in Hsave as ([] & sd & Hwrite & Hprint).
  apply write_file_return in Hwrite as [Hwrite _].
  apply lift_return in Hprint as [_ Hfiles]. rewrite <- Hfiles in Hwrite.
  apply lift_return in Hstart as [Hstart _]. injection Hstart as Hstart.
  apply lift_return in Hraw as [Hraw _]. rewrite <- Hstart in Hraw.
  exists (files sb). split; [exact Hwrite|]. now rewrite Hraw.
Qed.

Lemma raw_report_stage_return s raw_report s1 :
  stores mw -> given (raw_output a) = true ->
  raw_report_stage mw a s = (Return raw_report, s1) ->
  isfile (files s1) (default [] (raw_output a)) = true
  /\ read_text (files s1) (default [] (raw_output a)) = inl raw_report
  /\ (if raw_reuse a && isfile (files s) (default [] (raw_output a))
      then read_text (files s) (default [] (raw_output a)) = inl raw_report
      else fst (generate_raw_report (report_world mw) (user a) (workspace a) (server a)
                  (start_date a) (end_date a) (depot a)
                  (trace s ++ [Stderr (str "Generating raw P4 report...")]))
           = Return raw_report).
Proof.
  intros Hstores Hgiven. unfold raw_report_stage, io_bind at 1, get_files.
  rewrite Hgiven. cbn [andb].
  destruct (raw_reuse a && isfile (files s) _) eqn:Hreuse.
  - rewrite load_raw_report_cases.
    destruct (read_text (files s) _) as [text|e] eqn:Hread; [|discriminate].
    intros [= <- <-]. cbn [files]. split; [|now split].
    now apply andb_true_iff in Hreuse as [_ Hreuse].
  - intros H.
    destruct (generate_and_save_return _ _ _ H Hgiven) as (fs & Hwrite & Hgenerated).
    apply Hstores in Hwrite as [Hisfile Hread]. now repeat split.
Qed.

End MainFacts.

(** Files in memory store what is written. *)
Lemma memory_write_stores report_world strptime_ok :
  stores (mk_main_world report_world strptime_ok memory_write).
Proof.
  intros text fs path fs'. cbn [write_text]. unfold memory_write. intros [= <-].
  cbn [isfile read_text]. destruct (decide (path = path)); [now split|congruence].
Qed.

(** X15: when the start date, or an end date that is given and not empty, does
    not parse, [main] prints the one error line and exits with status 1: no
    command has been run, no request sent, and the files are as they were.
    An empty end date is not checked. *)
Theorem invalid_date_stops_before_any_command mw a s :
  strptime_ok mw (start_date a) = false
  \/ (given (end_date a) = true /\ strptime_ok mw (default [] (end_date a)) = false) ->
  main mw a s
  = (Exit 1,
     mk_io_state
       (trace s ++ [Stderr (str "Error: Invalid date format. Use YYYY-MM-DD (e.g., 2000-12-31)")])
       (files s)).
Proof.
  intros H. unfold main, io_bind at 1. rewrite sanitize_inputs_cases.
  destruct H as [-> | [-> ->]]; [reflexivity|]. now rewrite andb_false_r.
Qed.

Lemma invalid_date_stops_before_any_command_witness :
  main listing_main_world bad_date_args empty_start
  = (Exit 1,
     mk_io_state
       (trace empty_start
        ++ [Stderr (str "Error: Invalid date format. Use YYYY-MM-DD (e.g., 2000-12-31)")])
       (files empty_start)).
Proof.
  apply (invalid_date_stops_before_any_command listing_main_world bad_date_args empty_start).
  left. reflexivity.
Defined.

(** X16: once [parse_args] has returned the arguments (lines 240-301), and
    whatever the environment does, [main] leaves the program through
    [sys.exit] with no other status than 1.  The exits of [argparse] itself,
    status 2 on a usage error and status 0 on [--help], happen inside
    [parse_args] on line 238, before this part of [main] starts. *)
Theorem main_exits_only_with_status_one mw a s code :
  fst (main mw a s) = Exit code -> code = 1%Z.
Proof. apply io_exits_main. Qed.

Lemma main_exits_only_with_status_one_witness :
  fst (main failing_main_world sample_args empty_start) = Exit 1%Z /\ 1%Z = 1%Z.
Proof.
  split; [reflexivity|].
  apply (main_exits_only_with_status_one failing_main_world sample_args empty_start 1).
  reflexivity.
Defined.

(** X17: whatever the environment does, [main] only appends to the trace;
    it starts at most four child processes, each of them [p4] with the user,
    workspace and server of the command line, and sends at most one request,
    to the generate endpoint of the given Ollama URL for the given model. *)
Theorem main_talks_only_to_p4_and_ollama mw a s :
  exists new,
    trace (snd (main mw a s)) = trace s ++ new
    /\ Forall (main_event a) new
    /\ (length (List.filter is_run new) <= 4)%nat
    /\ (length (List.filter is_post new) <= 1)%nat.
Proof.
  change (io_appends (main_event a) 4 1 (main mw a) s). unfold main.
  apply (io_appends_bind _ 0 0 4 1); [apply io_appends_sanitize_inputs| |lia|lia].
  intros _ s1 _.
  apply (io_appends_bind _ 4 0 0 1); [apply io_appends_raw_report_stage| |lia|lia].
  intros raw_report s2 _. apply io_appends_ai_report_stage.
Qed.

(** X18: with [--raw-reuse] and a raw output path that names a regular file,
    [main] starts no child process at all: the report is read from the file,
    whatever it holds, and Perforce is not asked. *)
Theorem reused_report_runs_no_command mw a s :
  given (raw_output a) = true -> raw_reuse a = true ->
  isfile (files s) (default [] (raw_output a)) = true ->
  exists new,
    trace (snd (main mw a s)) = trace s ++ new /\ List.filter is_run new = [].
Proof.
  intros Hgiven Hreuse Hisfile.
  enough (H : io_appends (main_event a) 0 1 (main mw a) s).
  { destruct H as (new & Ht & _ & Hruns & _). exists new. split; [exact Ht|].
    destruct (List.filter is_run new); [reflexivity|cbn in Hruns; lia]. }
  unfold main.
  apply (io_appends_bind _ 0 0 0 1); [apply io_appends_sanitize_inputs| |lia|lia].
  intros [] s1 Hs1. apply sanitize_inputs_return in Hs1. subst s1.
  apply (io_appends_bind _ 0 0 0 1); [| |lia|lia].
  - unfold raw_report_stage.
    apply (io_appends_bind _ 0 0 0 0); [now apply io_appends_silent| |lia|lia].
    intros fs s1 [= <- <-]. rewrite Hgiven, Hreuse, Hisfile.
    apply io_appends_load_raw_report.
  - intros raw_report s2 _. apply io_appends_ai_report_stage.
Qed.

Lemma reused_report_runs_no_command_witness :
  exists new,
    trace (snd (main listing_main_world reuse_args start_with_raw_report))
    = trace start_with_raw_report ++ new
    /\ List.filter is_run new = [].
Proof.
  apply (reused_report_runs_no_command listing_main_world reuse_args start_with_raw_report);
    reflexivity.
Defined.

(** X19: unless both a prompt file and an AI output are given (and not
    empty), [main] sends no request at all, whatever else happens. *)
Theorem no_request_without_prompt_and_output mw a s :
  given (prompt_file a) && given (ai_output a) = false ->
  exists new,
    trace (snd (main mw a s)) = trace s ++ new /\ List.filter is_post new = [].
Proof.
  intros Hai.
  enough (H : io_appends (main_event a) 4 0 (main mw a) s).
  { destruct H as (new & Ht & _ & _ & Hposts). exists new. split; [exact Ht|].
    destruct (List.filter is_post new); [reflexivity|cbn in Hposts; lia]. }
  unfold main.
  apply (io_appends_bind _ 0 0 4 0); [apply io_appends_sanitize_inputs| |lia|lia].
  intros _ s1 _.
  apply (io_appends_bind _ 4 0 0 0); [apply io_appends_raw_report_stage| |lia|lia].
  intros raw_report s2 _. unfold ai_report_stage. rewrite Hai.
  now apply io_appends_silent.
Qed.

Lemma no_request_without_prompt_and_output_witness :
  exists new,
    trace (snd (main listing_main_world sample_args empty_start))
    = trace empty_start ++ new
    /\ List.filter is_post new = [].
Proof.
  apply (no_request_without_prompt_and_output listing_main_world sample_args empty_start).
  reflexivity.
Defined.

(** X20: on a file system that stores what is written, a report that was
    generated and saved is the report a later run with [--raw-reuse] and the
    same raw output path works with: that run reads it back unchanged, says
    so on standard error, and starts no child process. *)
Theorem saved_report_is_reused mw a a' s raw_report s1 :
  stores_text mw raw_report ->
  given (raw_output a) = true -> raw_output a' = raw_output a -> raw_reuse a' = true ->
  generate_and_save mw a s = (Return raw_report, s1) ->
  raw_report_stage mw a' s1
  = (Return raw_report,
     mk_io_state
       (trace s1 ++ [Stderr (str "Reusing raw report file: " ++ default [] (raw_output a))])
       (files s1)).
Proof.
  intros Hstores Hgiven Hsame Hreuse Hsave.
  destruct (generate_and_save_return _ _ _ _ _ Hsave Hgiven) as (fs & Hwrite & _).
  apply Hstores in Hwrite as [Hisfile Hread].
  unfold raw_report_stage, io_bind, get_files.
  rewrite Hsame, Hgiven, Hreuse, Hisfile. cbn [andb].
  rewrite load_raw_report_cases, Hread. reflexivity.
Qed.

Lemma saved_report_is_reused_witness :
  exists raw_report s1,
    raw_report_stage listing_main_world reuse_args s1
    = (Return raw_report,
       mk_io_state (trace s1 ++ [Stderr (str "Reusing raw report file: raw.txt")])
         (files s1)).
Proof.
  eexists _, _.
  refine (saved_report_is_reused listing_main_world sample_args reuse_args empty_start
            _ _ (memory_write_stores _ _ _) eq_refl eq_refl eq_refl _).
  lazy. reflexivity.
Defined.

(** X21: on a file system that stores what is written, when no AI report is
    asked for and [main] returns, the raw output path names a regular file
    that holds the report: with [--raw-reuse] and a regular file at that path
    at the start, the text that file held then; otherwise the very text the
    report generator returned when called after the line "Generating raw P4
    report...". *)
Theorem success_leaves_the_raw_report_on_file mw a s :
  stores mw ->
  given (raw_output a) = true ->
  given (prompt_file a) && given (ai_output a) = false ->
  fst (main mw a s) = Return tt ->
  exists raw_report,
    isfile (files (snd (main mw a s))) (default [] (raw_output a)) = true
    /\ read_text (files (snd (main mw a s))) (default [] (raw_output a)) = inl raw_report
    /\ (if raw_reuse a && isfile (files s) (default [] (raw_output a))
        then read_text (files s) (default [] (raw_output a)) = inl raw_report
        else fst (generate_raw_report (report_world mw) (user a) (workspace a) (server a)
                    (start_date a) (end_date a) (depot a)
                    (trace s ++ [Stderr (str "Generating raw P4 report...")]))
             = Return raw_report).
Proof.
  intros Hstores Hgiven Hai Hret.
  destruct (main mw a s) as [r s3] eqn:Hmain. cbn [fst snd] in *. subst r.
  unfold main in Hmain.
  apply io_bind_return in Hmain as ([] & s1 & Hdates & Hmain).
  apply sanitize_inputs_return in Hdates. subst s1.
  apply io_bind_return in Hmain as (raw_report & s2 & Hraw & Hstage).
  unfold ai_report_stage in Hstage. rewrite Hai in Hstage. injection Hstage as <-.
  exists raw_report. now apply (raw_report_stage_return mw a s).
Qed.

(** The listing world, nothing on file at the start: the file holds what the
    report generator returned. *)
Lemma success_leaves_the_raw_report_on_file_witness :
  exists raw_report,
    isfile (files (snd (main listing_main_world sample_args empty_start))) (str "raw.txt")
    = true
    /\ read_text (files (snd (main listing_main_world sample_args empty_start)))
         (str "raw.txt") = inl raw_report
    /\ fst (generate_raw_report listing_world (str "alice") (str "ws")
              (str "perforce:1666") (str "2024-01-01") (Some (str "2024-01-31"))
              (Some [str "//depot/main/..."])
              [Stderr (str "Generating raw P4 report...")])
       = Return raw_report.
Proof.
  apply (success_leaves_the_raw_report_on_file listing_main_world sample_args empty_start).
  - apply memory_write_stores.
  - reflexivity.
  - reflexivity.
  - vm_compute. reflexivity.
Defined.



(** *** What is written *)

Section Writes.
Variable mw : main_world.

Lemma apply_writes_app writes writes' fs :
  apply_writes mw (writes ++ writes') fs
  = apply_writes mw writes' (apply_writes mw writes fs).
Proof. unfold apply_writes. apply fold_left_app. Qed.

(** What leaves the files alone writes nothing. *)
Lemma io_writes_silent {A} (m : IO A) s :
  files (snd (m s)) = files s -> io_writes mw [] m s.
Proof. intros H. exists []. split; [exact H|constructor]. Qed.

Lemma io_writes_lift {A} (m : M A) s : io_writes mw [] (lift m) s.
Proof. apply io_writes_silent. unfold lift. now destruct (m (trace s)). Qed.

Lemma io_writes_weaken {A} paths paths' (m : IO A) s :
  sublist paths paths' -> io_writes mw paths m s -> io_writes mw paths' m s.
Proof.
  intros Hsub (writes & Hfiles & Hpaths). exists writes. split; [exact Hfiles|].
  now transitivity paths.
Qed.

Lemma io_writes_bind {A B} paths paths' (m : IO A) (k : A -> IO B) s :
  io_writes mw paths m s ->
  (forall a s', m s = (Return a, s') -> io_writes mw paths' (k a) s') ->
  io_writes mw (paths ++ paths') (io_bind m k) s.
Proof.
  intros (writes & Hfiles & Hpaths) Hk. unfold io_writes, io_bind.
  destruct (m s) as [[a|code|e] s'] eqn:E; cbn [snd] in Hfiles.
  - destruct (Hk a s' eq_refl) as (writes' & Hfiles' & Hpaths').
    exists (writes ++ writes'). rewrite apply_writes_app, <- Hfiles, Hfiles'.
    split; [reflexivity|]. rewrite fmap_app. now apply sublist_app.
  - exists writes. split; [exact Hfiles|]. now apply sublist_inserts_r.
  - exists writes. split; [exact Hfiles|]. now apply sublist_inserts_r.
Qed.

Lemma io_writes_write_file path text s : io_writes mw [path] (write_file mw path text) s.
Proof.
  exists [(path, text)]. split; [|reflexivity]. unfold write_file. cbn.
  now destruct (write_text mw (files s) path text) as [fs [e|]].
Qed.

Lemma io_writes_write_value path v s : io_writes mw [path] (write_value mw path v) s.
Proof.
  destruct v as [|text|repr]; cbn [write_value]; try apply io_writes_write_file.
  all: change [path] with ([path] ++ []);
    apply io_writes_bind; [apply io_writes_write_file|];
    intros; now apply io_writes_silent.
Qed.

Lemma io_writes_main a s :
  io_writes mw
    ((if given (raw_output a) then [default [] (raw_output a)] else [])
     ++ (if given (prompt_file a) && given (ai_output a)
         then [default [] (ai_output a)] else []))
    (main mw a) s.
Proof.
  assert (Hexit : forall A text s0, io_writes mw []
            (io_bind (lift (print_stderr text)) (fun _ => @io_exit A 1%Z)) s0).
  { intros A text s0. now apply io_writes_silent. }
  unfold main.
  apply (io_writes_bind [] _).
  { unfold sanitize_inputs. destruct (_ && _); [now apply io_writes_silent|apply Hexit]. }
  intros _ s1 _. apply io_writes_bind.
  { unfold raw_report_stage.
    apply (io_writes_bind [] _); [now apply io_writes_silent|]. intros fs s2 _.
    destruct (_ && _ && _).
    - apply (io_writes_weaken []); [apply sublist_nil_l|].
      apply io_writes_silent. rewrite load_raw_report_cases.
      now destruct (read_text (files s2) _).
    - unfold generate_and_save.
      apply (io_writes_bind [] _); [apply io_writes_lift|]. intros _ s3 _.
      apply (io_writes_bind [] _); [apply io_writes_lift|]. intros raw_report s4 _.
      rewrite <- (app_nil_r (if given (raw_output a) then _ else _)).
      apply io_writes_bind; [|intros; now apply io_writes_silent].
      destruct (given (raw_output a)); [|now apply io_writes_silent].
      apply (io_writes_bind [_] []); [apply io_writes_write_file|]. intros _ s5 _.
      apply io_writes_lift. }
  intros raw_report s2 _. unfold ai_report_stage.
  destruct (_ && _); [|now apply io_writes_silent].
  apply (io_writes_bind [] _); [now apply io_writes_silent|]. intros fs s3 _.
  apply (io_writes_bind [] _).
  { destruct (read_text fs _); [now apply io_writes_silent|apply Hexit]. }
  intros custom_prompt s4 _.
  destruct (truthy custom_prompt);
    [|apply (io_writes_weaken []); [apply sublist_nil_l|now apply io_writes_silent]].
  apply (io_writes_bind [] _); [apply io_writes_lift|]. intros _ s5 _.
  apply (io_writes_bind [] _); [apply io_writes_lift|]. intros summary s6 _.
  apply (io_writes_bind [] _).
  { destruct (negb (pyval_truthy summary)); [apply Hexit|now apply io_writes_silent]. }
  intros _ s7 _.
  apply (io_writes_bind [_] []); [apply io_writes_write_value|]. intros _ s8 _.
  apply io_writes_lift.
Qed.
End Writes.

(** X23: whatever the environment does, all that [main] does to the files is
    write the raw output, when one is given, and then the AI output, when it
    and a prompt file are given, each at most once: no other path is written. *)
Theorem main_writes_only_its_outputs mw a s :
  exists writes,
    files (snd (main mw a s)) = apply_writes mw writes (files s)
    /\ sublist (fst <$> writes)
         ((if given (raw_output a) then [default [] (raw_output a)] else [])
          ++ (if given (prompt_file a) && given (ai_output a)
              then [default [] (ai_output a)] else [])).
Proof. exact (io_writes_main mw a s). Qed.
